(** * Boost2Git: the per-repository ref/commit state machine

    A shallow embedding of the two repository back ends of Boost2Git,
    [Repository] (src/repository.cpp, the Qt based exporter) and
    [git_repository] (src/git_repository.cpp), together with the
    properties of mark allocation, branch resets, merge bookkeeping,
    commit elision and submodule propagation.

    Conventions of the embedding:
    - C++ [int] and [std::size_t] values are integers of [Z]; marks stay
      below [Repository.maxMark] = 2^20 - 2 and revisions are SVN revision
      numbers, so no wrap-around occurs on the paths modelled here;
    - [std::string] is [string]; the fast-import stream of a repository is
      the list of the chunks written to it, oldest first;
    - [std::map] and [QMap] are association lists kept sorted by key
      ([om_insert]), because their iteration order shows in the output;
    - a failed [Q_ASSERT]/[assert], a thrown exception and a [qFatal]
      are results [Abort _]: the run does not continue. *)

From Stdlib Require Import ZArith List String Ascii Bool Lia.
From Stdlib Require Import Sorting.Mergesort Sorting.Sorted Sorting.Permutation Orders FinFun.
Import ListNotations.

Open Scope list_scope.
Open Scope string_scope.
Open Scope Z_scope.

(** ** Failure and results *)

Inductive failure : Type :=
| AssertionFailed (what : string)
| RuntimeError (msg : string)
| FatalError (msg : string)
| UndefinedBehaviour (what : string).

Inductive result (A : Type) : Type :=
| Ok (a : A)
| Abort (f : failure).

Arguments Ok {A} a.
Arguments Abort {A} f.

Definition bind {A B : Type} (c : result A) (k : A -> result B) : result B :=
  match c with
  | Ok a => k a
  | Abort f => Abort f
  end.

Notation "'let*' x ':=' c 'in' k" := (bind c (fun x => k))
  (at level 10, x pattern, c at level 100, k at level 200).

Definition assert (b : bool) (what : string) : result unit :=
  if b then Ok tt else Abort (AssertionFailed what).

Definition succeeds {A : Type} (c : result A) : bool :=
  match c with Ok _ => true | Abort _ => false end.

(** Monadic left fold, the shape of every [foreach] loop whose body may abort. *)
Fixpoint foldM {S X : Type} (f : S -> X -> result S) (xs : list X) (s : S) : result S :=
  match xs with
  | [] => Ok s
  | x :: xs' => let* s' := f s x in foldM f xs' s'
  end.

(** ** Strings *)

Definition LF : string := String "010"%char EmptyString.
Definition TAB : string := String "009"%char EmptyString.
Definition DQUOTE : string := String (ascii_of_nat 34) EmptyString.

(** [std::string(s.c_str())]: the characters before the first NUL *)
Fixpoint c_str (s : string) : string :=
  match s with
  | EmptyString => EmptyString
  | String c s' => if Ascii.eqb c "000"%char then EmptyString else String c (c_str s')
  end.

Definition digit_of (d : Z) : ascii := ascii_of_nat (48 + Z.to_nat d).

(** The digits of [n >= 0] in [base], most significant first, pushed in front
    of [acc]. *)
Fixpoint digits_base (fuel : nat) (base n : Z) (acc : string) : string :=
  match fuel with
  | O => acc
  | S fuel' =>
      let acc' := String (digit_of (n mod base)) acc in
      if n <? base then acc' else digits_base fuel' base (n / base) acc'
  end.

Definition nat_string (base n : Z) : string :=
  digits_base (S (Z.to_nat (Z.log2 n))) base n EmptyString.

(** [to_string(int)] *)
Definition to_string (z : Z) : string :=
  if z <? 0 then "-" ++ nat_string 10 (- z) else nat_string 10 z.

(** [stream << std::oct << int]: a negative [int] prints as its 32-bit
    two's complement. *)
Definition to_oct (z : Z) : string := nat_string 8 (z mod 2 ^ 32).

(** [boost::starts_with(s, p)] *)
Definition starts_with (s p : string) : bool := String.prefix p s.

(** [boost::ends_with(s, p)] *)
Definition ends_with (s p : string) : bool :=
  let n := String.length s in
  let k := String.length p in
  (k <=? n)%nat && String.eqb (String.substring (n - k) k s) p.

(** [s.find(p) != std::string::npos] *)
Definition contains_substring (s p : string) : bool :=
  match String.index 0 p s with Some _ => true | None => false end.

(** [std::string::substr(pos)] *)
Definition substr_from (pos : nat) (s : string) : string :=
  String.substring pos (String.length s - pos) s.

(** [std::string(n, c)] *)
Fixpoint string_repeat (n : nat) (c : ascii) : string :=
  match n with
  | O => EmptyString
  | S n' => String c (string_repeat n' c)
  end.

(** [stream << std::setfill(fill) << std::setw(w) << int]: numbers are
    right-adjusted, the fill goes in front, nothing is ever cut. *)
Definition setw_fill (w : nat) (fill : ascii) (s : string) : string :=
  string_repeat (w - String.length s) fill ++ s.

(** ** Ordered maps ([std::map], [QMap]) as sorted association lists *)

Section OrdMap.
Context {K V : Type}.
Variable cmp : K -> K -> comparison.

Fixpoint om_find (k : K) (m : list (K * V)) : option V :=
  match m with
  | [] => None
  | (k', v) :: m' =>
      match cmp k k' with
      | Eq => Some v
      | _ => om_find k m'
      end
  end.

Definition om_contains (k : K) (m : list (K * V)) : bool :=
  match om_find k m with Some _ => true | None => false end.

(** [m.value(k)]: the mapped value, or a default-constructed one *)
Definition om_value (d : V) (k : K) (m : list (K * V)) : V :=
  match om_find k m with Some v => v | None => d end.

(** [m[k] = v] *)
Fixpoint om_insert (k : K) (v : V) (m : list (K * V)) : list (K * V) :=
  match m with
  | [] => [(k, v)]
  | (k', v') :: m' =>
      match cmp k k' with
      | Lt => (k, v) :: (k', v') :: m'
      | Eq => (k, v) :: m'
      | Gt => (k', v') :: om_insert k v m'
      end
  end.

(** [m.remove(k)] / [m.erase(k)] *)
Fixpoint om_remove (k : K) (m : list (K * V)) : list (K * V) :=
  match m with
  | [] => []
  | (k', v') :: m' =>
      match cmp k k' with
      | Eq => om_remove k m'
      | _ => (k', v') :: om_remove k m'
      end
  end.

Definition om_keys (m : list (K * V)) : list K := map fst m.
Definition om_values (m : list (K * V)) : list V := map snd m.

(** [m[k]] used as an lvalue: the entry is default-constructed when absent *)
Definition om_touch (d : V) (k : K) (m : list (K * V)) : list (K * V) :=
  match om_find k m with
  | Some _ => m
  | None => om_insert k d m
  end.

(** [m.upper_bound(k)] followed by a step back: the entries whose key is
    at most [k] come first in a sorted map; the last of them is returned,
    [None] when [upper_bound] is [begin()]. *)
Fixpoint om_floor (k : K) (m : list (K * V)) : option (K * V) :=
  match m with
  | [] => None
  | (k', v') :: m' =>
      match cmp k k' with
      | Lt => None
      | _ => match om_floor k m' with
             | Some e => Some e
             | None => Some (k', v')
             end
      end
  end.
End OrdMap.

(** String-keyed maps ([std::map<std::string, T>], [QMap], and the [QHash]
    of branches, whose iteration order the program does not rely on). *)
Abbreviation sm_find := (om_find String.compare).
Abbreviation sm_contains := (om_contains String.compare).
Abbreviation sm_value := (om_value String.compare).
Abbreviation sm_insert := (om_insert String.compare).
Abbreviation sm_remove := (om_remove String.compare).
Abbreviation sm_touch := (om_touch String.compare).

(** Integer-keyed maps ([std::map<std::size_t, T>], and maps keyed by the
    address of a ref). *)
Abbreviation zm_find := (om_find Z.compare).
Abbreviation zm_value := (om_value Z.compare).
Abbreviation zm_insert := (om_insert Z.compare).
Abbreviation zm_floor := (om_floor Z.compare).
Abbreviation zm_touch := (om_touch Z.compare).

(** ** The rules a repository is driven by (src/AST.hpp) *)

Record BranchRule : Type := mkBranchRule {
  min : Z;
  max : Z;
  svn_path : string;
  git_branch_or_tag_name : string;
  line : Z;
  git_ref_qualifier : string
}.

Definition git_ref_name (b : BranchRule) : string :=
  git_ref_qualifier b ++ git_branch_or_tag_name b.

(** The process-wide [Options options] of src/main.cpp. *)
Record Options : Type := mkOptions {
  dry_run : bool;
  add_metadata : bool;
  add_metadata_notes : bool;
  commit_interval : Z
}.

(** [qSort] on a [QVector<int>]: the Standard Library's merge sort. *)
Module ZOrder <: TotalLeBool.
Definition t := Z.
Definition leb := Z.leb.
Theorem leb_total : forall a1 a2, leb a1 a2 = true \/ leb a2 a1 = true.
Proof. intros a1 a2. unfold leb. rewrite !Z.leb_le. lia. Qed.
End ZOrder.

Module ZSort := Sort ZOrder.

Definition qSort (v : list Z) : list Z := ZSort.sort v.

(** ** [Repository] (src/repository.cpp) *)

Module Repository.

(** [static const int maxMark = (1 << 20) - 2] *)
Definition maxMark : Z := Z.shiftl 1 20 - 2.

Record Branch : Type := mkBranch {
  lastChangeRev : Z;
  commits : list Z;
  marks : list Z;
  (** submodule path -> the repository mounted there, held by its name *)
  submodules : list (string * string);
  lastSubmoduleListChangeRev : Z;
  note : string
}.

(** Modelled from the spec: [Branch::neverChanged], a constant of
    repository.h, which is not among the sources; a branch that "never had
    a commit" carries it as its revision of last change. *)
Definition neverChanged : Z := 0.

(** A default-constructed [Branch], what [branches[name]] creates for a
    name it does not hold yet. *)
Definition Branch_default : Branch :=
  mkBranch neverChanged [] [] [] neverChanged "".

(** Modelled from the spec: [Branch::exists()], declared in repository.h,
    which is not among the sources. "The branch already exists" when it was
    changed at some revision and its last mark is that of a commit; a
    deleted branch "gets a commit mark of zero" (resetBranch), and every
    caller of [exists()] reads [marks.last()] right after it. *)
Definition Branch_exists (b : Branch) : bool :=
  negb (lastChangeRev b =? neverChanged)
  && negb (Nat.eqb (List.length (marks b)) 0)
  && negb (last (marks b) 0 =? 0).

Definition set_lastChangeRev (v : Z) (b : Branch) : Branch :=
  mkBranch v (commits b) (marks b) (submodules b)
           (lastSubmoduleListChangeRev b) (note b).

(** [br.commits.append(rev); br.marks.append(mark);] *)
Definition append_commit (rev mark : Z) (b : Branch) : Branch :=
  mkBranch (lastChangeRev b) (commits b ++ [rev])%list (marks b ++ [mark])%list
           (submodules b) (lastSubmoduleListChangeRev b) (note b).

Definition set_submodules (v : list (string * string)) (b : Branch) : Branch :=
  mkBranch (lastChangeRev b) (commits b) (marks b) v
           (lastSubmoduleListChangeRev b) (note b).

Definition set_lastSubmoduleListChangeRev (v : Z) (b : Branch) : Branch :=
  mkBranch (lastChangeRev b) (commits b) (marks b) (submodules b) v (note b).

Definition set_note (v : string) (b : Branch) : Branch :=
  mkBranch (lastChangeRev b) (commits b) (marks b) (submodules b)
           (lastSubmoduleListChangeRev b) v.

Record Transaction : Type := mkTransaction {
  branch : string;
  svnprefix : string;
  author : string;
  datetime : Z;
  log : string;
  revnum : Z;
  merges : list Z;
  deletedFiles : list string;
  modifiedFiles : string
}.

Definition Transaction_default : Transaction :=
  mkTransaction "" "" "" 0 "" 0 [] [] "".

Definition set_merges (v : list Z) (t : Transaction) : Transaction :=
  mkTransaction (branch t) (svnprefix t) (author t) (datetime t) (log t)
                (revnum t) v (deletedFiles t) (modifiedFiles t).

Definition set_deletedFiles (v : list string) (t : Transaction) : Transaction :=
  mkTransaction (branch t) (svnprefix t) (author t) (datetime t) (log t)
                (revnum t) (merges t) v (modifiedFiles t).

Definition set_modifiedFiles (v : string) (t : Transaction) : Transaction :=
  mkTransaction (branch t) (svnprefix t) (author t) (datetime t) (log t)
                (revnum t) (merges t) (deletedFiles t) v.

(** The state of one [Repository] object.  [fastImport] is the stream
    written to the git-fast-import child so far, [fastImport_running] is
    [fastImport.state() != QProcess::NotRunning], and [warnings] collects
    what the object sent to [Log::warn()]. *)
Record Repository : Type := mkRepository {
  name : string;
  prefix : string;
  submodule_path : string;
  branches : list (string * Branch);
  transactions : list (string * Transaction);
  deletedBranches : list (string * string);
  resetBranches : list (string * string);
  commitCount : Z;
  last_commit_mark : Z;
  next_file_mark : Z;
  processHasStarted : bool;
  incremental : bool;
  fastImport_running : bool;
  fastImport : list string;
  warnings : list string
}.

Definition set_branches (v : list (string * Branch)) (r : Repository) :=
  mkRepository (name r) (prefix r) (submodule_path r) v (transactions r)
    (deletedBranches r) (resetBranches r) (commitCount r) (last_commit_mark r)
    (next_file_mark r) (processHasStarted r) (incremental r)
    (fastImport_running r) (fastImport r) (warnings r).

Definition set_transactions (v : list (string * Transaction)) (r : Repository) :=
  mkRepository (name r) (prefix r) (submodule_path r) (branches r) v
    (deletedBranches r) (resetBranches r) (commitCount r) (last_commit_mark r)
    (next_file_mark r) (processHasStarted r) (incremental r)
    (fastImport_running r) (fastImport r) (warnings r).

Definition set_deletedBranches (v : list (string * string)) (r : Repository) :=
  mkRepository (name r) (prefix r) (submodule_path r) (branches r)
    (transactions r) v (resetBranches r) (commitCount r) (last_commit_mark r)
    (next_file_mark r) (processHasStarted r) (incremental r)
    (fastImport_running r) (fastImport r) (warnings r).

Definition set_resetBranches (v : list (string * string)) (r : Repository) :=
  mkRepository (name r) (prefix r) (submodule_path r) (branches r)
    (transactions r) (deletedBranches r) v (commitCount r) (last_commit_mark r)
    (next_file_mark r) (processHasStarted r) (incremental r)
    (fastImport_running r) (fastImport r) (warnings r).

Definition set_commitCount (v : Z) (r : Repository) :=
  mkRepository (name r) (prefix r) (submodule_path r) (branches r)
    (transactions r) (deletedBranches r) (resetBranches r) v
    (last_commit_mark r) (next_file_mark r) (processHasStarted r)
    (incremental r) (fastImport_running r) (fastImport r) (warnings r).

Definition set_last_commit_mark (v : Z) (r : Repository) :=
  mkRepository (name r) (prefix r) (submodule_path r) (branches r)
    (transactions r) (deletedBranches r) (resetBranches r) (commitCount r) v
    (next_file_mark r) (processHasStarted r) (incremental r)
    (fastImport_running r) (fastImport r) (warnings r).

Definition set_next_file_mark (v : Z) (r : Repository) :=
  mkRepository (name r) (prefix r) (submodule_path r) (branches r)
    (transactions r) (deletedBranches r) (resetBranches r) (commitCount r)
    (last_commit_mark r) v (processHasStarted r) (incremental r)
    (fastImport_running r) (fastImport r) (warnings r).

Definition set_started (v : bool) (r : Repository) :=
  mkRepository (name r) (prefix r) (submodule_path r) (branches r)
    (transactions r) (deletedBranches r) (resetBranches r) (commitCount r)
    (last_commit_mark r) (next_file_mark r) v (incremental r) v
    (fastImport r) (warnings r).

(** [fastImport.write(s)] and [fastImport.writeNoLog(s)] *)
Definition write (s : string) (r : Repository) :=
  mkRepository (name r) (prefix r) (submodule_path r) (branches r)
    (transactions r) (deletedBranches r) (resetBranches r) (commitCount r)
    (last_commit_mark r) (next_file_mark r) (processHasStarted r)
    (incremental r) (fastImport_running r) (fastImport r ++ [s])%list
    (warnings r).

(** [Log::warn() << s] *)
Definition warn (s : string) (r : Repository) :=
  mkRepository (name r) (prefix r) (submodule_path r) (branches r)
    (transactions r) (deletedBranches r) (resetBranches r) (commitCount r)
    (last_commit_mark r) (next_file_mark r) (processHasStarted r)
    (incremental r) (fastImport_running r) (fastImport r)
    (warnings r ++ [s])%list.

(** [branches.value(k)] *)
Definition branch_at (k : string) (r : Repository) : Branch :=
  sm_value Branch_default k (branches r).

(** [Branch &br = branches[k]]: the entry now exists *)
Definition touch_branch (k : string) (r : Repository) : Repository :=
  set_branches (sm_touch Branch_default k (branches r)) r.

(** a write through a reference obtained from [branches[k]] *)
Definition update_branch (k : string) (f : Branch -> Branch) (r : Repository)
  : Repository :=
  set_branches (sm_insert k (f (branch_at k r)) (branches r)) r.

(** [QVector::last()] and [QVector::operator[]] assert on a missing
    element. *)
Definition vec_last (what : string) (v : list Z) : result Z :=
  match v with
  | [] => Abort (AssertionFailed what)
  | _ => Ok (last v 0)
  end.

Definition vec_at (what : string) (v : list Z) (i : nat) : result Z :=
  match nth_error v i with
  | Some x => Ok x
  | None => Abort (AssertionFailed what)
  end.

(** [qUpperBound(v, x) - v.begin()], of the Qt library (QtAlgorithms): the
    binary search
    [while (n > 0) { half = n >> 1; middle = begin + half;
       if (value < *middle) n = half;
       else { begin = middle + 1; n -= half + 1; } }
     return begin;]
    over the [n] elements from [begin] on.  Every turn takes at least one
    element away, so [fuel] at the length of the vector is enough. *)
Fixpoint qUpperBound_from (fuel : nat) (v : list Z) (x : Z) (begin n : nat)
  : nat :=
  match fuel with
  | O => begin
  | S fuel' =>
      match n with
      | O => begin
      | _ =>
          let half := Nat.div2 n in
          let middle := (begin + half)%nat in
          if x <? nth middle v 0
          then qUpperBound_from fuel' v x begin half
          else qUpperBound_from fuel' v x (S middle) (n - S half)
      end
  end.

Definition qUpperBound (v : list Z) (x : Z) : nat :=
  qUpperBound_from (List.length v) v x 0 (List.length v).

(** [Repository::Repository]: the state after construction for a rule named
    [rule_name], mounted at [rule_submodule_path] in its super-repository
    (if any), with the refs [rule_branches]. *)
Definition create (rule_name rule_submodule_path : string)
    (rule_branches : list string) (incr : bool) : Repository :=
  let r0 :=
    mkRepository rule_name "" rule_submodule_path [] [] [] [] 0 0 maxMark
                 false incr false [] [] in
  let r1 :=
    fold_left (fun r b => update_branch b (set_lastChangeRev neverChanged) r)
              rule_branches r0 in
  update_branch "refs/heads/master" (set_lastChangeRev 1) r1.

(** [Repository::setupIncremental]. The log file is given as the list of
    its lines that match the [progress] pattern, each as (revision, ref,
    mark), or [None] when the file does not exist; [last_valid_mark] is what
    [lastValidMark(name)] reads from the marks file.  The result carries the
    returned revision and the updated [cutoff]. *)
Fixpoint setupIncremental_loop (last_valid_mark : Z)
    (lines : list (Z * string * Z)) (cutoff last_revnum : Z) (r : Repository)
  : bool * Z * Z * Repository :=
  match lines with
  | [] => (false, cutoff, last_revnum, r)
  | (rev, qbranch, mark) :: rest =>
      if rev >=? cutoff then (true, cutoff, last_revnum, r)
      else
        let r := if rev <? last_revnum
                 then warn (name r ++ " revision numbers are not monotonic: "
                            ++ " got " ++ to_string last_revnum
                            ++ " and then " ++ to_string rev) r
                 else r in
        if mark >? last_valid_mark
        then (true, rev, last_revnum,
              warn (name r ++ " unknown commit mark found:"
                    ++ " rewinding -- did you hit Ctrl-C?") r)
        else
          let r := if last_commit_mark r <? mark
                   then set_last_commit_mark mark r else r in
          let r := touch_branch qbranch r in
          let br := branch_at qbranch r in
          let r := if negb (Branch_exists br) || (mark =? 0)
                   then update_branch qbranch (set_lastChangeRev rev) r
                   else r in
          let r := update_branch qbranch (append_commit rev mark) r in
          setupIncremental_loop last_valid_mark rest cutoff rev r
  end.

Definition setupIncremental (logfile : option (list (Z * string * Z)))
    (last_valid_mark cutoff : Z) (r : Repository) : Z * Z * Repository :=
  match logfile with
  | None => (1, cutoff, r)
  | Some lines =>
      match setupIncremental_loop last_valid_mark lines cutoff 0 r with
      | (true, cutoff', _, r') => (cutoff', cutoff', r')
      | (false, cutoff', last_revnum, r') => (last_revnum + 1, cutoff', r')
      end
  end.

Section WithOptions.
Variable options : Options.

(** [Repository::reloadBranches] *)
Definition reloadBranches_step (st : bool * Repository) (b : string)
  : result (bool * Repository) :=
  let (reset_notes, r) := st in
  let* _ := assert (starts_with b "refs/") "starts_with(branch, refs/)" in
  let br := branch_at b r in
  match marks br with
  | [] => Ok (reset_notes, r)
  | _ =>
      if last (marks br) 0 =? 0 then Ok (reset_notes, r)
      else Ok (true,
               write ("reset " ++ b ++ LF ++ "from :"
                      ++ to_string (last (marks br) 0) ++ LF ++ LF
                      ++ "progress Branch " ++ b ++ " reloaded" ++ LF) r)
  end.

Definition reloadBranches (r : Repository) : result Repository :=
  let* st := foldM reloadBranches_step (om_keys (branches r)) (false, r) in
  let (reset_notes, r) := st in
  if reset_notes && add_metadata_notes options
  then Ok (write ("reset refs/notes/commits" ++ LF ++ "from :"
                  ++ to_string (maxMark + 1) ++ LF) r)
  else Ok r.

(** [Repository::startFastImport]. Touching the process cache may close the
    fast-import of other repositories, never of this one. *)
Definition startFastImport (r : Repository) : result Repository :=
  if negb (fastImport_running r) then
    if processHasStarted r
    then Abort (FatalError "git-fast-import has been started once and crashed?")
    else reloadBranches (set_started true r)
  else Ok r.

(** [Repository::markFrom]; the result carries the returned mark and the
    description the caller passed by reference. *)
Definition markFrom (branchFrom : string) (branchRevNum : Z)
    (branchFromDesc : string) (r : Repository)
  : result (Z * string * Repository) :=
  let* _ := assert (starts_with branchFrom "refs/")
                   "starts_with(branchFrom, refs/)" in
  let r := touch_branch branchFrom r in
  let brFrom := branch_at branchFrom r in
  if lastChangeRev brFrom =? neverChanged then Ok (-1, branchFromDesc, r)
  else
    match commits brFrom with
    | [] => Ok (-1, branchFromDesc, r)
    | _ =>
        if branchRevNum =? last (commits brFrom) 0 then
          let* m := vec_last "marks.last()" (marks brFrom) in
          Ok (m, branchFromDesc, r)
        else
          let it := qUpperBound (commits brFrom) branchRevNum in
          match it with
          | O =>
              Ok (0, branchFromDesc,
                  warn ("No mark found for r" ++ to_string branchRevNum
                        ++ " of branch " ++ branchFrom ++ " in repository "
                        ++ name r) r)
          | S it' =>
              let closestCommit := nth it' (commits brFrom) 0 in
              let desc :=
                if String.eqb branchFromDesc "" then branchFromDesc
                else
                  branchFromDesc ++ " at r" ++ to_string branchRevNum
                  ++ (if closestCommit =? branchRevNum then ""
                      else " => r" ++ to_string closestCommit) in
              let* m := vec_at "marks[it - commits.begin()]" (marks brFrom) it' in
              Ok (m, desc, r)
          end
    end.

(** [Repository::formatMetadataMessage] *)
Definition formatMetadataMessage (svnprefix_ : string) (rev : Z) (tag : string)
  : string :=
  "svn path=" ++ svnprefix_ ++ "; revision=" ++ to_string rev
  ++ (if String.eqb tag "" then "" else "; tag=" ++ tag) ++ LF.

(** [Repository::branchExists], [branchNote], [setBranchNote] *)
Definition branchExists (b : string) (r : Repository) : bool :=
  sm_contains b (branches r).

Definition branchNote (b : string) (r : Repository) : string :=
  note (branch_at b r).

Definition setBranchNote (b noteText : string) (r : Repository) : Repository :=
  if sm_contains b (branches r)
  then update_branch b (set_note noteText) r
  else r.

(** A transaction lives in [transactions] under its ref name; [txn] reads
    it back, [store_txn] writes through the pointer the caller holds. *)
Definition txn (key : string) (r : Repository) : Transaction :=
  sm_value Transaction_default key (transactions r).

Definition store_txn (key : string) (t : Transaction) (r : Repository)
  : Repository :=
  set_transactions (sm_insert key t (transactions r)) r.

(** [Repository::demandTransaction(branch, svnprefix, revnum)]; the
    transaction it returns is the one stored under [branch_]. *)
Definition demandTransaction (branch_ svnprefix_ : string) (rev : Z)
    (r : Repository) : result Repository :=
  match sm_find branch_ (transactions r) with
  | Some _ => Ok r
  | None =>
      let* _ := assert (starts_with branch_ "refs/")
                       "starts_with(branch, refs/)" in
      let r := store_txn branch_
                 (mkTransaction branch_ svnprefix_ "" 0 "" rev [] [] "") r in
      let r := set_commitCount (commitCount r + 1) r in
      if commit_interval options =? 0
      then Abort (UndefinedBehaviour "commitCount % 0")
      else if Z.rem (commitCount r) (commit_interval options) =? 0
      then let* r := startFastImport r in Ok (write ("checkpoint" ++ LF) r)
      else Ok r
  end.

(** [Transaction::setAuthor], [setDateTime], [setLog] *)
Definition setAuthor (a : string) (t : Transaction) : Transaction :=
  mkTransaction (branch t) (svnprefix t) a (datetime t) (log t)
                (revnum t) (merges t) (deletedFiles t) (modifiedFiles t).

Definition setDateTime (dt : Z) (t : Transaction) : Transaction :=
  mkTransaction (branch t) (svnprefix t) (author t) dt (log t)
                (revnum t) (merges t) (deletedFiles t) (modifiedFiles t).

Definition setLog (l : string) (t : Transaction) : Transaction :=
  mkTransaction (branch t) (svnprefix t) (author t) (datetime t) l
                (revnum t) (merges t) (deletedFiles t) (modifiedFiles t).

(** [Transaction::noteCopyFromBranch] *)
Definition noteCopyFromBranch (branchFrom : string) (branchRevNum : Z)
    (t : Transaction) (r : Repository) : result (Transaction * Repository) :=
  let* _ := assert (starts_with branchFrom "refs/")
                   "starts_with(branchFrom, refs/)" in
  if String.eqb (branch t) branchFrom
  then Ok (t, warn ("Cannot merge inside a branch in repository " ++ name r) r)
  else
    let* res := markFrom branchFrom branchRevNum "" r in
    let '(mark, dummy, r) := res in
    let* _ := assert (String.eqb dummy "") "dummy.empty()" in
    if mark =? -1 then
      Ok (t, warn (branch t ++ " is copying from branch " ++ branchFrom
                   ++ " but the latter doesn't exist. Continuing, assuming the files exist"
                   ++ " in repository " ++ name r) r)
    else if mark =? 0 then
      Ok (t, warn ("Unknown revision r" ++ to_string branchRevNum
                   ++ ". Continuing, assuming the files exist"
                   ++ " in repository " ++ name r) r)
    else if existsb (Z.eqb mark) (merges t) then Ok (t, r)
    else Ok (set_merges (merges t ++ [mark])%list t, r).

(** [Transaction::deleteFile] *)
Definition deleteFile (path : string) (t : Transaction) (r : Repository)
  : Transaction :=
  let pathNoSlash := prefix r ++ path in
  let pathNoSlash :=
    if ends_with pathNoSlash "/"
    then String.substring 0 (String.length pathNoSlash - 1) pathNoSlash
    else pathNoSlash in
  set_deletedFiles (deletedFiles t ++ [pathNoSlash])%list t.

(** [Transaction::addFile]; the device it returns is the repository's
    fast-import stream. *)
Definition addFile (path : string) (mode len : Z)
    (t : Transaction) (r : Repository) : result (Transaction * Repository) :=
  let mark := next_file_mark r in
  let r := set_next_file_mark (next_file_mark r - 1) r in
  let* _ := assert (mark >? last_commit_mark r + 1)
                   "mark > repository->last_commit_mark + 1" in
  let* _ := assert (negb (String.eqb (prefix r ++ path) ""))
                   "!(repository->prefix + path).empty()" in
  let t := set_modifiedFiles
             (modifiedFiles t ++ "M " ++ to_oct mode ++ " :" ++ to_string mark
              ++ " " ++ (prefix r ++ path) ++ LF) t in
  if negb (dry_run options) then
    let* r := startFastImport r in
    let r := write ("blob" ++ LF ++ "mark :") r in
    let r := write (to_string mark) r in
    let r := write (LF ++ "data ") r in
    let r := write (to_string len) r in
    let r := write LF r in
    Ok (t, r)
  else Ok (t, r).

(** [Transaction::updateSubmodule]; [submodule] is the child repository. *)
Definition updateSubmodule (submodule : Repository) (submoduleMark : Z)
    (t : Transaction) : Transaction :=
  let fake_sha := setw_fill 40 "0"%char (to_string submoduleMark) in
  set_modifiedFiles
    (modifiedFiles t ++ "M 160000 " ++ fake_sha ++ " "
     ++ submodule_path submodule ++ LF) t.

(** [Transaction::commitNote] *)
Definition commitNote (noteText : string) (append : bool) (commit : string)
    (t : Transaction) (r : Repository) : result Repository :=
  let* _ := assert (starts_with (branch t) "refs/")
                   "starts_with(branch, refs/)" in
  let branchRef := branch t in
  let commitRef := if String.eqb commit "" then branchRef else commit in
  let appending :=
    append && String.eqb commit "" && branchExists (branch t) r
    && negb (String.eqb (branchNote (branch t) r) "") in
  let text := if appending then branchNote (branch t) r ++ noteText
              else noteText in
  let message :=
    (if appending then "Appending Git note for current "
     else "Adding Git note for current ") ++ commitRef ++ LF in
  let s :=
    "commit refs/notes/commits" ++ LF
    ++ "mark :" ++ to_string (maxMark + 1) ++ LF
    ++ "committer " ++ author t ++ " " ++ to_string (datetime t) ++ " +0000" ++ LF
    ++ "data " ++ to_string (Z.of_nat (String.length message)) ++ LF
    ++ message ++ LF
    ++ "N inline " ++ commitRef ++ LF
    ++ "data " ++ to_string (Z.of_nat (String.length text)) ++ LF
    ++ text ++ LF in
  let r := write s r in
  if String.eqb commit "" then Ok (setBranchNote (branch t) text r) else Ok r.

(** The merge loop of [Transaction::commit]: [i] counts the parents so
    far, [desc] collects the marks for the progress line. *)
Fixpoint commit_merges (parentmark : Z) (ms : list Z)
    (st : Z * string * Repository) : Z * string * Repository :=
  match ms with
  | [] => st
  | merge :: rest =>
      let '(i, desc, r) := st in
      if merge =? parentmark then commit_merges parentmark rest st
      else
        let i := i + 1 in
        if i >? 16
        then (i, desc, warn ("too many merge parents in repository " ++ name r) r)
        else
          let m := " :" ++ to_string merge in
          commit_merges parentmark rest
            (i, desc ++ m, write ("merge" ++ m ++ LF) r)
  end.

Definition cvs2svn_marker : string := "This commit was manufactured by cvs2svn".

(** [foreach (chunk) fastImport.write(chunk)] *)
Definition write_all (chunks : list string) (r : Repository) : Repository :=
  fold_left (fun r c => write c r) chunks r.

(** The pieces [Transaction::commit] writes: the commit header, ... *)
Definition commit_message (t : Transaction) : string :=
  let message := if ends_with (log t) LF then log t else log t ++ LF in
  if add_metadata options
  then message ++ LF ++ formatMetadataMessage (svnprefix t) (revnum t) ""
  else message.

Definition commit_header (t : Transaction) (mark : Z) : string :=
  "commit " ++ branch t ++ LF
  ++ "mark :" ++ to_string mark ++ LF
  ++ "committer " ++ author t ++ " " ++ to_string (datetime t) ++ " +0000" ++ LF
  ++ "data " ++ to_string (Z.of_nat (String.length (commit_message t))) ++ LF
  ++ c_str (commit_message t) ++ LF.

(** ... one merge line per parent, ... *)
Definition merge_line (m : Z) : string := "merge :" ++ to_string m ++ LF.

(** ... the file deletions, ... *)
Definition commit_deletions (t : Transaction) : list string :=
  if existsb (String.eqb "") (deletedFiles t)
  then ["deleteall" ++ LF]
  else map (fun df => "D " ++ df ++ LF) (deletedFiles t).

(** ... and, after the file modifications, the progress line. *)
Definition commit_progress (t : Transaction) (mark : Z) (desc : string) : string :=
  LF ++ "progress SVN r" ++ to_string (revnum t)
  ++ " branch " ++ branch t ++ " = :" ++ to_string mark
  ++ (if String.eqb desc "" then "" else " # merge from") ++ desc
  ++ LF ++ LF.

(** The [if (cvs2svn ...) ... else foreach (merge) ...] block of
    [Transaction::commit]. *)
Definition is_cvs2svn_commit (t : Transaction) : bool :=
  contains_substring (log t) cvs2svn_marker
  && (1 <? Z.of_nat (List.length (merges t))).

Definition commit_parents (t : Transaction) (parentmark : Z) (r : Repository)
  : Transaction * string * Repository :=
  let i := if parentmark =? 0 then 0 else 1 in
  if is_cvs2svn_commit t
  then
    let sorted := qSort (merges t) in
    (set_merges (removelast sorted) t, "",
     write ("merge :" ++ to_string (last sorted 0) ++ LF) r)
  else
    let '(_, desc, r) := commit_merges parentmark (merges t) (i, "", r) in
    (t, desc, r).

(** [int parentmark = 0; if (br.exists()) parentmark = br.marks.last();] *)
Definition commit_parentmark (br : Branch) : result Z :=
  if Branch_exists br then vec_last "marks.last()" (marks br) else Ok 0.

(** [Transaction::commit] *)
Definition Transaction_commit (t : Transaction) (r : Repository)
  : result (Transaction * Repository) :=
  let* r := startFastImport r in
  let mark := last_commit_mark r + 1 in
  let r := set_last_commit_mark mark r in
  let* _ := assert (mark <? next_file_mark r - 1)
                   "mark < repository->next_file_mark - 1" in
  let r := touch_branch (branch t) r in
  let br := branch_at (branch t) r in
  let* parentmark := commit_parentmark br in
  let r :=
    if negb (Branch_exists br) && incremental r
    then warn ("Branch " ++ branch t ++ " in repository " ++ name r
               ++ " doesn't exist at revision " ++ to_string (revnum t)
               ++ " -- did you resume from the wrong revision?") r
    else r in
  let r := update_branch (branch t)
             (fun b => append_commit (revnum t) mark
                         (set_lastChangeRev (revnum t) b)) r in
  let* _ := assert (starts_with (branch t) "refs/")
                   "starts_with(branch, refs/)" in
  let r := write (commit_header t mark) r in
  let '(t', desc, r) := commit_parents t parentmark r in
  let r := write_all (commit_deletions t') r in
  let r := write (modifiedFiles t') r in
  let r := write (commit_progress t' mark desc) r in
  if add_metadata_notes options
  then
    let* r := commitNote (formatMetadataMessage (svnprefix t') (revnum t') "")
                         false "" t' r in
    Ok (t', r)
  else Ok (t', r).

(** [Repository::commit]: the end of a revision.  Every open transaction is
    committed, in the order of the map, then they are dropped. *)
Definition commit_step (author_ : string) (epoch : Z) (log_ : string)
    (r : Repository) (kt : string * Transaction) : result Repository :=
  let t := setLog log_ (setDateTime epoch (setAuthor author_ (snd kt))) in
  let* tr := Transaction_commit t r in
  Ok (snd tr).

Definition commit (author_ : string) (epoch : Z) (log_ : string)
    (r : Repository) : result Repository :=
  let* r := foldM (commit_step author_ epoch log_) (transactions r) r in
  let r := set_transactions [] r in
  Ok (set_next_file_mark maxMark r).

(** [Repository::submoduleChanged], run on the super-repository [r] for
    its submodule [submodule]. *)
Definition submoduleChanged (submodule : Repository) (branchRule : BranchRule)
    (submoduleMark rev : Z) (r : Repository) : result Repository :=
  let deletion := submoduleMark =? 0 in
  let path := submodule_path submodule in
  let ref := git_ref_name branchRule in
  let r := touch_branch ref r in
  if deletion && negb (sm_contains path (submodules (branch_at ref r)))
  then Ok r
  else
    let r :=
      if deletion
      then update_branch ref
             (fun b => set_submodules (sm_remove path (submodules b)) b) r
      else update_branch ref
             (fun b => set_submodules
                         (sm_insert path (name submodule) (submodules b)) b) r in
    let* r := demandTransaction ref "" rev r in
    let t := txn ref r in
    let t := if deletion then deleteFile path t r
             else updateSubmodule submodule submoduleMark t in
    let r := store_txn ref t r in
    Ok (update_branch ref (set_lastSubmoduleListChangeRev rev) r).

(** [Repository::update_dot_gitmodules] *)
Definition dot_gitmodules (b : Branch) : string :=
  String.concat ""
    (map (fun p : string * string =>
            "[submodule " ++ DQUOTE ++ fst p ++ DQUOTE ++ "]" ++ LF
            ++ TAB ++ "path = " ++ fst p ++ LF
            ++ TAB ++ "url = http://github.com/boostorg/" ++ snd p ++ LF)
         (submodules b)).

Definition update_dot_gitmodules (branch_name : string) (b : Branch) (rev : Z)
    (r : Repository) : result Repository :=
  let* r := demandTransaction branch_name "" rev r in
  let content := dot_gitmodules b in
  let* tr := addFile ".gitmodules" 33188
               (Z.of_nat (String.length content)) (txn branch_name r) r in
  let '(t, r) := tr in
  let r := store_txn branch_name t r in
  if negb (dry_run options)
  then Ok (write LF (write content r))
  else Ok r.

(** [Repository::resetBranch]. [super] is the repository [submodule_in_repo]
    points to, if any; it is a different object from [r]. *)
Definition backupBranch_name (deleting : bool) (gitRefName : string) (rev : Z)
  : string :=
  if deleting && starts_with gitRefName "refs/heads/"
  then "refs/tags/backups/" ++ substr_from 11 gitRefName ++ "@" ++ to_string rev
  else "refs/backups/r" ++ to_string rev ++ substr_from 4 gitRefName.

(** the backup of a branch that exists and is reset at another revision
    than the one that last changed it *)
Definition backupCmd (br : Branch) (deleting : bool) (gitRefName : string)
    (rev : Z) : string :=
  if Branch_exists br && negb (lastChangeRev br =? rev)
  then "reset " ++ backupBranch_name deleting gitRefName rev ++ LF
       ++ "from " ++ gitRefName ++ LF ++ LF
  else "".

Definition reset_cmd (gitRefName : string) (rev mark : Z)
    (resetTo comment : string) : string :=
  "reset " ++ gitRefName ++ LF ++ "from " ++ resetTo ++ LF ++ LF
  ++ "progress SVN r" ++ to_string rev
  ++ " branch " ++ gitRefName ++ " = :" ++ to_string mark
  ++ " # " ++ comment ++ LF ++ LF.

Definition resetBranch (branch_rule : BranchRule) (gitRefName : string)
    (rev mark : Z) (resetTo comment : string)
    (w : option Repository * Repository)
  : result (option Repository * Repository) :=
  let (super, r) := w in
  let* super :=
    match super with
    | Some s =>
        let* s := submoduleChanged r branch_rule mark rev s in Ok (Some s)
    | None => Ok None
    end in
  let* _ := assert (starts_with gitRefName "refs/")
                   "starts_with(gitRefName, refs/)" in
  let deleting := mark =? 0 in
  let r := touch_branch gitRefName r in
  let br := branch_at gitRefName r in
  let backupCmd := backupCmd br deleting gitRefName rev in
  let r := update_branch gitRefName
             (fun b => append_commit rev mark (set_lastChangeRev rev b)) r in
  let cmd := reset_cmd gitRefName rev mark resetTo comment in
  let r :=
    if deleting then
      if sm_contains gitRefName (resetBranches r)
      then set_resetBranches (sm_remove gitRefName (resetBranches r)) r
      else set_deletedBranches
             (sm_insert gitRefName
                (sm_value "" gitRefName (deletedBranches r) ++ backupCmd ++ cmd)
                (deletedBranches r)) r
    else set_resetBranches
           (sm_insert gitRefName
              (sm_value "" gitRefName (resetBranches r) ++ backupCmd ++ cmd)
              (resetBranches r)) r in
  Ok (super, r).

(** [Repository::createBranch] *)
Definition createBranch (branch_rule : BranchRule) (rev : Z)
    (branchFrom : string) (branchRevNum : Z)
    (w : option Repository * Repository)
  : result (option Repository * Repository) :=
  let (super, r) := w in
  let branch_ := git_ref_name branch_rule in
  let* _ := assert (starts_with branch_ "refs/") "starts_with(branch, refs/)" in
  let* _ := assert (starts_with branchFrom "refs/")
                   "starts_with(branchFrom, refs/)" in
  let branchFromDesc := "from branch " ++ branchFrom in
  let* res := markFrom branchFrom branchRevNum branchFromDesc r in
  let '(mark, branchFromDesc, r) := res in
  if mark =? -1 then
    Abort (RuntimeError
             (branch_ ++ " in repository " ++ name r
              ++ " is branching from branch " ++ branchFrom
              ++ " but the latter doesn't exist. Can't continue."))
  else
    let r :=
      if mark =? 0
      then warn (branch_ ++ " in repository " ++ name r
                 ++ " is branching but no exported commits exist in repository."
                 ++ " creating an empty branch.") r
      else r in
    let branchFromRef := if mark =? 0 then branchFrom else ":" ++ to_string mark in
    let branchFromDesc :=
      if mark =? 0 then branchFromDesc ++ ", deleted/unknown"
      else branchFromDesc in
    let r := update_branch branch_ (set_note (note (branch_at branchFrom r))) r in
    resetBranch branch_rule branch_ rev mark branchFromRef branchFromDesc
                (super, r).

(** [Repository::deleteBranch] *)
Definition null_sha : string := string_repeat 40 "0"%char.

Definition deleteBranch (branch_rule : BranchRule) (rev : Z)
    (w : option Repository * Repository)
  : result (option Repository * Repository) :=
  let branch_ := git_ref_name branch_rule in
  let* _ := assert (starts_with branch_ "refs/") "starts_with(branch, refs/)" in
  if String.eqb branch_ "refs/heads/master" then Ok w
  else resetBranch branch_rule branch_ rev 0 null_sha "delete" w.

(** [Repository::prepare_commit] *)
Definition prepare_commit_step (rev : Z) (r : Repository) (branch_name : string)
  : result Repository :=
  let b := branch_at branch_name r in
  if lastSubmoduleListChangeRev b =? rev
  then update_dot_gitmodules branch_name b rev r
  else Ok r.

Definition prepare_commit (rev : Z) (r : Repository) : result Repository :=
  match deletedBranches r, resetBranches r with
  | [], [] => Ok r
  | _, _ =>
      let* r := foldM (prepare_commit_step rev) (om_keys (branches r)) r in
      let* r := startFastImport r in
      let r := write_all (om_values (deletedBranches r)) r in
      let r := write_all (om_values (resetBranches r)) r in
      Ok (set_resetBranches [] (set_deletedBranches [] r))
  end.


(** *** Runs of a repository

    [step r ms r']: one operation of the importer takes the repository
    from [r] to [r']; [ms] lists the marks that commits recorded for their
    branch on the way.  [Repository::commit] is the run of
    [Transaction::commit] over the open transactions followed by
    [end_of_revision].  Resuming from a log ([setupIncremental]) is not a
    step: it happens once, before the first revision. *)
Definition end_of_revision (r : Repository) : Repository :=
  set_next_file_mark maxMark (set_transactions [] r).

Inductive step : Repository -> list Z -> Repository -> Prop :=
| step_startFastImport r r' :
    startFastImport r = Ok r' -> step r [] r'
| step_markFrom branchFrom branchRevNum desc r res :
    markFrom branchFrom branchRevNum desc r = Ok res -> step r [] (snd res)
| step_createBranch rule rev branchFrom branchRevNum super r w' :
    createBranch rule rev branchFrom branchRevNum (super, r) = Ok w' ->
    step r [] (snd w')
| step_deleteBranch rule rev super r w' :
    deleteBranch rule rev (super, r) = Ok w' -> step r [] (snd w')
| step_resetBranch rule gitRefName rev mark resetTo comment super r w' :
    resetBranch rule gitRefName rev mark resetTo comment (super, r) = Ok w' ->
    step r [] (snd w')
| step_submoduleChanged child rule mark rev r r' :
    submoduleChanged child rule mark rev r = Ok r' -> step r [] r'
| step_prepare_commit rev r r' :
    prepare_commit rev r = Ok r' -> step r [] r'
| step_demandTransaction branch_ svnprefix_ rev r r' :
    demandTransaction branch_ svnprefix_ rev r = Ok r' -> step r [] r'
| step_noteCopyFromBranch branchFrom branchRevNum key r t' r' :
    noteCopyFromBranch branchFrom branchRevNum (txn key r) r = Ok (t', r') ->
    step r [] (store_txn key t' r')
| step_deleteFile path key r :
    step r [] (store_txn key (deleteFile path (txn key r) r) r)
| step_addFile path mode len key r t' r' :
    addFile path mode len (txn key r) r = Ok (t', r') ->
    step r [] (store_txn key t' r')
| step_commitNote noteText append commit_ t r r' :
    commitNote noteText append commit_ t r = Ok r' -> step r [] r'
| step_Transaction_commit t r t' r' :
    Transaction_commit t r = Ok (t', r') ->
    step r [last (marks (branch_at (branch t) r')) 0] r'
| step_end_of_revision r :
    step r [] (end_of_revision r).

Inductive run : Repository -> list Z -> Repository -> Prop :=
| run_nil r : run r [] r
| run_step r0 ms r ms' r' :
    run r0 ms r -> step r ms' r' -> run r0 (ms ++ ms')%list r'.

End WithOptions.

(** The commit and the marks vectors of a branch grow together. *)
Definition lockstep_branch (b : Branch) : Prop :=
  List.length (commits b) = List.length (marks b).

Definition lockstep (r : Repository) : Prop :=
  Forall (fun kb => lockstep_branch (snd kb)) (branches r).

(** [1, 2, ..., n] *)
Definition marks_upto (n : Z) : list Z :=
  map Z.of_nat (seq 1 (Z.to_nat n)).

End Repository.

(** ** [git_repository] (src/git_repository.cpp) *)

Module GitRepository.

(** [svn::revision], as far as [open_commit] reads it *)
Record revision : Type := mkRevision {
  rev_revnum : Z;
  rev_author : string;
  rev_epoch : Z;
  rev_log_message : string
}.

(** Modelled from the spec: [git_repository::ref], declared in
    git_repository.hpp, which is not among the sources.  The spec lists its
    fields; a ref is named by its address, an integer here, and the maps
    keyed by a ref are keyed by that address. *)
Record ref : Type := mkRef {
  name : string;
  marks : list (Z * Z);
  head_tree_sha : string;
  merged_revisions : list (Z * Z);
  pending_merges : list (Z * Z);
  pending_deletions : list string;
  rewrite_dot_gitmodules : bool
}.

Definition ref_new (n : string) : ref := mkRef n [] "" [] [] [] false.

Definition set_marks (v : list (Z * Z)) (r : ref) : ref :=
  mkRef (name r) v (head_tree_sha r) (merged_revisions r) (pending_merges r)
        (pending_deletions r) (rewrite_dot_gitmodules r).

Definition set_head_tree_sha (v : string) (r : ref) : ref :=
  mkRef (name r) (marks r) v (merged_revisions r) (pending_merges r)
        (pending_deletions r) (rewrite_dot_gitmodules r).

Definition set_merged_revisions (v : list (Z * Z)) (r : ref) : ref :=
  mkRef (name r) (marks r) (head_tree_sha r) v (pending_merges r)
        (pending_deletions r) (rewrite_dot_gitmodules r).

Definition set_pending_merges (v : list (Z * Z)) (r : ref) : ref :=
  mkRef (name r) (marks r) (head_tree_sha r) (merged_revisions r) v
        (pending_deletions r) (rewrite_dot_gitmodules r).

Definition set_pending_deletions (v : list string) (r : ref) : ref :=
  mkRef (name r) (marks r) (head_tree_sha r) (merged_revisions r)
        (pending_merges r) v (rewrite_dot_gitmodules r).

Definition set_rewrite_dot_gitmodules (v : bool) (r : ref) : ref :=
  mkRef (name r) (marks r) (head_tree_sha r) (merged_revisions r)
        (pending_merges r) (pending_deletions r) v.

(** The state of one [git_repository].  [refs] maps the address of each ref
    to its state, [modified_refs] is the [std::set] of dirty refs in
    ascending order, [fast_import] is the stream written so far and
    [messages] what went to [Log::warn()] and [Log::error()]. *)
Record git_repository : Type := mkGit {
  git_dir : string;
  refs : list (Z * ref);
  has_submodules : bool;
  modified_submodule_refs : Z;
  last_mark : Z;
  current_ref : option Z;
  modified_refs : list Z;
  fast_import : list string;
  messages : list string
}.

Definition set_refs (v : list (Z * ref)) (g : git_repository) :=
  mkGit (git_dir g) v (has_submodules g) (modified_submodule_refs g)
        (last_mark g) (current_ref g) (modified_refs g) (fast_import g)
        (messages g).

Definition set_modified_submodule_refs (v : Z) (g : git_repository) :=
  mkGit (git_dir g) (refs g) (has_submodules g) v (last_mark g)
        (current_ref g) (modified_refs g) (fast_import g) (messages g).

Definition set_last_mark (v : Z) (g : git_repository) :=
  mkGit (git_dir g) (refs g) (has_submodules g) (modified_submodule_refs g) v
        (current_ref g) (modified_refs g) (fast_import g) (messages g).

Definition set_current_ref (v : option Z) (g : git_repository) :=
  mkGit (git_dir g) (refs g) (has_submodules g) (modified_submodule_refs g)
        (last_mark g) v (modified_refs g) (fast_import g) (messages g).

Definition set_modified_refs (v : list Z) (g : git_repository) :=
  mkGit (git_dir g) (refs g) (has_submodules g) (modified_submodule_refs g)
        (last_mark g) (current_ref g) v (fast_import g) (messages g).

(** [fast_import() << s] *)
Definition write (s : string) (g : git_repository) :=
  mkGit (git_dir g) (refs g) (has_submodules g) (modified_submodule_refs g)
        (last_mark g) (current_ref g) (modified_refs g)
        (fast_import g ++ [s])%list (messages g).

(** [Log::warn() << s], [Log::error() << s] *)
Definition report (s : string) (g : git_repository) :=
  mkGit (git_dir g) (refs g) (has_submodules g) (modified_submodule_refs g)
        (last_mark g) (current_ref g) (modified_refs g) (fast_import g)
        (messages g ++ [s])%list.

(** [*p] for a ref pointer [p] *)
Definition ref_at (p : Z) (g : git_repository) : ref :=
  zm_value (ref_new "") p (refs g).

(** a write through the ref pointer [p] *)
Definition update_ref (p : Z) (f : ref -> ref) (g : git_repository) :=
  set_refs (zm_insert p (f (ref_at p g)) (refs g)) g.

(** Modelled from the spec: [demand_ref], defined outside the sources.
    "Refs are created lazily": the ref of that name, made at a fresh
    address when there is none yet. *)
Definition find_ref (n : string) (g : git_repository) : option Z :=
  match filter (fun kr => String.eqb (name (snd kr)) n) (refs g) with
  | (p, _) :: _ => Some p
  | [] => None
  end.

Definition fresh_address (g : git_repository) : Z :=
  1 + fold_right Z.max 0 (om_keys (refs g)).

Definition demand_ref (n : string) (g : git_repository) : Z * git_repository :=
  match find_ref n g with
  | Some p => (p, g)
  | None =>
      let p := fresh_address g in
      (p, set_refs (zm_insert p (ref_new n) (refs g)) g)
  end.

(** Modelled from the spec: the commands of the fast-import channel
    ([fast_import().commit], [reset], [filedelete], [send_ls]), defined
    outside the sources; their text is the stream format of the spec. *)
Definition fi_commit (ref_name : string) (mark : Z) (author : string)
    (epoch : Z) (log_message : string) : string :=
  "commit " ++ ref_name ++ LF ++ "mark :" ++ to_string mark ++ LF
  ++ "committer " ++ author ++ " " ++ to_string epoch ++ " +0000" ++ LF
  ++ "data " ++ to_string (Z.of_nat (String.length log_message)) ++ LF
  ++ log_message ++ LF.

Definition fi_reset (ref_name : string) (mark : Z) : string :=
  "reset " ++ ref_name ++ LF ++ "from :" ++ to_string mark ++ LF ++ LF.

Definition fi_filedelete (p : string) : string :=
  if String.eqb p "" then "deleteall" ++ LF else "D " ++ p ++ LF.

Definition fi_ls (p : string) : string := "ls " ++ p ++ LF.

(** [git_repository::defer_close] *)
Definition defer_close (discover_changes : bool) (g : git_repository) : bool :=
  if negb (has_submodules g) then false
  else discover_changes || negb (modified_submodule_refs g =? 0).

(** [git_repository::prepare_to_close_commit] *)
Definition prepare_to_close_commit (discover_changes : bool)
    (g : git_repository) : git_repository :=
  if defer_close discover_changes g then g
  else write (fi_ls (DQUOTE ++ DQUOTE)) g.

(** [response.back() == '\t'] *)
Definition back_is_tab (response : string) : bool :=
  String.eqb (substr_from (String.length response - 1) response) TAB.

(** [response.substr(response.size() - 41, response.size() - 1)]: the
    second argument of [substr] is a length. *)
Definition new_sha_of (response : string) : string :=
  String.substring (String.length response - 41) (String.length response - 1)
                   response.

(** [git_repository::close_commit].  [response] is the line
    [fast_import().readline()] returns; [super] is the repository
    [super_module] points to, if any.  The result carries the returned
    flag. *)
Definition close_commit (discover_changes : bool) (response : string)
    (w : option git_repository * git_repository)
  : result (bool * (option git_repository * git_repository)) :=
  let (super, g) := w in
  if defer_close discover_changes g then Ok (false, (super, g))
  else
    match current_ref g with
    | None => Abort (UndefinedBehaviour "current_ref is null")
    | Some c =>
        let* g :=
          if (String.length response <? 41)%nat then
            let g := report ("Unrecognized response " ++ DQUOTE ++ response
                             ++ DQUOTE ++ " from ls in ref "
                             ++ name (ref_at c g)) g in
            Ok (update_ref c (set_head_tree_sha "") g)
          else
            let* _ := assert (back_is_tab response) "response.back() == '\t'" in
            let new_sha := new_sha_of response in
            let* g :=
              if String.eqb new_sha (head_tree_sha (ref_at c g)) then
                let* _ := assert (2 <=? List.length (marks (ref_at c g)))%nat
                                 "current_ref->marks.size() >= 2" in
                let g := update_ref c
                           (fun r => set_marks (removelast (marks r)) r) g in
                Ok (write (fi_reset (name (ref_at c g))
                                    (snd (last (marks (ref_at c g)) (0, 0)))) g)
              else Ok g in
            Ok (update_ref c (set_head_tree_sha new_sha) g) in
        let g := set_modified_refs
                   (filter (fun p => negb (p =? c)) (modified_refs g)) g in
        let g := set_current_ref None g in
        let super :=
          option_map (fun s => set_modified_submodule_refs
                                 (modified_submodule_refs s - 1) s) super in
        Ok (match modified_refs g with [] => true | _ => false end, (super, g))
    end.

(** One turn of the loop of [git_repository::write_merges], for the
    entry [kv] of [current_ref->pending_merges]; [c] is [current_ref]. *)
Definition write_merge (c : Z) (g : git_repository) (kv : Z * Z)
  : git_repository :=
  let (src_ref, src_rev) := kv in
  let g := update_ref c
             (fun r => set_merged_revisions
                         (zm_touch 0 src_ref (merged_revisions r)) r) g in
  if src_rev >? zm_value 0 src_ref (merged_revisions (ref_at c g)) then
    match zm_floor src_rev (marks (ref_at src_ref g)) with
    | None =>
        report ("No commit found at or preceding the source of merge r"
                ++ to_string src_rev ++ " in Git repo " ++ git_dir g ++ " ref "
                ++ name (ref_at src_ref g)) g
    | Some (_, m) =>
        let g := write ("merge :" ++ to_string m ++ LF) g in
        update_ref c
          (fun r => set_merged_revisions
                      (zm_insert src_ref src_rev (merged_revisions r)) r) g
    end
  else g.

(** [git_repository::write_merges], with [current_ref] = [c] *)
Definition write_merges (c : Z) (g : git_repository) : git_repository :=
  let g := fold_left (write_merge c) (pending_merges (ref_at c g)) g in
  update_ref c (set_pending_merges []) g.

(** the deletions loop of [open_commit] *)
Definition open_deletion (c : Z) (g : git_repository) (p : string)
  : git_repository :=
  let g := write (fi_filedelete p) g in
  if has_submodules g && String.eqb p ""
  then update_ref c (set_rewrite_dot_gitmodules true) g
  else g.

(** The first half of [git_repository::open_commit], for the ref [c] it
    picked: the mark, its entry in [marks], and the commit header. *)
Definition begin_commit (rev : revision) (c : Z) (g : git_repository)
  : git_repository :=
  let g := set_current_ref (Some c) g in
  let mark := last_mark g + 1 in
  let g := set_last_mark mark g in
  let g := update_ref c
             (fun r => set_marks (zm_insert (rev_revnum rev) mark (marks r)) r)
             g in
  let g := write ("# SVN revision " ++ to_string (rev_revnum rev) ++ LF) g in
  write (fi_commit (name (ref_at c g)) mark (rev_author rev)
                   (rev_epoch rev) (rev_log_message rev)) g.

(** [git_repository::open_commit]; the ref it returns is [current_ref]
    of the resulting state. *)
Definition open_commit (rev : revision) (g : git_repository)
  : result git_repository :=
  match current_ref g with
  | Some _ => Ok g
  | None =>
      let* _ := assert (negb (Nat.eqb (List.length (modified_refs g)) 0))
                       "!modified_refs.empty()" in
      let c := last (modified_refs g) 0 in
      let g := begin_commit rev c g in
      let g := write_merges c g in
      let g := fold_left (open_deletion c) (pending_deletions (ref_at c g)) g in
      Ok (update_ref c (set_pending_deletions []) g)
  end.

(** [git_repository::record_ancestor] *)
Definition record_ancestor (descendant : Z) (src_ref_name : string) (rev : Z)
    (g : git_repository) : git_repository :=
  let (src_ref, g) := demand_ref src_ref_name g in
  let g := update_ref descendant
             (fun r => set_pending_merges
                         (zm_touch 0 src_ref (pending_merges r)) r) g in
  if zm_value 0 src_ref (pending_merges (ref_at descendant g)) <? rev
  then update_ref descendant
         (fun r => set_pending_merges
                     (zm_insert src_ref rev (pending_merges r)) r) g
  else g.

End GitRepository.

(** * Properties *)

(** ** Ordered maps *)

Section OrdMapFacts.
Context {K V : Type}.
Variable cmp : K -> K -> comparison.
Hypothesis cmp_eq : forall a b, cmp a b = Eq <-> a = b.

Lemma cmp_refl (a : K) : cmp a a = Eq.
Proof. now apply cmp_eq. Qed.

Lemma om_find_insert (k : K) (v : V) (m : list (K * V)) :
  om_find cmp k (om_insert cmp k v m) = Some v.
Proof.
  induction m as [|[k' v'] m IH]; simpl.
  - now rewrite cmp_refl.
  - destruct (cmp k k') eqn:E; simpl; rewrite ?cmp_refl, ?E; auto.
Qed.

Lemma om_find_insert_ne (k k' : K) (v : V) (m : list (K * V)) :
  k' <> k -> om_find cmp k' (om_insert cmp k v m) = om_find cmp k' m.
Proof.
  intros Hne. induction m as [|[k0 v0] m IH]; simpl.
  - destruct (cmp k' k) eqn:E; auto. apply cmp_eq in E. contradiction.
  - destruct (cmp k k0) eqn:E; simpl.
    + apply cmp_eq in E. subst k0.
      destruct (cmp k' k) eqn:E'; auto. apply cmp_eq in E'. contradiction.
    + destruct (cmp k' k) eqn:E'; auto. apply cmp_eq in E'. contradiction.
    + destruct (cmp k' k0); auto.
Qed.

Lemma om_find_In (k : K) (v : V) (m : list (K * V)) :
  om_find cmp k m = Some v -> In (k, v) m.
Proof.
  induction m as [|[k' v'] m IH]; simpl; [discriminate|].
  destruct (cmp k k') eqn:E; intros H; auto.
  apply cmp_eq in E. inversion H. subst. now left.
Qed.

Lemma om_insert_In (k : K) (v : V) (m : list (K * V)) (e : K * V) :
  In e (om_insert cmp k v m) -> e = (k, v) \/ In e m.
Proof.
  induction m as [|[k' v'] m IH]; simpl.
  - intros [H|[]]; auto.
  - destruct (cmp k k'); simpl; intros H.
    + destruct H; auto.
    + destruct H as [H|[H|H]]; auto.
    + destruct H as [H|H]; auto. apply IH in H. destruct H; auto.
Qed.

Lemma om_touch_In (d : V) (k : K) (m : list (K * V)) (e : K * V) :
  In e (om_touch cmp d k m) -> e = (k, d) \/ In e m.
Proof.
  unfold om_touch. destruct (om_find cmp k m); auto. apply om_insert_In.
Qed.

Lemma om_value_touch (d : V) (k k' : K) (m : list (K * V)) :
  om_value cmp d k' (om_touch cmp d k m) = om_value cmp d k' m.
Proof.
  unfold om_touch, om_value. destruct (om_find cmp k m) eqn:E; auto.
  destruct (cmp k' k) eqn:E'.
  - apply cmp_eq in E'. subst. now rewrite om_find_insert, E.
  - rewrite om_find_insert_ne; auto. intros ->. now rewrite cmp_refl in E'.
  - rewrite om_find_insert_ne; auto. intros ->. now rewrite cmp_refl in E'.
Qed.

Lemma om_find_remove (k : K) (m : list (K * V)) :
  om_find cmp k (om_remove cmp k m) = None.
Proof.
  induction m as [|[k' v'] m IH]; simpl; auto.
  destruct (cmp k k') eqn:E; simpl; rewrite ?E; auto.
Qed.

Lemma om_insert_not_nil (k : K) (v : V) (m : list (K * V)) :
  om_insert cmp k v m <> [].
Proof. destruct m as [|[k' v'] m]; simpl; [|destruct (cmp k k')]; discriminate. Qed.

Lemma om_contains_insert (k : K) (v : V) (m : list (K * V)) :
  om_contains cmp k (om_insert cmp k v m) = true.
Proof. unfold om_contains. now rewrite om_find_insert. Qed.
End OrdMapFacts.

Lemma string_compare_eq (a b : string) : String.compare a b = Eq <-> a = b.
Proof.
  split; [apply String.compare_eq_iff|].
  intros <-. induction a as [|c a IH]; simpl; [reflexivity|].
  unfold Ascii.compare. now rewrite N.compare_refl.
Qed.

(** ** The result monad *)

Lemma bind_Ok {A B : Type} (c : result A) (k : A -> result B) (b : B) :
  bind c k = Ok b -> exists a, c = Ok a /\ k a = Ok b.
Proof. destruct c as [a|f]; simpl; [eauto | discriminate]. Qed.

Lemma assert_Ok (b : bool) (what : string) (u : unit) :
  assert b what = Ok u -> b = true.
Proof. destruct b; [reflexivity | discriminate]. Qed.

Lemma assert_true (what : string) : assert true what = Ok tt.
Proof. reflexivity. Qed.

Ltac inv_ok :=
  repeat match goal with
    | H : bind _ _ = Ok _ |- _ =>
        let a := fresh "a" in let E := fresh "E" in
        apply bind_Ok in H; destruct H as (a & E & H)
    | H : assert _ _ = Ok _ |- _ => apply assert_Ok in H
    | H : Ok _ = Ok _ |- _ => inversion H; subst; clear H
    | H : Abort _ = Ok _ |- _ => discriminate H
    end.

Lemma foldM_app {S X : Type} (f : S -> X -> result S) (xs ys : list X) (s : S) :
  foldM f (xs ++ ys)%list s = bind (foldM f xs s) (foldM f ys).
Proof.
  revert s. induction xs as [|x xs IH]; intros s; simpl; [reflexivity|].
  destruct (f s x); simpl; auto.
Qed.

(** An invariant of every step is an invariant of the loop. *)
Lemma foldM_invariant {S X : Type} (P : S -> Prop) (f : S -> X -> result S) :
  (forall s x s', P s -> f s x = Ok s' -> P s') ->
  forall xs s s', P s -> foldM f xs s = Ok s' -> P s'.
Proof.
  intros Hf xs. induction xs as [|x xs IH]; intros s s' Hs H; simpl in H.
  - inv_ok. exact Hs.
  - inv_ok. eauto.
Qed.

(** ** [Repository]: what each operation leaves alone *)

Module RepositoryFacts.
Import Repository.

Lemma write_all_eq (chunks : list string) (r : Repository) :
  write_all chunks r =
  mkRepository (name r) (prefix r) (submodule_path r) (branches r)
    (transactions r) (deletedBranches r) (resetBranches r) (commitCount r)
    (last_commit_mark r) (next_file_mark r) (processHasStarted r)
    (incremental r) (fastImport_running r) (fastImport r ++ chunks)%list
    (warnings r).
Proof.
  revert r. induction chunks as [|c cs IH]; intros r; simpl.
  - rewrite app_nil_r. now destruct r.
  - unfold write_all in *. simpl. rewrite IH. simpl.
    now rewrite <- app_assoc.
Qed.

(** [same_core r r']: [r'] is [r] but for the fast-import process, the
    stream written to it and the log of warnings. *)
Definition same_core (r r' : Repository) : Prop :=
  name r' = name r /\ prefix r' = prefix r
  /\ submodule_path r' = submodule_path r /\ branches r' = branches r
  /\ transactions r' = transactions r
  /\ deletedBranches r' = deletedBranches r
  /\ resetBranches r' = resetBranches r /\ commitCount r' = commitCount r
  /\ last_commit_mark r' = last_commit_mark r
  /\ next_file_mark r' = next_file_mark r /\ incremental r' = incremental r.

Lemma same_core_refl (r : Repository) : same_core r r.
Proof. unfold same_core. intuition. Qed.

Lemma same_core_trans (r1 r2 r3 : Repository) :
  same_core r1 r2 -> same_core r2 r3 -> same_core r1 r3.
Proof. unfold same_core. intuition congruence. Qed.

Lemma same_core_write (s : string) (r : Repository) : same_core r (write s r).
Proof. unfold same_core. simpl. intuition. Qed.

Lemma same_core_warn (s : string) (r : Repository) : same_core r (warn s r).
Proof. unfold same_core. simpl. intuition. Qed.

Lemma same_core_write_all (cs : list string) (r : Repository) :
  same_core r (write_all cs r).
Proof. rewrite write_all_eq. unfold same_core. simpl. intuition. Qed.

Lemma same_core_set_started (v : bool) (r : Repository) :
  same_core r (set_started v r).
Proof. unfold same_core. simpl. intuition. Qed.

#[local] Hint Resolve same_core_refl same_core_write same_core_warn
  same_core_write_all same_core_set_started : core.

Section WithOptions.
Variable options : Options.

Lemma branch_at_same_core (k : string) (r r' : Repository) :
  same_core r r' -> branch_at k r' = branch_at k r.
Proof. intros H. unfold branch_at. now replace (branches r') with (branches r) by (symmetry; apply H). Qed.

Lemma reloadBranches_step_core (b b' : bool) (r r' : Repository) (k : string) :
  reloadBranches_step (b, r) k = Ok (b', r') -> same_core r r'.
Proof.
  unfold reloadBranches_step. intros H. inv_ok.
  destruct (marks (branch_at k r)); inv_ok; auto.
  destruct (last _ _ =? 0); inv_ok; auto.
Qed.

Lemma reloadBranches_core (r r' : Repository) :
  reloadBranches options r = Ok r' -> same_core r r'.
Proof.
  unfold reloadBranches. intros H. inv_ok. destruct a as [b r1].
  assert (Hc : same_core r r1).
  { change r1 with (snd (b, r1)).
    eapply (foldM_invariant (fun st => same_core r (snd st)));
      [| |exact E]; [|apply same_core_refl].
    intros [b0 s0] x [b1 s1] Hs Hx. cbn [snd] in *.
    eapply same_core_trans; [exact Hs|]. eapply reloadBranches_step_core; eauto. }
  destruct (b && add_metadata_notes options); inv_ok;
    [eapply same_core_trans; eauto | exact Hc].
Qed.

Lemma startFastImport_core (r r' : Repository) :
  startFastImport options r = Ok r' -> same_core r r'.
Proof.
  unfold startFastImport. intros H.
  destruct (fastImport_running r); simpl in H; inv_ok; auto.
  destruct (processHasStarted r); inv_ok.
  apply reloadBranches_core in H.
  eapply same_core_trans; [apply same_core_set_started | exact H].
Qed.

(** *** The lockstep invariant and the mark counters under simple updates *)

Lemma lockstep_branch_at (k : string) (r : Repository) :
  lockstep r -> lockstep_branch (branch_at k r).
Proof.
  unfold lockstep, branch_at, om_value. intros H.
  destruct (sm_find k (branches r)) as [b|] eqn:E; [|reflexivity].
  apply (om_find_In _ string_compare_eq) in E.
  rewrite Forall_forall in H. exact (H _ E).
Qed.

Lemma lockstep_insert (k : string) (b : Branch) (r : Repository) :
  lockstep r -> lockstep_branch b ->
  lockstep (set_branches (sm_insert k b (branches r)) r).
Proof.
  unfold lockstep. simpl. rewrite !Forall_forall. intros H Hb e He.
  apply om_insert_In in He. destruct He as [->|He]; auto.
Qed.

Lemma lockstep_touch (k : string) (r : Repository) :
  lockstep r -> lockstep (touch_branch k r).
Proof.
  unfold lockstep, touch_branch. simpl. rewrite !Forall_forall. intros H e He.
  apply om_touch_In in He. destruct He as [->|He]; auto. reflexivity.
Qed.

Lemma lockstep_update (k : string) (f : Branch -> Branch) (r : Repository) :
  (forall b, lockstep_branch b -> lockstep_branch (f b)) ->
  lockstep r -> lockstep (update_branch k f r).
Proof.
  intros Hf H. unfold update_branch. apply lockstep_insert; auto.
  apply Hf, lockstep_branch_at, H.
Qed.

Lemma lockstep_append (rev mark v : Z) (b : Branch) :
  lockstep_branch b ->
  lockstep_branch (append_commit rev mark (set_lastChangeRev v b)).
Proof.
  unfold lockstep_branch. simpl. rewrite !length_app. simpl. lia.
Qed.

(** [mild r r']: the step from [r] to [r'] takes no commit mark, takes file
    marks only downwards and without meeting the commit marks, and keeps
    the vectors of every branch in lockstep. *)
Definition mild (r r' : Repository) : Prop :=
  last_commit_mark r' = last_commit_mark r
  /\ next_file_mark r' <= next_file_mark r
  /\ (last_commit_mark r < next_file_mark r ->
      last_commit_mark r' < next_file_mark r')
  /\ (lockstep r -> lockstep r').

Lemma mild_refl (r : Repository) : mild r r.
Proof. unfold mild. intuition lia. Qed.

Lemma mild_trans (r1 r2 r3 : Repository) : mild r1 r2 -> mild r2 r3 -> mild r1 r3.
Proof. unfold mild. intros (A1 & B1 & C1 & D1) (A2 & B2 & C2 & D2). intuition lia. Qed.

Lemma same_core_mild (r r' : Repository) : same_core r r' -> mild r r'.
Proof.
  intros H. unfold mild, lockstep.
  destruct H as (_ & _ & _ & Hb & _ & _ & _ & _ & Hl & Hn & _).
  rewrite Hb, Hl, Hn. intuition lia.
Qed.

Lemma mild_touch (k : string) (r : Repository) : mild r (touch_branch k r).
Proof. unfold mild. simpl. split; [|split; [|split]]; auto using lockstep_touch; lia. Qed.

Lemma mild_update (k : string) (f : Branch -> Branch) (r : Repository) :
  (forall b, lockstep_branch b -> lockstep_branch (f b)) ->
  mild r (update_branch k f r).
Proof.
  intros Hf. unfold mild. simpl.
  split; [|split; [|split]]; auto using lockstep_update; lia.
Qed.

Lemma mild_store_txn (k : string) (t : Transaction) (r : Repository) :
  mild r (store_txn k t r).
Proof. unfold mild, lockstep. simpl. intuition lia. Qed.

Lemma mild_set_commitCount (v : Z) (r : Repository) : mild r (set_commitCount v r).
Proof. unfold mild, lockstep. simpl. intuition lia. Qed.

Lemma mild_set_resetBranches v (r : Repository) : mild r (set_resetBranches v r).
Proof. unfold mild, lockstep. simpl. intuition lia. Qed.

Lemma mild_set_deletedBranches v (r : Repository) : mild r (set_deletedBranches v r).
Proof. unfold mild, lockstep. simpl. intuition lia. Qed.

Lemma mild_write (s : string) (r : Repository) : mild r (write s r).
Proof. apply same_core_mild. auto. Qed.

Lemma mild_warn (s : string) (r : Repository) : mild r (warn s r).
Proof. apply same_core_mild. auto. Qed.

Lemma mild_write_all (cs : list string) (r : Repository) : mild r (write_all cs r).
Proof. apply same_core_mild. auto. Qed.

#[local] Hint Resolve mild_refl mild_touch mild_store_txn mild_set_commitCount
  mild_set_resetBranches mild_set_deletedBranches mild_write mild_warn
  mild_write_all : core.

Ltac mild_chain :=
  repeat first
    [ apply mild_refl
    | apply mild_write | apply mild_warn | apply mild_write_all
    | apply mild_touch | apply mild_store_txn | apply mild_set_commitCount
    | apply mild_set_resetBranches | apply mild_set_deletedBranches
    | eapply mild_trans; [|first
        [ apply mild_write | apply mild_warn | apply mild_write_all
        | apply mild_touch | apply mild_store_txn | apply mild_set_commitCount
        | apply mild_set_resetBranches | apply mild_set_deletedBranches ] ] ].

Lemma startFastImport_mild (r r' : Repository) :
  startFastImport options r = Ok r' -> mild r r'.
Proof. intros H. apply same_core_mild. eapply startFastImport_core; eauto. Qed.

Lemma markFrom_mild branchFrom n desc (r : Repository) res :
  markFrom branchFrom n desc r = Ok res -> mild r (snd res).
Proof.
  unfold markFrom. intros H. inv_ok.
  destruct (lastChangeRev _ =? neverChanged); inv_ok; simpl; auto.
  destruct (commits _); inv_ok; simpl; auto.
  destruct (n =? _); inv_ok; simpl; auto.
  destruct (qUpperBound _ _); inv_ok; simpl; auto.
  eapply mild_trans; [apply mild_touch | apply mild_warn].
Qed.

Lemma demandTransaction_mild branch_ svnprefix_ rev (r r' : Repository) :
  demandTransaction options branch_ svnprefix_ rev r = Ok r' -> mild r r'.
Proof.
  unfold demandTransaction. intros H.
  destruct (sm_find branch_ (transactions r)); inv_ok; auto.
  destruct (commit_interval options =? 0); inv_ok.
  match type of H with
  | (if ?c then _ else _) = _ => destruct c; inv_ok
  end.
  - apply startFastImport_mild in E0.
    eapply mild_trans; [|apply mild_write].
    eapply mild_trans; [|exact E0]. mild_chain.
  - mild_chain.
Qed.

Lemma noteCopyFromBranch_mild branchFrom n t (r : Repository) t' r' :
  noteCopyFromBranch branchFrom n t r = Ok (t', r') -> mild r r'.
Proof.
  unfold noteCopyFromBranch. intros H. inv_ok.
  destruct (String.eqb (branch t) branchFrom); inv_ok; auto.
  destruct a0 as [[mark dummy] r1]. apply markFrom_mild in E0. simpl in E0.
  inv_ok.
  destruct (mark =? -1); inv_ok; [eapply mild_trans; eauto|].
  destruct (mark =? 0); inv_ok; [eapply mild_trans; eauto|].
  destruct (existsb _ _); inv_ok; auto.
Qed.

(** [Transaction::addFile] takes the file mark [next_file_mark], checked
    against the commit marks before it is used. *)
Lemma addFile_marks path mode len t (r : Repository) t' r' :
  addFile options path mode len t r = Ok (t', r') ->
  last_commit_mark r' = last_commit_mark r
  /\ next_file_mark r' = next_file_mark r - 1
  /\ last_commit_mark r + 1 < next_file_mark r
  /\ (lockstep r -> lockstep r')
  /\ modifiedFiles t' =
     (modifiedFiles t ++ "M " ++ to_oct mode ++ " :"
      ++ to_string (next_file_mark r) ++ " " ++ (prefix r ++ path) ++ LF)%string.
Proof.
  unfold addFile. intros H. inv_ok. simpl in E. apply Z.gtb_lt in E.
  assert (Hm : forall r2, mild (set_next_file_mark (next_file_mark r - 1) r) r2 ->
               last_commit_mark r2 = last_commit_mark r
               /\ next_file_mark r2 <= next_file_mark r - 1
               /\ (lockstep r -> lockstep r2)).
  { intros r2 (A & B & _ & D). simpl in *. unfold lockstep in *. simpl in *. auto. }
  destruct (negb (dry_run options)); inv_ok; simpl.
  - apply startFastImport_core in E1.
    destruct E1 as (_ & _ & _ & Hb & _ & _ & _ & _ & Hl & Hn & _).
    simpl in *. unfold lockstep. simpl. rewrite Hb, Hl, Hn. intuition lia.
  - unfold lockstep. simpl. intuition lia.
Qed.

Lemma addFile_mild path mode len t (r : Repository) t' r' :
  addFile options path mode len t r = Ok (t', r') -> mild r r'.
Proof.
  intros H. apply addFile_marks in H. unfold mild. intuition lia.
Qed.

Lemma lockstep_set_note (v : string) (b : Branch) :
  lockstep_branch b -> lockstep_branch (set_note v b).
Proof. auto. Qed.

Lemma mild_setBranchNote b v (r : Repository) : mild r (setBranchNote b v r).
Proof.
  unfold setBranchNote. destruct (sm_contains b (branches r)); auto.
  apply mild_update. auto using lockstep_set_note.
Qed.

Lemma commitNote_mild noteText append commit_ t (r r' : Repository) :
  commitNote noteText append commit_ t r = Ok r' -> mild r r'.
Proof.
  unfold commitNote. intros H. inv_ok.
  destruct (String.eqb commit_ ""); inv_ok; auto.
  eapply mild_trans; [apply mild_write | apply mild_setBranchNote].
Qed.

Lemma submoduleChanged_mild child rule mark rev (r r' : Repository) :
  submoduleChanged options child rule mark rev r = Ok r' -> mild r r'.
Proof.
  unfold submoduleChanged. intros H.
  match type of H with
  | (if ?c then _ else _) = _ => destruct c; inv_ok; auto
  end.
  apply demandTransaction_mild in E.
  eapply mild_trans; [|apply mild_update; auto].
  eapply mild_trans; [|apply mild_store_txn].
  eapply mild_trans; [|exact E].
  eapply mild_trans; [apply mild_touch|].
  destruct (mark =? 0); apply mild_update; auto.
Qed.

Lemma update_dot_gitmodules_mild branch_name b rev (r r' : Repository) :
  update_dot_gitmodules options branch_name b rev r = Ok r' -> mild r r'.
Proof.
  unfold update_dot_gitmodules. intros H. inv_ok.
  destruct a0 as [t1 r1]. apply demandTransaction_mild in E.
  apply addFile_mild in E0.
  eapply mild_trans; [exact E|]. eapply mild_trans; [exact E0|].
  destruct (negb (dry_run options)); inv_ok; mild_chain.
Qed.

Lemma prepare_commit_mild rev (r r' : Repository) :
  prepare_commit options rev r = Ok r' -> mild r r'.
Proof.
  unfold prepare_commit. intros H.
  assert (Hloop : forall ks r0 r1,
             foldM (prepare_commit_step options rev) ks r0 = Ok r1 -> mild r0 r1).
  { intros ks r0 r1 Hf.
    eapply (foldM_invariant (fun s => mild r0 s)); [| |exact Hf]; [|apply mild_refl].
    intros s x s' Hs Hx. eapply mild_trans; [exact Hs|].
    unfold prepare_commit_step in Hx.
    destruct (_ =? rev); inv_ok; auto.
    eapply update_dot_gitmodules_mild; eauto. }
  destruct (deletedBranches r), (resetBranches r); inv_ok; auto;
    apply Hloop in E; apply startFastImport_mild in E0;
    (eapply mild_trans; [exact E|]); (eapply mild_trans; [exact E0|]);
    mild_chain.
Qed.

Lemma resetBranch_mild rule gitRefName rev mark resetTo comment super
    (r : Repository) w' :
  resetBranch options rule gitRefName rev mark resetTo comment (super, r) = Ok w' ->
  mild r (snd w').
Proof.
  unfold resetBranch. intros H. inv_ok. simpl.
  eapply mild_trans; [apply (mild_touch gitRefName)|].
  eapply mild_trans;
    [apply (mild_update gitRefName
              (fun b => append_commit rev mark (set_lastChangeRev rev b)));
     intros; apply lockstep_append; auto|].
  repeat match goal with
         | |- context [if ?c then _ else _] => destruct c
         end; auto.
Qed.

(** What [resetBranch] does to its super-repository is [submoduleChanged]. *)
Lemma resetBranch_super rule gitRefName rev mark resetTo comment
    (s r : Repository) w' :
  resetBranch options rule gitRefName rev mark resetTo comment (Some s, r) = Ok w' ->
  exists s', fst w' = Some s'
             /\ submoduleChanged options r rule mark rev s = Ok s'.
Proof.
  unfold resetBranch. intros H. inv_ok. simpl. eauto.
Qed.

Lemma createBranch_mild rule rev branchFrom n super (r : Repository) w' :
  createBranch options rule rev branchFrom n (super, r) = Ok w' ->
  mild r (snd w').
Proof.
  unfold createBranch. intros H. inv_ok.
  destruct a1 as [[mark desc] r1]. apply markFrom_mild in E1. simpl in E1.
  destruct (mark =? -1); inv_ok.
  apply resetBranch_mild in H.
  eapply mild_trans; [exact E1|]. eapply mild_trans; [|exact H].
  eapply mild_trans; [|apply mild_update; auto using lockstep_set_note].
  destruct (mark =? 0); auto.
Qed.

Lemma deleteBranch_mild rule rev super (r : Repository) w' :
  deleteBranch options rule rev (super, r) = Ok w' -> mild r (snd w').
Proof.
  unfold deleteBranch. intros H. inv_ok.
  destruct (String.eqb _ _); inv_ok; simpl; auto.
  eapply resetBranch_mild; eauto.
Qed.

(** *** Reading branches back *)

Lemma branch_at_touch (k k' : string) (r : Repository) :
  branch_at k' (touch_branch k r) = branch_at k' r.
Proof. unfold branch_at, touch_branch. simpl. apply om_value_touch, string_compare_eq. Qed.

Lemma branch_at_update (k : string) (f : Branch -> Branch) (r : Repository) :
  branch_at k (update_branch k f r) = f (branch_at k r).
Proof.
  unfold branch_at at 1. unfold update_branch, om_value. simpl.
  now rewrite (om_find_insert _ string_compare_eq).
Qed.

Lemma branch_at_update_ne (k k' : string) (f : Branch -> Branch) (r : Repository) :
  k' <> k -> branch_at k' (update_branch k f r) = branch_at k' r.
Proof.
  intros Hne. unfold branch_at, update_branch, om_value. simpl.
  now rewrite (om_find_insert_ne _ string_compare_eq).
Qed.

Lemma branch_at_setBranchNote_marks (k b v : string) (r : Repository) :
  marks (branch_at k (setBranchNote b v r)) = marks (branch_at k r)
  /\ commits (branch_at k (setBranchNote b v r)) = commits (branch_at k r).
Proof.
  unfold setBranchNote. destruct (sm_contains b (branches r)); auto.
  destruct (String.eqb_spec k b) as [->|Hne].
  - now rewrite branch_at_update.
  - now rewrite branch_at_update_ne.
Qed.

Lemma commit_merges_core pm ms i desc (r : Repository) :
  same_core r (snd (commit_merges pm ms (i, desc, r))).
Proof.
  revert i desc r. induction ms as [|m ms IH]; intros i desc r; simpl; auto.
  destruct (m =? pm); [apply IH|].
  destruct (i + 1 >? 16); simpl; auto.
  eapply same_core_trans; [|apply IH]. auto.
Qed.

Lemma commit_parents_core t pm (r : Repository) :
  same_core r (snd (commit_parents t pm r)).
Proof.
  unfold commit_parents. destruct (is_cvs2svn_commit t); simpl; auto.
  pose proof (commit_merges_core pm (merges t) (if pm =? 0 then 0 else 1) "" r) as H.
  destruct (commit_merges _ _ _) as [[i d] r1]. exact H.
Qed.

Lemma commitNote_vectors noteText append commit_ t (r r' : Repository) :
  commitNote noteText append commit_ t r = Ok r' ->
  last_commit_mark r' = last_commit_mark r
  /\ next_file_mark r' = next_file_mark r
  /\ (forall k, marks (branch_at k r') = marks (branch_at k r)
                /\ commits (branch_at k r') = commits (branch_at k r))
  /\ (lockstep r -> lockstep r').
Proof.
  unfold commitNote. intros H. inv_ok.
  destruct (String.eqb commit_ ""); inv_ok.
  - match goal with
    | |- context [setBranchNote ?b ?v ?x] =>
        pose proof (mild_setBranchNote b v x) as (M1 & M2 & _ & M4);
        pose proof (fun k => branch_at_setBranchNote_marks k b v x) as M5
    end.
    simpl in M1. unfold lockstep in M4 at 1. simpl in M4.
    repeat split; auto; try apply M5.
    unfold setBranchNote. destruct (sm_contains _ _); reflexivity.
  - simpl. unfold lockstep. simpl. repeat split; auto.
Qed.

Lemma prefix_append (p s : string) : String.prefix p (p ++ s) = true.
Proof.
  induction p as [|c p IH]; simpl; [now destruct s|].
  destruct (ascii_dec c c); [exact IH | congruence].
Qed.

(** [commitNote] writes one chunk, a commit on the notes ref. *)
Lemma commitNote_stream noteText append commit_ t (r r' : Repository) :
  commitNote noteText append commit_ t r = Ok r' ->
  warnings r' = warnings r
  /\ exists s, fastImport r' = (fastImport r ++ [s])%list
               /\ starts_with s "commit refs/notes/commits" = true.
Proof.
  unfold commitNote. intros H. inv_ok.
  match type of H with
  | (if _ then Ok (setBranchNote ?b ?v (write ?s r)) else _) = _ =>
      assert (Hs : starts_with s "commit refs/notes/commits" = true)
        by apply prefix_append;
      remember s as chunk eqn:Hchunk; clear Hchunk
  end.
  destruct (String.eqb commit_ ""); inv_ok.
  - unfold setBranchNote. destruct (sm_contains _ _); simpl; eauto.
  - simpl. eauto.
Qed.

(** [Transaction::commit] takes the commit mark [++last_commit_mark],
    checked against the file marks, and records it for its branch. *)
Lemma Transaction_commit_marks t (r : Repository) t' r' :
  Transaction_commit options t r = Ok (t', r') ->
  last_commit_mark r' = last_commit_mark r + 1
  /\ next_file_mark r' = next_file_mark r
  /\ last_commit_mark r' + 1 < next_file_mark r'
  /\ marks (branch_at (branch t) r')
     = (marks (branch_at (branch t) r) ++ [last_commit_mark r + 1])%list
  /\ commits (branch_at (branch t) r')
     = (commits (branch_at (branch t) r) ++ [revnum t])%list
  /\ (lockstep r -> lockstep r').
Proof.
  unfold Transaction_commit. intros H. inv_ok.
  rename a into r0. rename E into Hstart. simpl in E0. apply Z.ltb_lt in E0.
  pose proof (startFastImport_core _ _ Hstart) as Hc0.
  assert (Hn0 : next_file_mark r0 = next_file_mark r) by apply Hc0.
  assert (Hl0 : last_commit_mark r0 = last_commit_mark r) by apply Hc0.
  assert (Hb0 : branches r0 = branches r) by apply Hc0.
  set (mark := last_commit_mark r0 + 1) in *.
  set (r1 := touch_branch (branch t) (set_last_commit_mark mark r0)) in *.
  set (r2 := if negb (Branch_exists (branch_at (branch t) r1)) && incremental r1
             then warn _ r1 else r1) in *.
  assert (Hc2 : same_core r1 r2) by (subst r2; destruct (_ && _); auto).
  set (r3 := update_branch (branch t)
               (fun b => append_commit (revnum t) mark
                           (set_lastChangeRev (revnum t) b)) r2) in *.
  set (r4 := write (commit_header options t mark) r3) in *.
  pose proof (commit_parents_core t a1 r4) as Hc4.
  destruct (commit_parents t a1 r4) as [[t1 desc] r5]. simpl in Hc4.
  set (r6 := write (commit_progress t1 mark desc)
               (write (modifiedFiles t1) (write_all (commit_deletions t1) r5))) in *.
  assert (Hc6 : same_core r3 r6).
  { eapply same_core_trans; [apply (same_core_write (commit_header options t mark))|].
    eapply same_core_trans; [exact Hc4|]. subst r6.
    eapply same_core_trans; [apply same_core_write_all|].
    eapply same_core_trans; apply same_core_write. }
  assert (Hb3 : branch_at (branch t) r3
                = append_commit (revnum t) mark
                    (set_lastChangeRev (revnum t) (branch_at (branch t) r))).
  { subst r3. rewrite branch_at_update. f_equal. f_equal.
    rewrite (branch_at_same_core _ _ _ Hc2). subst r1.
    rewrite branch_at_touch. unfold branch_at. simpl. now rewrite Hb0. }
  assert (Hl3 : lockstep r -> lockstep r3).
  { intros Hl. subst r3. apply lockstep_update; [intros; now apply lockstep_append|].
    unfold lockstep. replace (branches r2) with (branches r1) by (symmetry; apply Hc2).
    subst r1. apply lockstep_touch. unfold lockstep. simpl.
    rewrite Hb0. exact Hl. }
  assert (Hfin : last_commit_mark r6 = last_commit_mark r + 1
                 /\ next_file_mark r6 = next_file_mark r
                 /\ branch_at (branch t) r6 = branch_at (branch t) r3
                 /\ (lockstep r -> lockstep r6)).
  { destruct Hc6 as (_ & _ & _ & Hb6 & _ & _ & _ & _ & Hl6 & Hn6 & _).
    destruct Hc2 as (_ & _ & _ & _ & _ & _ & _ & _ & Hl2 & Hn2 & _).
    rewrite Hl6, Hn6. subst r3. simpl. rewrite Hl2, Hn2. subst r1 mark. simpl.
    repeat split; try congruence.
    - unfold branch_at. now rewrite Hb6.
    - intros Hl. unfold lockstep. rewrite Hb6. now apply Hl3. }
  destruct Hfin as (F1 & F2 & F3 & F4).
  assert (Hgoal : last_commit_mark r6 = last_commit_mark r + 1
    /\ next_file_mark r6 = next_file_mark r
    /\ last_commit_mark r6 + 1 < next_file_mark r6
    /\ marks (branch_at (branch t) r6)
       = (marks (branch_at (branch t) r) ++ [last_commit_mark r + 1])%list
    /\ commits (branch_at (branch t) r6)
       = (commits (branch_at (branch t) r) ++ [revnum t])%list
    /\ (lockstep r -> lockstep r6)).
  { rewrite F1, F2, F3, Hb3. simpl. subst mark. simpl in E0. rewrite Hl0.
    repeat split; auto; lia. }
  destruct (add_metadata_notes options); inv_ok; [|exact Hgoal].
  match goal with
  | Hn : commitNote _ _ _ _ _ = Ok _ |- _ =>
      apply commitNote_vectors in Hn; destruct Hn as (N1 & N2 & N3 & N4)
  end.
  destruct (N3 (branch t)) as [N5 N6].
  rewrite N1, N2, N5, N6. intuition.
Qed.

(** *** Mark allocation *)

Lemma marks_upto_succ (n : Z) :
  0 <= n -> marks_upto (n + 1) = (marks_upto n ++ [n + 1])%list.
Proof.
  intros Hn. unfold marks_upto.
  replace (Z.to_nat (n + 1)) with (S (Z.to_nat n)) by lia.
  rewrite seq_S, map_app. simpl. f_equal. f_equal. lia.
Qed.

Lemma marks_upto_NoDup (n : Z) : NoDup (marks_upto n).
Proof.
  unfold marks_upto. apply Injective_map_NoDup; [|apply seq_NoDup].
  intros a b H. lia.
Qed.

Lemma create_counters n p bs i :
  last_commit_mark (create n p bs i) = 0
  /\ next_file_mark (create n p bs i) = maxMark.
Proof.
  unfold create. simpl.
  set (r0 := mkRepository n "" p [] [] [] [] 0 0 maxMark false i false [] []).
  assert (H : forall l r, last_commit_mark
                (fold_left (fun r b => update_branch b (set_lastChangeRev neverChanged) r) l r)
              = last_commit_mark r
              /\ next_file_mark
                (fold_left (fun r b => update_branch b (set_lastChangeRev neverChanged) r) l r)
              = next_file_mark r).
  { induction l as [|b l IH]; intros r; simpl; auto.
    destruct (IH (update_branch b (set_lastChangeRev neverChanged) r)) as [A B].
    now rewrite A, B. }
  apply (H bs r0).
Qed.

(** every step but a commit and the end of a revision is [mild] *)
Lemma step_cases (r : Repository) (ms : list Z) (r' : Repository) :
  step options r ms r' ->
  (ms = [] /\ mild r r')
  \/ (ms = [last_commit_mark r + 1]
      /\ last_commit_mark r' = last_commit_mark r + 1
      /\ next_file_mark r' = next_file_mark r
      /\ last_commit_mark r' + 1 < next_file_mark r'
      /\ (lockstep r -> lockstep r'))
  \/ (ms = [] /\ r' = end_of_revision r).
Proof.
  intros H. destruct H.
  - left. split; auto. eapply startFastImport_mild; eauto.
  - left. split; auto. eapply markFrom_mild; eauto.
  - left. split; auto. eapply createBranch_mild; eauto.
  - left. split; auto. eapply deleteBranch_mild; eauto.
  - left. split; auto. eapply resetBranch_mild; eauto.
  - left. split; auto. eapply submoduleChanged_mild; eauto.
  - left. split; auto. eapply prepare_commit_mild; eauto.
  - left. split; auto. eapply demandTransaction_mild; eauto.
  - left. split; auto. eapply mild_trans; [eapply noteCopyFromBranch_mild; eauto|auto].
  - left. split; auto.
  - left. split; auto. eapply mild_trans; [eapply addFile_mild; eauto|auto].
  - left. split; auto. eapply commitNote_mild; eauto.
  - right. left.
    match goal with
    | Hc : Transaction_commit _ _ _ = Ok _ |- _ =>
        apply Transaction_commit_marks in Hc;
        destruct Hc as (A & B & C & D & _ & F)
    end.
    rewrite D, last_last. auto.
  - right. right. auto.
Qed.

(** [l0 + 1, ..., l]: the commit marks between two values of
    [last_commit_mark] *)
Definition marks_between (l0 l : Z) : list Z :=
  map (fun i => l0 + Z.of_nat i) (seq 1 (Z.to_nat (l - l0))).

Lemma marks_between_zero (l : Z) : marks_between 0 l = marks_upto l.
Proof.
  unfold marks_between, marks_upto. rewrite Z.sub_0_r. apply map_ext.
  intros i. lia.
Qed.

Lemma marks_between_succ (l0 l : Z) :
  l0 <= l -> marks_between l0 (l + 1) = (marks_between l0 l ++ [l + 1])%list.
Proof.
  intros Hl. unfold marks_between.
  replace (Z.to_nat (l + 1 - l0)) with (S (Z.to_nat (l - l0))) by lia.
  rewrite seq_S, map_app. simpl. f_equal. f_equal. lia.
Qed.

Lemma marks_between_NoDup (l0 l : Z) : NoDup (marks_between l0 l).
Proof.
  unfold marks_between. apply Injective_map_NoDup; [|apply seq_NoDup].
  intros a b H. lia.
Qed.

Lemma marks_between_In (l0 l m : Z) :
  In m (marks_between l0 l) <-> l0 < m <= l.
Proof.
  unfold marks_between. rewrite in_map_iff. split.
  - intros (i & <- & Hi). apply in_seq in Hi. lia.
  - intros Hm. exists (Z.to_nat (m - l0)). split; [lia|].
    apply in_seq. lia.
Qed.

(** The invariant of a run that started at [r0]: the marks recorded so far
    are those above the [last_commit_mark] of [r0] up to the present one,
    and the two counters, apart at the start, have not met. *)
Definition counters_ok (r0 r : Repository) (ms : list Z) : Prop :=
  ms = marks_between (last_commit_mark r0) (last_commit_mark r)
  /\ last_commit_mark r0 <= last_commit_mark r
  /\ (last_commit_mark r0 < next_file_mark r0 -> next_file_mark r0 <= maxMark ->
      last_commit_mark r < next_file_mark r /\ next_file_mark r <= maxMark).

Lemma counters_ok_start (r0 : Repository) : counters_ok r0 r0 [].
Proof.
  unfold counters_ok, marks_between. rewrite Z.sub_diag. cbn.
  repeat split; auto; lia.
Qed.

Lemma counters_ok_step (r0 r : Repository) (ms ms' : list Z) (r' : Repository) :
  counters_ok r0 r ms -> step options r ms' r' ->
  counters_ok r0 r' (ms ++ ms')%list.
Proof.
  intros (A & B & C) Hs. apply step_cases in Hs.
  destruct Hs as [(-> & M1 & M2 & M3 & _) | [(-> & L & N & G & _) | (-> & ->)]].
  - rewrite app_nil_r. unfold counters_ok.
    split; [rewrite M1; exact A|]. split; [rewrite M1; exact B|].
    intros H1 H2. destruct (C H1 H2) as [C1 C2].
    split; [exact (M3 C1) | lia].
  - unfold counters_ok. rewrite L, marks_between_succ, A by lia.
    split; [reflexivity|]. split; [lia|]. intros H1 H2.
    destruct (C H1 H2). lia.
  - rewrite app_nil_r. unfold counters_ok, end_of_revision. simpl.
    split; [exact A|]. split; [exact B|]. intros H1 H2.
    destruct (C H1 H2). lia.
Qed.

Lemma counters_ok_run (r0 : Repository) (ms : list Z) (r : Repository) :
  run options r0 ms r -> counters_ok r0 r ms.
Proof.
  intros Hr. induction Hr.
  - apply counters_ok_start.
  - eapply counters_ok_step; eauto.
Qed.

Lemma run_trans (r0 : Repository) ms1 r1 ms2 r2 :
  run options r0 ms1 r1 -> run options r1 ms2 r2 ->
  run options r0 (ms1 ++ ms2)%list r2.
Proof.
  intros H1 H2. induction H2.
  - now rewrite app_nil_r.
  - rewrite app_assoc. eapply run_step; eauto.
Qed.

(** [Repository::commit] is a run: a [Transaction::commit] for each open
    transaction, then the end of the revision. *)
Lemma commit_is_run author_ epoch log_ (r r' : Repository) :
  commit options author_ epoch log_ r = Ok r' ->
  exists ms, run options r ms r' /\ List.length ms = List.length (transactions r).
Proof.
  unfold commit. intros H. inv_ok.
  assert (Hloop : forall ts r1 r2,
             foldM (commit_step options author_ epoch log_) ts r1 = Ok r2 ->
             exists ms, run options r1 ms r2 /\ List.length ms = List.length ts).
  { induction ts as [|kt ts IH]; intros r1 r2 Hf; simpl in Hf; inv_ok.
    - exists []. split; [constructor | reflexivity].
    - unfold commit_step in E0. inv_ok. destruct a1 as [t1 r3]. simpl in Hf.
      destruct (IH _ _ Hf) as (ms & Hr & Hlen).
      eexists. split.
      + eapply (run_trans r1 [_] r3).
        * apply (run_step _ r1 [] r1 _ r3); [constructor|].
          eapply step_Transaction_commit; eauto.
        * exact Hr.
      + simpl. now rewrite Hlen. }
  destruct (Hloop _ _ _ E) as (ms & Hr & Hlen).
  exists (ms ++ [])%list. split.
  - eapply run_step; [exact Hr|]. apply step_end_of_revision.
  - now rewrite app_nil_r.
Qed.

Lemma Transaction_commit_exhausted t (r r0 : Repository) :
  startFastImport options r = Ok r0 ->
  ~ (last_commit_mark r + 1 + 1 < next_file_mark r) ->
  Transaction_commit options t r
  = Abort (AssertionFailed "mark < repository->next_file_mark - 1").
Proof.
  intros Hs Hn. unfold Transaction_commit. rewrite Hs. simpl.
  apply startFastImport_core in Hs.
  destruct Hs as (_ & _ & _ & _ & _ & _ & _ & _ & Hl & Hf & _).
  rewrite Hl, Hf.
  destruct (last_commit_mark r + 1 <? next_file_mark r - 1) eqn:E; [|reflexivity].
  apply Z.ltb_lt in E. lia.
Qed.

Lemma addFile_exhausted path mode len t (r : Repository) :
  ~ (last_commit_mark r + 1 < next_file_mark r) ->
  addFile options path mode len t r
  = Abort (AssertionFailed "mark > repository->last_commit_mark + 1").
Proof.
  intros Hn. unfold addFile. simpl.
  destruct (next_file_mark r >? last_commit_mark r + 1) eqn:E; [|reflexivity].
  apply Z.gtb_lt in E. lia.
Qed.

(** *** Commits and marks in lockstep *)

Lemma create_lockstep n p bs i : lockstep (create n p bs i).
Proof.
  unfold create.
  set (r0 := mkRepository n "" p [] [] [] [] 0 0 maxMark false i false [] []).
  assert (H0 : lockstep r0) by constructor.
  assert (H : forall l r, lockstep r ->
              lockstep (fold_left
                (fun r b => update_branch b (set_lastChangeRev neverChanged) r) l r)).
  { induction l as [|b l IH]; intros r Hr; simpl; auto.
    apply IH. apply lockstep_update; auto. }
  apply lockstep_update; auto.
Qed.

Lemma setupIncremental_loop_lockstep lvm lines cutoff last_revnum (r : Repository) :
  lockstep r ->
  lockstep (snd (setupIncremental_loop lvm lines cutoff last_revnum r)).
Proof.
  revert cutoff last_revnum r.
  induction lines as [|[[rev qbranch] mark] lines IH]; intros cutoff lr r Hr;
    simpl; auto.
  destruct (rev >=? cutoff); simpl; auto.
  assert (Hw : forall s, lockstep (if rev <? lr then warn s r else r)).
  { intros s. destruct (rev <? lr); auto. }
  destruct (mark >? lvm); simpl.
  - apply (Hw _).
  - apply IH. apply lockstep_update; [intros b Hb; unfold lockstep_branch in *;
      simpl; rewrite !length_app; simpl; lia|].
    match goal with
    | |- lockstep (if ?c then _ else _) => destruct c
    end.
    + apply lockstep_update; auto. apply lockstep_touch.
      match goal with
      | |- lockstep (if ?c then _ else _) => destruct c
      end; apply (Hw _).
    + apply lockstep_touch.
      match goal with
      | |- lockstep (if ?c then _ else _) => destruct c
      end; apply (Hw _).
Qed.

Lemma setupIncremental_lockstep logfile lvm cutoff (r : Repository) :
  lockstep r -> lockstep (snd (setupIncremental logfile lvm cutoff r)).
Proof.
  intros Hr. unfold setupIncremental. destruct logfile as [lines|]; auto.
  pose proof (setupIncremental_loop_lockstep lvm lines cutoff 0 r Hr) as H.
  destruct (setupIncremental_loop lvm lines cutoff 0 r) as [[[b c] l] r'].
  destruct b; exact H.
Qed.

(** The lines of the log that [setupIncremental] takes in: those before
    the first line at or beyond the cutoff, or with a mark above the last
    valid one. *)
Fixpoint taken_lines (lvm : Z) (lines : list (Z * string * Z)) (cutoff : Z)
  : list (Z * string * Z) :=
  match lines with
  | [] => []
  | (rev, qbranch, mark) :: rest =>
      if (rev >=? cutoff) || (mark >? lvm) then []
      else (rev, qbranch, mark) :: taken_lines lvm rest cutoff
  end.

Definition lines_of (k : string) (lines : list (Z * string * Z))
  : list (Z * string * Z) :=
  filter (fun l => String.eqb (snd (fst l)) k) lines.

(** what the loop of [setupIncremental] does with a line it takes in *)
Definition resumed_line (rev : Z) (qbranch : string) (mark last_revnum : Z)
    (r : Repository) : Repository :=
  let r := if rev <? last_revnum
           then warn (name r ++ " revision numbers are not monotonic: "
                      ++ " got " ++ to_string last_revnum
                      ++ " and then " ++ to_string rev) r
           else r in
  let r := if last_commit_mark r <? mark
           then set_last_commit_mark mark r else r in
  let r := touch_branch qbranch r in
  let br := branch_at qbranch r in
  let r := if negb (Branch_exists br) || (mark =? 0)
           then update_branch qbranch (set_lastChangeRev rev) r
           else r in
  update_branch qbranch (append_commit rev mark) r.

Lemma setupIncremental_loop_cons lvm rev qbranch mark rest cutoff lr
    (r : Repository) :
  setupIncremental_loop lvm ((rev, qbranch, mark) :: rest) cutoff lr r
  = if rev >=? cutoff then (true, cutoff, lr, r)
    else if mark >? lvm
         then (true, rev, lr,
               warn (name r ++ " unknown commit mark found:"
                     ++ " rewinding -- did you hit Ctrl-C?")
                    (if rev <? lr
                     then warn (name r ++ " revision numbers are not monotonic: "
                                ++ " got " ++ to_string lr
                                ++ " and then " ++ to_string rev) r
                     else r))
         else setupIncremental_loop lvm rest cutoff rev
                (resumed_line rev qbranch mark lr r).
Proof.
  cbn [setupIncremental_loop]. destruct (rev >=? cutoff); [reflexivity|].
  destruct (mark >? lvm); [|reflexivity].
  destruct (rev <? lr); reflexivity.
Qed.

Lemma resumed_line_branch rev qbranch mark lr (r : Repository) (k : string) :
  commits (branch_at k (resumed_line rev qbranch mark lr r))
  = (commits (branch_at k r)
     ++ if String.eqb qbranch k then [rev] else [])%list
  /\ marks (branch_at k (resumed_line rev qbranch mark lr r))
     = (marks (branch_at k r)
        ++ if String.eqb qbranch k then [mark] else [])%list.
Proof.
  unfold resumed_line.
  set (rw := if rev <? lr then warn _ r else r).
  set (r1 := if last_commit_mark rw <? mark
             then set_last_commit_mark mark rw else rw).
  assert (H1 : forall k', branch_at k' r1 = branch_at k' r).
  { intros k'. unfold r1, rw.
    destruct (last_commit_mark _ <? mark); destruct (rev <? lr); reflexivity. }
  set (r2 := touch_branch qbranch r1).
  assert (H2 : forall k', branch_at k' r2 = branch_at k' r)
    by (intros k'; unfold r2; now rewrite branch_at_touch, H1).
  set (r3 := if negb (Branch_exists (branch_at qbranch r2)) || (mark =? 0)
             then update_branch qbranch (set_lastChangeRev rev) r2 else r2).
  assert (H3 : forall k', commits (branch_at k' r3) = commits (branch_at k' r)
                          /\ marks (branch_at k' r3) = marks (branch_at k' r)).
  { intros k'. unfold r3. destruct (_ || _); [|now rewrite H2].
    destruct (String.eqb_spec k' qbranch) as [->|Hne].
    - rewrite branch_at_update, H2. split; reflexivity.
    - rewrite branch_at_update_ne, H2 by exact Hne. split; reflexivity. }
  destruct (String.eqb_spec qbranch k) as [->|Hne].
  - rewrite branch_at_update. cbn [commits marks append_commit].
    destruct (H3 k) as [-> ->]. split; reflexivity.
  - rewrite branch_at_update_ne by congruence. rewrite !app_nil_r. apply H3.
Qed.

Lemma resumed_line_counters rev qbranch mark lr (r : Repository) :
  last_commit_mark (resumed_line rev qbranch mark lr r)
  = Z.max (last_commit_mark r) mark
  /\ next_file_mark (resumed_line rev qbranch mark lr r) = next_file_mark r.
Proof.
  unfold resumed_line.
  set (rw := if rev <? lr then warn _ r else r).
  assert (Hw : last_commit_mark rw = last_commit_mark r
               /\ next_file_mark rw = next_file_mark r)
    by (unfold rw; destruct (rev <? lr); split; reflexivity).
  destruct Hw as [Hw1 Hw2].
  set (r1 := if last_commit_mark rw <? mark
             then set_last_commit_mark mark rw else rw).
  assert (H1 : last_commit_mark r1 = Z.max (last_commit_mark r) mark
               /\ next_file_mark r1 = next_file_mark r).
  { unfold r1. rewrite Hw1.
    destruct (Z.ltb_spec (last_commit_mark r) mark); cbn; split; try lia;
      assumption. }
  destruct H1 as [H1 H1'].
  match goal with
  | |- context [if ?c then _ else _] => destruct c
  end; cbn; split; assumption.
Qed.

(** [setupIncremental] appends, for each line it takes in, the revision
    to [commits] and the mark to [marks] of the branch of the line, and
    raises [last_commit_mark] to the highest mark it has seen. *)
Lemma setupIncremental_loop_appends lvm lines :
  forall cutoff lr (r : Repository),
    let r' := snd (setupIncremental_loop lvm lines cutoff lr r) in
    let taken := taken_lines lvm lines cutoff in
    last_commit_mark r'
    = fold_left Z.max (map snd taken) (last_commit_mark r)
    /\ next_file_mark r' = next_file_mark r
    /\ forall k,
         commits (branch_at k r')
         = (commits (branch_at k r)
            ++ map (fun l => fst (fst l)) (lines_of k taken))%list
         /\ marks (branch_at k r')
            = (marks (branch_at k r) ++ map snd (lines_of k taken))%list.
Proof.
  induction lines as [|[[rev qbranch] mark] lines IH]; intros cutoff lr r;
    cbv zeta.
  - cbn. repeat split; now rewrite app_nil_r.
  - rewrite setupIncremental_loop_cons. cbn [taken_lines].
    destruct (rev >=? cutoff); cbn [orb snd].
    + cbn. repeat split; now rewrite app_nil_r.
    + destruct (mark >? lvm); cbn [snd].
      * cbn [map fold_left lines_of filter].
        destruct (rev <? lr); cbn; repeat split; now rewrite app_nil_r.
      * destruct (IH cutoff rev (resumed_line rev qbranch mark lr r))
          as (A & B & C).
        destruct (resumed_line_counters rev qbranch mark lr r) as [L N].
        split; [rewrite A, L; reflexivity|]. split; [now rewrite B, N|].
        intros k. destruct (C k) as [C1 C2].
        destruct (resumed_line_branch rev qbranch mark lr r k) as [D1 D2].
        rewrite C1, C2, D1, D2. unfold lines_of. cbn [filter fst snd].
        destruct (String.eqb qbranch k); cbn [map];
          rewrite <- !app_assoc; split; reflexivity.
Qed.

Lemma setupIncremental_appends lvm lines cutoff (r : Repository) :
  let r' := snd (setupIncremental (Some lines) lvm cutoff r) in
  let taken := taken_lines lvm lines cutoff in
  last_commit_mark r'
  = fold_left Z.max (map snd taken) (last_commit_mark r)
  /\ next_file_mark r' = next_file_mark r
  /\ forall k,
       commits (branch_at k r')
       = (commits (branch_at k r)
          ++ map (fun l => fst (fst l)) (lines_of k taken))%list
       /\ marks (branch_at k r')
          = (marks (branch_at k r) ++ map snd (lines_of k taken))%list.
Proof.
  cbv zeta. unfold setupIncremental.
  pose proof (setupIncremental_loop_appends lvm lines cutoff 0 r) as H.
  cbv zeta in H.
  destruct (setupIncremental_loop lvm lines cutoff 0 r) as [[[b c] l] r'].
  destruct b; exact H.
Qed.

Lemma step_lockstep (r : Repository) ms r' :
  step options r ms r' -> lockstep r -> lockstep r'.
Proof.
  intros Hs Hl. apply step_cases in Hs.
  destruct Hs as [(_ & M) | [(_ & _ & _ & _ & M) | (_ & ->)]].
  - now apply M.
  - now apply M.
  - exact Hl.
Qed.

Lemma resetBranch_vectors rule gitRefName rev mark resetTo comment super
    (r : Repository) w' :
  resetBranch options rule gitRefName rev mark resetTo comment (super, r) = Ok w' ->
  commits (branch_at gitRefName (snd w'))
  = (commits (branch_at gitRefName r) ++ [rev])%list
  /\ marks (branch_at gitRefName (snd w'))
     = (marks (branch_at gitRefName r) ++ [mark])%list
  /\ lastChangeRev (branch_at gitRefName (snd w')) = rev.
Proof.
  unfold resetBranch. intros H. inv_ok. simpl.
  assert (Hb : forall x, branches x
                 = branches (update_branch gitRefName
                     (fun b => append_commit rev mark (set_lastChangeRev rev b))
                     (touch_branch gitRefName r)) ->
               commits (branch_at gitRefName x)
               = (commits (branch_at gitRefName r) ++ [rev])%list
               /\ marks (branch_at gitRefName x)
                  = (marks (branch_at gitRefName r) ++ [mark])%list
               /\ lastChangeRev (branch_at gitRefName x) = rev).
  { intros x Hx. unfold branch_at at 1 3 5. rewrite Hx.
    fold (branch_at gitRefName (update_branch gitRefName
            (fun b => append_commit rev mark (set_lastChangeRev rev b))
            (touch_branch gitRefName r))).
    rewrite branch_at_update, branch_at_touch. simpl. auto. }
  apply Hb.
  repeat match goal with
         | |- context [if ?c then _ else _] => destruct c
         end; reflexivity.
Qed.

(** The search stays within the elements it was given. *)
Lemma qUpperBound_from_range (v : list Z) (x : Z) (fuel : nat) :
  forall begin n,
    (begin <= qUpperBound_from fuel v x begin n <= begin + n)%nat.
Proof.
  induction fuel as [|fuel IH]; intros begin n; cbn [qUpperBound_from]; [lia|].
  destruct n as [|n']; [lia|].
  set (n := S n'). set (half := Nat.div2 n).
  assert (Hhalf : (half < n)%nat) by (apply Nat.lt_div2; unfold n; lia).
  destruct (x <? nth (begin + half) v 0).
  - specialize (IH begin half). lia.
  - specialize (IH (S (begin + half)) (n - S half)%nat). lia.
Qed.

Lemma qUpperBound_le (v : list Z) (x : Z) : (qUpperBound v x <= List.length v)%nat.
Proof.
  unfold qUpperBound.
  pose proof (qUpperBound_from_range v x (List.length v) 0 (List.length v)).
  lia.
Qed.

(** With the vectors in lockstep, [markFrom] finds a mark wherever it
    found a commit: its two reads of [marks] are within bounds. *)
Lemma markFrom_in_bounds branchFrom n desc (r : Repository) :
  lockstep r -> starts_with branchFrom "refs/" = true ->
  exists res, markFrom branchFrom n desc r = Ok res.
Proof.
  intros Hl Hs. unfold markFrom. rewrite Hs. simpl.
  pose proof (lockstep_branch_at branchFrom _ (lockstep_touch branchFrom r Hl)) as Hb.
  unfold lockstep_branch in Hb.
  destruct (lastChangeRev _ =? neverChanged); [eauto|].
  destruct (commits (branch_at branchFrom (touch_branch branchFrom r))) as [|c cs] eqn:Ec;
    [eauto|].
  destruct (n =? last (c :: cs) 0).
  - destruct (marks (branch_at branchFrom (touch_branch branchFrom r))) eqn:Em;
      [simpl in Hb; discriminate|]. simpl. eauto.
  - pose proof (qUpperBound_le (c :: cs) n) as Hq.
    destruct (qUpperBound (c :: cs) n) as [|it'] eqn:Eq; [eauto|].
    unfold vec_at.
    destruct (nth_error (marks (branch_at branchFrom (touch_branch branchFrom r))) it')
      eqn:En; [simpl; eauto|].
    apply nth_error_None in En. lia.
Qed.

(** *** Queued resets and deletions *)

(** What [resetBranch] does to the two queues. *)
Lemma resetBranch_queues rule gitRefName rev mark resetTo comment super
    (r : Repository) w' :
  resetBranch options rule gitRefName rev mark resetTo comment (super, r) = Ok w' ->
  let cmd := backupCmd (branch_at gitRefName r) (mark =? 0) gitRefName rev
             ++ reset_cmd gitRefName rev mark resetTo comment in
  if mark =? 0 then
    if sm_contains gitRefName (resetBranches r) then
      resetBranches (snd w') = sm_remove gitRefName (resetBranches r)
      /\ deletedBranches (snd w') = deletedBranches r
    else
      resetBranches (snd w') = resetBranches r
      /\ deletedBranches (snd w')
         = sm_insert gitRefName
             (sm_value "" gitRefName (deletedBranches r) ++ cmd)%string
             (deletedBranches r)
  else
    deletedBranches (snd w') = deletedBranches r
    /\ resetBranches (snd w')
       = sm_insert gitRefName
           (sm_value "" gitRefName (resetBranches r) ++ cmd)%string
           (resetBranches r).
Proof.
  unfold resetBranch. intros H. inv_ok. simpl.
  rewrite branch_at_touch.
  destruct (mark =? 0); [destruct (sm_contains gitRefName (resetBranches r))|];
    simpl; auto.
Qed.

(** [stream_frame r r']: the step from [r] to [r'] leaves the two queues
    alone and only adds to the fast-import stream. *)
Definition stream_frame (r r' : Repository) : Prop :=
  deletedBranches r' = deletedBranches r
  /\ resetBranches r' = resetBranches r
  /\ exists out, fastImport r' = (fastImport r ++ out)%list.

Lemma stream_frame_refl (r : Repository) : stream_frame r r.
Proof. unfold stream_frame. intuition. exists []. now rewrite app_nil_r. Qed.

Lemma stream_frame_trans (r1 r2 r3 : Repository) :
  stream_frame r1 r2 -> stream_frame r2 r3 -> stream_frame r1 r3.
Proof.
  intros (A1 & B1 & o1 & C1) (A2 & B2 & o2 & C2). unfold stream_frame.
  rewrite A2, B2, C2, C1. intuition. exists (o1 ++ o2)%list. now rewrite app_assoc.
Qed.

Lemma stream_frame_write (s : string) (r : Repository) : stream_frame r (write s r).
Proof. unfold stream_frame. simpl. eauto. Qed.

Lemma stream_frame_quiet (r r' : Repository) :
  deletedBranches r' = deletedBranches r -> resetBranches r' = resetBranches r ->
  fastImport r' = fastImport r -> stream_frame r r'.
Proof.
  intros A B C. unfold stream_frame. rewrite A, B, C. intuition.
  exists []. now rewrite app_nil_r.
Qed.

Lemma reloadBranches_frame (r r' : Repository) :
  reloadBranches options r = Ok r' -> stream_frame r r'.
Proof.
  unfold reloadBranches. intros H. inv_ok. destruct a as [b r1].
  assert (Hc : stream_frame r r1).
  { change r1 with (snd (b, r1)).
    eapply (foldM_invariant (fun st => stream_frame r (snd st)));
      [| |exact E]; [|apply stream_frame_refl].
    intros [b0 s0] x [b1 s1] Hs Hx. cbn [snd] in *.
    eapply stream_frame_trans; [exact Hs|].
    unfold reloadBranches_step in Hx. inv_ok.
    destruct (marks (branch_at x s0)); inv_ok; [apply stream_frame_refl|].
    destruct (last _ _ =? 0); inv_ok;
      [apply stream_frame_refl | apply stream_frame_write]. }
  destruct (b && add_metadata_notes options); inv_ok; auto.
  eapply stream_frame_trans; [exact Hc | apply stream_frame_write].
Qed.

Lemma startFastImport_frame (r r' : Repository) :
  startFastImport options r = Ok r' -> stream_frame r r'.
Proof.
  unfold startFastImport. intros H.
  destruct (fastImport_running r); simpl in H; inv_ok; [apply stream_frame_refl|].
  destruct (processHasStarted r); inv_ok.
  apply reloadBranches_frame in H.
  eapply stream_frame_trans; [|exact H]. now apply stream_frame_quiet.
Qed.

Lemma demandTransaction_frame branch_ svnprefix_ rev (r r' : Repository) :
  demandTransaction options branch_ svnprefix_ rev r = Ok r' -> stream_frame r r'.
Proof.
  unfold demandTransaction. intros H.
  destruct (sm_find branch_ (transactions r)); inv_ok; [apply stream_frame_refl|].
  destruct (commit_interval options =? 0); inv_ok.
  match type of H with
  | (if ?c then _ else _) = _ => destruct c; inv_ok
  end.
  - apply startFastImport_frame in E0.
    eapply stream_frame_trans; [|apply stream_frame_write].
    eapply stream_frame_trans; [|exact E0]. now apply stream_frame_quiet.
  - now apply stream_frame_quiet.
Qed.

Lemma addFile_frame path mode len t (r : Repository) t' r' :
  addFile options path mode len t r = Ok (t', r') -> stream_frame r r'.
Proof.
  unfold addFile. intros H. inv_ok.
  destruct (negb (dry_run options)); inv_ok; [|now apply stream_frame_quiet].
  apply startFastImport_frame in E1.
  eapply stream_frame_trans; [now apply stream_frame_quiet|].
  eapply stream_frame_trans; [exact E1|].
  repeat (eapply stream_frame_trans; [|apply stream_frame_write]).
  apply stream_frame_refl.
Qed.

Lemma update_dot_gitmodules_frame branch_name b rev (r r' : Repository) :
  update_dot_gitmodules options branch_name b rev r = Ok r' -> stream_frame r r'.
Proof.
  unfold update_dot_gitmodules. intros H. inv_ok. destruct a0 as [t1 r1].
  apply demandTransaction_frame in E. apply addFile_frame in E0.
  eapply stream_frame_trans; [exact E|]. eapply stream_frame_trans; [exact E0|].
  destruct (negb (dry_run options)); inv_ok.
  - apply (stream_frame_trans _ (store_txn branch_name t1 r1));
      [now apply stream_frame_quiet|].
    eapply stream_frame_trans; apply stream_frame_write.
  - now apply stream_frame_quiet.
Qed.

(** [prepare_commit] writes the queued deletions, then the queued resets,
    and empties both queues. *)
Lemma prepare_commit_stream rev (r r' : Repository) :
  prepare_commit options rev r = Ok r' ->
  (deletedBranches r <> [] \/ resetBranches r <> []) ->
  deletedBranches r' = [] /\ resetBranches r' = []
  /\ exists pre,
       fastImport r'
       = (fastImport r ++ pre ++ om_values (deletedBranches r)
          ++ om_values (resetBranches r))%list.
Proof.
  unfold prepare_commit. intros H Hq.
  assert (Hloop : forall ks r0 r1,
             foldM (prepare_commit_step options rev) ks r0 = Ok r1 ->
             stream_frame r0 r1).
  { intros ks r0 r1 Hf.
    eapply (foldM_invariant (fun s => stream_frame r0 s));
      [| |exact Hf]; [|apply stream_frame_refl].
    intros s x s' Hs Hx. eapply stream_frame_trans; [exact Hs|].
    unfold prepare_commit_step in Hx.
    destruct (_ =? rev); inv_ok; [|apply stream_frame_refl].
    eapply update_dot_gitmodules_frame; eauto. }
  assert (Hmain : forall r1 r2,
             foldM (prepare_commit_step options rev) (om_keys (branches r)) r = Ok r1 ->
             startFastImport options r1 = Ok r2 ->
             exists pre,
               fastImport (write_all (om_values (resetBranches (write_all (om_values (deletedBranches r2)) r2)))
                             (write_all (om_values (deletedBranches r2)) r2))
               = (fastImport r ++ pre ++ om_values (deletedBranches r)
                  ++ om_values (resetBranches r))%list).
  { intros r1 r2 H1 H2. apply Hloop in H1. apply startFastImport_frame in H2.
    destruct (stream_frame_trans _ _ _ H1 H2) as (A & B & out & C).
    rewrite !write_all_eq. simpl. rewrite A, B, C. exists out.
    now rewrite <- !app_assoc. }
  destruct (deletedBranches r) eqn:Ed, (resetBranches r) eqn:Er;
    [destruct Hq as [Hq|Hq]; congruence| | |];
    inv_ok; simpl; (split; [reflexivity|]); (split; [reflexivity|]);
    rewrite <- ?Ed, <- ?Er; eapply Hmain; eauto.
Qed.

(** *** [markFrom] and [createBranch] *)

Lemma sorted_nth (v : list Z) :
  StronglySorted Z.le v ->
  forall i j, (i <= j < List.length v)%nat -> nth i v 0 <= nth j v 0.
Proof.
  induction 1 as [|y v Hs IH Hy]; intros i j Hij; cbn [List.length] in Hij;
    [lia|].
  destruct j as [|j]; [replace i with O by lia; cbn; lia|].
  destruct i as [|i]; cbn [nth].
  - rewrite Forall_forall in Hy. apply Hy. apply nth_In. lia.
  - apply IH. lia.
Qed.

(** On a vector in ascending order the search ends between the elements
    not above [x] and the elements above [x]. *)
Lemma qUpperBound_from_split (v : list Z) (x : Z) :
  StronglySorted Z.le v ->
  forall fuel begin n,
    (n <= fuel)%nat -> (begin + n <= List.length v)%nat ->
    (forall j, (j < begin)%nat -> nth j v 0 <= x) ->
    (forall j, (begin + n <= j < List.length v)%nat -> x < nth j v 0) ->
    let res := qUpperBound_from fuel v x begin n in
    (forall j, (j < res)%nat -> nth j v 0 <= x)
    /\ (forall j, (res <= j < List.length v)%nat -> x < nth j v 0).
Proof.
  intros Hs. induction fuel as [|fuel IH]; intros begin n Hf Hlen Hlo Hhi;
    cbn [qUpperBound_from]; cbv zeta.
  - replace n with O in Hhi by lia. rewrite Nat.add_0_r in Hhi. auto.
  - destruct n as [|n']; [rewrite Nat.add_0_r in Hhi; auto|].
    set (n := S n') in *. set (half := Nat.div2 n).
    assert (Hhalf : (half < n)%nat) by (apply Nat.lt_div2; unfold n; lia).
    destruct (Z.ltb_spec x (nth (begin + half) v 0)) as [Hlt|Hge].
    + apply IH; try lia; [exact Hlo|].
      intros j Hj.
      pose proof (sorted_nth v Hs (begin + half)%nat j ltac:(lia)). lia.
    + apply IH; try lia.
      * intros j Hj.
        pose proof (sorted_nth v Hs j (begin + half)%nat ltac:(lia)). lia.
      * intros j Hj. apply Hhi. lia.
Qed.

Lemma qUpperBound_below (v : list Z) (x : Z) (j : nat) (c : Z) :
  StronglySorted Z.le v ->
  (j < qUpperBound v x)%nat -> nth_error v j = Some c -> c <= x.
Proof.
  intros Hs Hj Hn. unfold qUpperBound in Hj.
  destruct (qUpperBound_from_split v x Hs (List.length v) 0 (List.length v))
    as [Hlo _]; try lia.
  rewrite <- (nth_error_nth v j 0 Hn). now apply Hlo.
Qed.

Lemma qUpperBound_above (v : list Z) (x : Z) (j : nat) (c : Z) :
  StronglySorted Z.le v ->
  (qUpperBound v x <= j)%nat -> nth_error v j = Some c -> x < c.
Proof.
  intros Hs Hj Hn. unfold qUpperBound in Hj.
  destruct (qUpperBound_from_split v x Hs (List.length v) 0 (List.length v))
    as [_ Hhi]; try lia.
  rewrite <- (nth_error_nth v j 0 Hn). apply Hhi. split; [exact Hj|].
  apply nth_error_Some. congruence.
Qed.

Lemma last_nth_error (v : list Z) (d : Z) :
  v <> [] -> nth_error v (List.length v - 1) = Some (last v d).
Proof.
  intros Hv. destruct (exists_last Hv) as (l & a & ->).
  rewrite last_last, length_app. simpl.
  replace (List.length l + 1 - 1)%nat with (List.length l) by lia.
  now rewrite nth_error_app2, Nat.sub_diag by lia.
Qed.

(** [closest commits marks n m]: [m] is the mark of the last commit at or
    before revision [n], or zero when every commit is after [n]. *)
Definition closest (cs ms : list Z) (n m : Z) : Prop :=
  (exists i c, nth_error cs i = Some c /\ nth_error ms i = Some m /\ c <= n
               /\ forall j c', (i < j)%nat -> nth_error cs j = Some c' -> n < c')
  \/ (m = 0 /\ forall c, In c cs -> n < c).

Lemma markFrom_closest branchFrom n desc (r : Repository) m desc' r' :
  lockstep r ->
  StronglySorted Z.le (commits (branch_at branchFrom r)) ->
  commits (branch_at branchFrom r) <> [] ->
  lastChangeRev (branch_at branchFrom r) <> neverChanged ->
  markFrom branchFrom n desc r = Ok (m, desc', r') ->
  closest (commits (branch_at branchFrom r)) (marks (branch_at branchFrom r)) n m.
Proof.
  intros Hl Hs Hne Hch. unfold markFrom. intros H. inv_ok.
  rewrite branch_at_touch in H.
  pose proof (lockstep_branch_at branchFrom r Hl) as Hb. unfold lockstep_branch in Hb.
  set (br := branch_at branchFrom r) in *.
  apply Z.eqb_neq in Hch. rewrite Hch in H.
  destruct (commits br) as [|c0 cs0] eqn:Ec; [congruence|]. rewrite <- Ec in *.
  destruct (n =? last (commits br) 0) eqn:En.
  - apply Z.eqb_eq in En. unfold vec_last in H.
    destruct (marks br) as [|m0 ms0] eqn:Em;
      [rewrite Ec in Hb; simpl in Hb; discriminate|].
    rewrite <- Em in *. inv_ok. left.
    exists (List.length (commits br) - 1)%nat, (last (commits br) 0).
    split; [apply last_nth_error; congruence|].
    split; [rewrite Hb; apply last_nth_error; congruence|].
    split; [lia|].
    intros j c' Hj Hn.
    assert (nth_error (commits br) j <> None) by congruence.
    apply nth_error_Some in H. lia.
  - destruct (qUpperBound (commits br) n) as [|it'] eqn:Eq.
    + inv_ok. right. split; [reflexivity|].
      intros c Hc. apply In_nth_error in Hc. destruct Hc as [j Hj].
      apply (qUpperBound_above (commits br) n j c Hs); [lia | exact Hj].
    + unfold vec_at in H.
      destruct (nth_error (marks br) it') as [mk|] eqn:Emk; simpl in H; inv_ok.
      left.
      assert (Hlt : (it' < List.length (commits br))%nat).
      { pose proof (qUpperBound_le (commits br) n). lia. }
      destruct (nth_error (commits br) it') as [c|] eqn:Ecm;
        [|apply nth_error_None in Ecm; lia].
      exists it', c. split; [exact Ecm|]. split; [exact Emk|].
      split; [apply (qUpperBound_below (commits br) n it' c Hs); [lia | exact Ecm]|].
      intros j c' Hj Hn.
      apply (qUpperBound_above (commits br) n j c' Hs); [lia | exact Hn].
Qed.

(** [markFrom] reads: it leaves every branch, the queues and the stream as
    they are, and only adds to the description it is given. *)
Lemma markFrom_reads branchFrom n desc (r : Repository) m desc' r1 :
  markFrom branchFrom n desc r = Ok (m, desc', r1) ->
  (forall k, branch_at k r1 = branch_at k r)
  /\ resetBranches r1 = resetBranches r
  /\ deletedBranches r1 = deletedBranches r
  /\ fastImport r1 = fastImport r
  /\ exists suffix, desc' = desc ++ suffix.
Proof.
  assert (Hnil : desc = desc ++ "").
  { clear. induction desc as [|c d IH]; cbn; [reflexivity | now rewrite <- IH]. }
  assert (Ht : forall k, branch_at k (touch_branch branchFrom r) = branch_at k r)
    by (intros k; apply branch_at_touch).
  unfold markFrom. intros H. inv_ok.
  destruct (lastChangeRev _ =? neverChanged); inv_ok;
    [repeat split; auto; now exists ""|].
  destruct (commits _); inv_ok; [repeat split; auto; now exists ""|].
  destruct (n =? _); inv_ok; [repeat split; auto; now exists ""|].
  destruct (qUpperBound _ _); inv_ok; [repeat split; auto; now exists ""|].
  repeat split; auto.
  destruct (String.eqb desc ""); [now exists ""|]. eexists. reflexivity.
Qed.

Lemma backupCmd_set_note (v : string) (b : Branch) (deleting : bool)
    (gitRefName : string) (rev : Z) :
  backupCmd (set_note v b) deleting gitRefName rev
  = backupCmd b deleting gitRefName rev.
Proof. reflexivity. Qed.

(** A branch that never had a commit has no mark to branch from. *)
Lemma markFrom_never branchFrom n desc (r : Repository) :
  starts_with branchFrom "refs/" = true ->
  commits (branch_at branchFrom r) = [] ->
  markFrom branchFrom n desc r = Ok (-1, desc, touch_branch branchFrom r).
Proof.
  intros Hs Hc. unfold markFrom. rewrite Hs. simpl.
  rewrite branch_at_touch, Hc.
  destruct (lastChangeRev _ =? neverChanged); reflexivity.
Qed.

(** [createBranch] past the lookup of the mark *)
Lemma createBranch_unfold rule rev branchFrom n super (r : Repository)
    m desc r1 :
  starts_with (git_ref_name rule) "refs/" = true ->
  starts_with branchFrom "refs/" = true ->
  markFrom branchFrom n ("from branch " ++ branchFrom) r = Ok (m, desc, r1) ->
  createBranch options rule rev branchFrom n (super, r)
  = if m =? -1 then
      Abort (RuntimeError
               (git_ref_name rule ++ " in repository " ++ name r1
                ++ " is branching from branch " ++ branchFrom
                ++ " but the latter doesn't exist. Can't continue."))
    else if m =? 0 then
      resetBranch options rule (git_ref_name rule) rev 0 branchFrom
        (desc ++ ", deleted/unknown")
        (super,
         update_branch (git_ref_name rule)
           (set_note (note (branch_at branchFrom r1)))
           (warn (git_ref_name rule ++ " in repository " ++ name r1
                  ++ " is branching but no exported commits exist in repository."
                  ++ " creating an empty branch.") r1))
    else
      resetBranch options rule (git_ref_name rule) rev m (":" ++ to_string m)
        desc
        (super,
         update_branch (git_ref_name rule)
           (set_note (note (branch_at branchFrom r1))) r1).
Proof.
  intros H1 H2 Hm. unfold createBranch. rewrite H1, H2, Hm. simpl.
  destruct (m =? -1); [reflexivity|].
  destruct (m =? 0) eqn:E0; [|reflexivity].
  apply Z.eqb_eq in E0. subst m. reflexivity.
Qed.

Lemma markFrom_neverChanged branchFrom n desc (r : Repository) :
  starts_with branchFrom "refs/" = true ->
  lastChangeRev (branch_at branchFrom r) = neverChanged ->
  markFrom branchFrom n desc r = Ok (-1, desc, touch_branch branchFrom r).
Proof.
  intros Hs Hc. unfold markFrom. rewrite Hs. simpl.
  now rewrite branch_at_touch, Hc, Z.eqb_refl.
Qed.

Lemma closest_nonneg (cs ms : list Z) (n m : Z) :
  Forall (Z.le 0) ms -> closest cs ms n m -> 0 <= m.
Proof.
  intros Hf [(i & c & _ & Hm & _) | (-> & _)]; [|lia].
  apply nth_error_In in Hm. rewrite Forall_forall in Hf. auto.
Qed.

(** *** The parents of a commit *)

Lemma qSort_perm (l : list Z) : Permutation l (qSort l).
Proof. apply ZSort.Permuted_sort. Qed.

Lemma qSort_sorted (l : list Z) : StronglySorted Z.le (qSort l).
Proof.
  assert (H : StronglySorted (fun x y => is_true (x <=? y)) (qSort l)).
  { apply ZSort.StronglySorted_sort. intros x y z Hxy Hyz.
    unfold is_true in *. rewrite Z.leb_le in *. lia. }
  induction H; constructor; auto.
  rewrite Forall_forall in *. intros x Hx. apply Z.leb_le. now apply H0.
Qed.

Lemma sorted_last_max (s : list Z) (d : Z) :
  StronglySorted Z.le s -> Forall (fun x => x <= last s d) s.
Proof.
  induction 1 as [|a s Hs IH Ha]; [constructor|].
  destruct s as [|b s']; [repeat constructor; simpl; lia|].
  change (last (a :: b :: s') d) with (last (b :: s') d).
  constructor; [|exact IH].
  rewrite Forall_forall in Ha, IH.
  assert (Hb : In b (b :: s')) by (left; reflexivity).
  specialize (Ha _ Hb). specialize (IH _ Hb). lia.
Qed.

Lemma last_In (s : list Z) (d : Z) : s <> [] -> In (last s d) s.
Proof.
  intros Hs. destruct (exists_last Hs) as (l & a & ->).
  rewrite last_last. apply in_or_app. right. now left.
Qed.

(** [qSort(merges); merges.last()] is the highest recorded merge mark *)
Lemma qSort_last_max (l : list Z) :
  l <> [] ->
  In (last (qSort l) 0) l /\ Forall (fun x => x <= last (qSort l) 0) l.
Proof.
  intros Hl. pose proof (qSort_perm l) as Hp.
  assert (Hs : qSort l <> []).
  { intros E. rewrite E in Hp. apply Permutation_sym, Permutation_nil in Hp. auto. }
  split.
  - eapply Permutation_in; [apply Permutation_sym, Hp|]. now apply last_In.
  - pose proof (sorted_last_max _ 0 (qSort_sorted l)) as Hm.
    rewrite Forall_forall in *. intros x Hx. apply Hm.
    eapply Permutation_in; eauto.
Qed.

(** The merge marks the loop of [Transaction::commit] is asked to write,
    and those it writes: the recorded marks but the parent's, up to the
    sixteenth parent. *)
Definition wanted_merges (parentmark : Z) (ms : list Z) : list Z :=
  filter (fun m => negb (m =? parentmark)) ms.

Definition capped_merges (i parentmark : Z) (ms : list Z) : list Z :=
  firstn (Z.to_nat (16 - i)) (wanted_merges parentmark ms).

Definition merges_desc (ms : list Z) : string :=
  String.concat "" (map (fun m => " :" ++ to_string m) ms).

Definition too_many (r : Repository) : string :=
  "too many merge parents in repository " ++ name r.

Lemma string_append_assoc (a b c : string) : (a ++ b) ++ c = a ++ b ++ c.
Proof. induction a; simpl; congruence. Qed.

Lemma concat_cons_empty (s : string) (l : list string) :
  String.concat "" (s :: l) = s ++ String.concat "" l.
Proof.
  destruct l; simpl; [|reflexivity].
  induction s; simpl; congruence.
Qed.

#[local] Arguments Z.sub : simpl never.
#[local] Arguments Z.add : simpl never.
#[local] Arguments Z.ltb : simpl never.
#[local] Arguments Z.gtb : simpl never.
#[local] Arguments Z.of_nat : simpl never.
#[local] Arguments Z.to_nat : simpl never.

Lemma commit_merges_spec pm ms i desc (r : Repository) :
  0 <= i <= 16 ->
  let res := commit_merges pm ms (i, desc, r) in
  fastImport (snd res)
  = (fastImport r ++ map merge_line (capped_merges i pm ms))%list
  /\ snd (fst res) = desc ++ merges_desc (capped_merges i pm ms)
  /\ warnings (snd res)
     = (warnings r
        ++ if (16 - i <? Z.of_nat (List.length (wanted_merges pm ms)))
           then [too_many r] else [])%list.
Proof.
  revert i desc r. induction ms as [|m ms IH]; intros i desc r Hi; simpl.
  - unfold capped_merges, wanted_merges, merges_desc. simpl.
    rewrite firstn_nil. simpl.
    replace (16 - i <? Z.of_nat 0) with false by (symmetry; apply Z.ltb_ge; lia).
    rewrite ?app_nil_r. repeat split; auto.
    clear. induction desc; simpl; congruence.
  - unfold capped_merges, wanted_merges in *. simpl.
    destruct (m =? pm) eqn:Em; simpl; [apply IH; exact Hi|].
    destruct (i + 1 >? 16) eqn:Ei.
    + apply Z.gtb_lt in Ei. simpl.
      replace (Z.to_nat (16 - i)) with O by lia. simpl.
      match goal with
      | |- context [16 - i <? ?x] =>
          replace (16 - i <? x) with true by (symmetry; apply Z.ltb_lt; lia)
      end.
      unfold merges_desc. simpl. rewrite ?app_nil_r. repeat split; auto.
      clear. induction desc; simpl; congruence.
    + assert (Hle : i + 1 <= 16) by (destruct (Z.gtb_spec (i + 1) 16); [discriminate | lia]).
      destruct (IH (i + 1) (desc ++ " :" ++ to_string m)
                  (write ("merge" ++ " :" ++ to_string m ++ LF) r)) as (A & B & C);
        [lia|].
      replace (Z.to_nat (16 - i)) with (S (Z.to_nat (16 - (i + 1)))) by lia.
      simpl firstn. simpl map. simpl in A, B, C.
      rewrite A, B, C. unfold merge_line at 2. simpl. rewrite <- app_assoc. simpl.
      repeat split.
      * unfold merges_desc. simpl map. rewrite concat_cons_empty.
        now rewrite !string_append_assoc.
      * f_equal.
        match goal with
        | |- (if ?a then _ else _) = (if ?b then _ else _) =>
            replace a with b; [reflexivity|]
        end.
        destruct (Z.ltb_spec (16 - i)
                    (Z.of_nat (S (List.length (filter (fun m0 => negb (m0 =? pm)) ms)))));
          destruct (Z.ltb_spec (16 - (i + 1))
                      (Z.of_nat (List.length (filter (fun m0 => negb (m0 =? pm)) ms))));
          auto; lia.
Qed.

(** The parents [Transaction::commit] writes after the header: the
    highest recorded merge mark alone for a commit that cvs2svn
    manufactured with several merge marks, the capped merges otherwise. *)
Definition parent_count (parentmark : Z) : Z := if parentmark =? 0 then 0 else 1.

Definition commit_parent_marks (t : Transaction) (parentmark : Z) : list Z :=
  if is_cvs2svn_commit t then [last (qSort (merges t)) 0]
  else capped_merges (parent_count parentmark) parentmark (merges t).

Lemma commit_parents_spec t pm (r : Repository) :
  let res := commit_parents t pm r in
  fastImport (snd res)
  = (fastImport r ++ map merge_line (commit_parent_marks t pm))%list
  /\ commit_deletions (fst (fst res)) = commit_deletions t
  /\ modifiedFiles (fst (fst res)) = modifiedFiles t
  /\ (forall mark desc, commit_progress (fst (fst res)) mark desc
                        = commit_progress t mark desc)
  /\ (if is_cvs2svn_commit t
      then merges (fst (fst res)) = removelast (qSort (merges t))
           /\ snd (fst res) = "" /\ warnings (snd res) = warnings r
      else fst (fst res) = t
           /\ snd (fst res)
              = merges_desc (capped_merges (parent_count pm) pm (merges t))
           /\ warnings (snd res)
              = (warnings r
                 ++ if (16 - parent_count pm
                        <? Z.of_nat (List.length (wanted_merges pm (merges t))))
                    then [too_many r] else [])%list).
Proof.
  unfold commit_parents, commit_parent_marks, parent_count.
  destruct (is_cvs2svn_commit t).
  - simpl. repeat split; reflexivity.
  - pose proof (commit_merges_spec pm (merges t) (if pm =? 0 then 0 else 1) "" r) as H.
    destruct (commit_merges pm (merges t) (if pm =? 0 then 0 else 1, "", r))
      as [[i d] r1].
    simpl in *. destruct H as (A & B & C); [destruct (pm =? 0); lia|].
    repeat split; auto.
Qed.

(** The stream of one [Transaction::commit]: the header, the parents, the
    deletions, the modifications, the progress line, and the metadata note
    when notes are asked for. *)
Lemma Transaction_commit_stream t (r : Repository) t' r' :
  Transaction_commit options t r = Ok (t', r') ->
  exists r0 pm desc notes,
    startFastImport options r = Ok r0
    /\ commit_parentmark (branch_at (branch t) r) = Ok pm
    /\ fastImport r'
       = (fastImport r0
          ++ commit_header options t (last_commit_mark r + 1)
          :: map merge_line (commit_parent_marks t pm)
          ++ commit_deletions t
          ++ modifiedFiles t
          :: commit_progress t (last_commit_mark r + 1) desc
          :: notes)%list
    /\ ((add_metadata_notes options = false /\ notes = [])
        \/ (add_metadata_notes options = true
            /\ exists s, notes = [s]
                         /\ starts_with s "commit refs/notes/commits" = true))
    /\ (if is_cvs2svn_commit t
        then merges t' = removelast (qSort (merges t)) /\ desc = ""
        else t' = t
             /\ desc = merges_desc (capped_merges (parent_count pm) pm (merges t))
             /\ (16 - parent_count pm
                 < Z.of_nat (List.length (wanted_merges pm (merges t))) ->
                 In (too_many r) (warnings r'))).
Proof.
  unfold Transaction_commit. intros H. inv_ok.
  rename a into r0. rename E into Hstart. rename a1 into pm.
  pose proof (startFastImport_core _ _ Hstart) as Hc0.
  assert (Hl0 : last_commit_mark r0 = last_commit_mark r) by apply Hc0.
  assert (Hb0 : branches r0 = branches r) by apply Hc0.
  assert (Hn0 : name r0 = name r) by apply Hc0.
  rewrite Hl0 in *.
  set (mark := last_commit_mark r + 1) in *.
  set (r1 := touch_branch (branch t) (set_last_commit_mark mark r0)) in *.
  assert (Hbr : branch_at (branch t) r1 = branch_at (branch t) r).
  { subst r1. rewrite branch_at_touch. unfold branch_at. simpl. now rewrite Hb0. }
  rewrite Hbr in *.
  set (r2 := if negb (Branch_exists (branch_at (branch t) r)) && incremental r1
             then warn _ r1 else r1) in *.
  set (r3 := update_branch (branch t)
               (fun b => append_commit (revnum t) mark
                           (set_lastChangeRev (revnum t) b)) r2) in *.
  set (r4 := write (commit_header options t mark) r3) in *.
  assert (H4 : fastImport r4 = (fastImport r0 ++ [commit_header options t mark])%list
               /\ name r4 = name r
               /\ exists ws, warnings r4 = (warnings r0 ++ ws)%list).
  { subst r4 r3 r2 r1. destruct (_ && _); simpl; repeat split; auto.
    - eexists; reflexivity.
    - exists []. now rewrite app_nil_r. }
  destruct H4 as (F4 & N4 & ws4 & W4). clearbody r4.
  pose proof (commit_parents_spec t pm r4) as Hp.
  destruct (commit_parents t pm r4) as [[t1 desc] r5]. simpl in Hp.
  destruct Hp as (F5 & D5 & M5 & P5 & Hcase).
  set (r6 := write (commit_progress t1 mark desc)
               (write (modifiedFiles t1) (write_all (commit_deletions t1) r5))) in *.
  assert (F6 : fastImport r6
               = (fastImport r0
                  ++ commit_header options t mark
                  :: map merge_line (commit_parent_marks t pm)
                  ++ commit_deletions t
                  ++ [modifiedFiles t; commit_progress t mark desc])%list
               /\ warnings r6 = warnings r5).
  { subst r6. simpl. rewrite write_all_eq. simpl.
    rewrite F5, F4, D5, M5, P5.
    repeat (rewrite <- app_assoc; cbn [app]). auto. }
  destruct F6 as [F6 W6]. clearbody r6.
  assert (Hcase' : forall rf, warnings rf = warnings r6 ->
            if is_cvs2svn_commit t
            then merges t1 = removelast (qSort (merges t)) /\ desc = ""
            else t1 = t
                 /\ desc = merges_desc (capped_merges (parent_count pm) pm (merges t))
                 /\ (16 - parent_count pm
                     < Z.of_nat (List.length (wanted_merges pm (merges t))) ->
                     In (too_many r) (warnings rf))).
  { intros rf Hrf. destruct (is_cvs2svn_commit t).
    - destruct Hcase as (A & B & _). auto.
    - destruct Hcase as (A & B & C). repeat split; auto.
      intros Hlt. apply Z.ltb_lt in Hlt. rewrite Hlt in C.
      rewrite Hrf, W6, C. apply in_or_app. right. left.
      unfold too_many. now rewrite N4. }
  exists r0, pm, desc.
  destruct (add_metadata_notes options) eqn:Enotes; inv_ok.
  - match goal with
    | Hn : commitNote _ _ _ _ _ = Ok _ |- _ =>
        apply commitNote_stream in Hn; destruct Hn as (Wn & sn & Fn & Sn)
    end.
    exists [sn]. split; [exact Hstart|]. split; [assumption|].
    split; [|split].
    + rewrite Fn, F6. repeat (rewrite <- app_assoc; cbn [app]). reflexivity.
    + right. eauto.
    + apply Hcase'. exact Wn.
  - exists []. split; [exact Hstart|]. split; [assumption|].
    split; [exact F6|]. split; [left; auto|]. now apply Hcase'.
Qed.







(** *** Submodule changes *)

Lemma string_length_append (a b : string) :
  String.length (a ++ b) = (String.length a + String.length b)%nat.
Proof. induction a; simpl; congruence. Qed.

Lemma string_repeat_length (n : nat) (c : ascii) :
  String.length (string_repeat n c) = n.
Proof. induction n; simpl; congruence. Qed.

(** A number below [10^k] prints in at most [k] digits. *)
Lemma digits_base_length (fuel : nat) (n : Z) (acc : string) (k : nat) :
  (1 <= k)%nat -> 0 <= n < 10 ^ Z.of_nat k ->
  (String.length (digits_base fuel 10 n acc) <= k + String.length acc)%nat.
Proof.
  revert n acc k. induction fuel as [|fuel IH]; intros n acc k Hk Hn; simpl; [lia|].
  destruct (n <? 10) eqn:E; simpl; [lia|].
  apply Z.ltb_ge in E.
  assert (Hk2 : (2 <= k)%nat).
  { destruct k as [|[|k]]; [lia| |lia]. simpl in Hn. lia. }
  specialize (IH (n / 10) (String (digit_of (n mod 10)) acc) (k - 1)%nat).
  simpl in IH. assert (Hd : 0 <= n / 10 < 10 ^ Z.of_nat (k - 1)).
  { split; [apply Z.div_pos; lia|].
    apply Z.div_lt_upper_bound; [lia|].
    replace (10 * 10 ^ Z.of_nat (k - 1)) with (10 ^ Z.of_nat k); [lia|].
    replace (Z.of_nat k) with (Z.succ (Z.of_nat (k - 1))) by lia.
    rewrite Z.pow_succ_r by lia. reflexivity. }
  specialize (IH ltac:(lia) Hd). lia.
Qed.

(** The placeholder SHA of a commit mark is 40 characters long: the mark
    in decimal behind zeros. *)
Lemma fake_sha_length (mark : Z) :
  0 <= mark < 2 ^ 31 ->
  setw_fill 40 "0"%char (to_string mark)
  = string_repeat (40 - String.length (to_string mark)) "0"%char ++ to_string mark
  /\ (String.length (to_string mark) <= 10)%nat
  /\ String.length (setw_fill 40 "0"%char (to_string mark)) = 40%nat.
Proof.
  intros Hm. split; [reflexivity|].
  assert (Hl : (String.length (to_string mark) <= 10)%nat).
  { unfold to_string. replace (mark <? 0) with false by (symmetry; apply Z.ltb_ge; lia).
    unfold nat_string.
    pose proof (digits_base_length (S (Z.to_nat (Z.log2 mark))) mark EmptyString 10) as H.
    simpl String.length in H. rewrite Nat.add_0_r in H. apply H; [lia|].
    change (10 ^ Z.of_nat 10) with 10000000000. change (2 ^ 31) with 2147483648 in Hm. lia. }
  split; [exact Hl|].
  unfold setw_fill. rewrite string_length_append, string_repeat_length. lia.
Qed.

(** The transaction [demandTransaction] hands out: the open one, or a
    fresh one. *)
Definition demanded_txn (branch_ svnprefix_ : string) (rev : Z) (r : Repository)
  : Transaction :=
  match sm_find branch_ (transactions r) with
  | Some t => t
  | None => mkTransaction branch_ svnprefix_ "" 0 "" rev [] [] ""
  end.

Lemma demandTransaction_txn branch_ svnprefix_ rev (r r1 : Repository) :
  demandTransaction options branch_ svnprefix_ rev r = Ok r1 ->
  txn branch_ r1 = demanded_txn branch_ svnprefix_ rev r
  /\ branches r1 = branches r /\ prefix r1 = prefix r.
Proof.
  unfold demandTransaction, demanded_txn, txn, om_value. intros H.
  destruct (sm_find branch_ (transactions r)) as [t|] eqn:Ef; inv_ok.
  - now rewrite Ef.
  - destruct (commit_interval options =? 0); inv_ok.
    match type of H with
    | (if ?c then _ else _) = _ => destruct c; inv_ok
    end.
    + apply startFastImport_core in E0.
      destruct E0 as (_ & Hp & _ & Hb & Ht & _). simpl in *.
      rewrite Ht, Hb, Hp, (om_find_insert _ string_compare_eq). auto.
    + simpl. rewrite (om_find_insert _ string_compare_eq). auto.
Qed.

(** [submoduleChanged] when it goes past its early return *)
Lemma submoduleChanged_effect child rule mark rev (r r' : Repository) :
  (mark =? 0) && negb (sm_contains (submodule_path child)
                         (submodules (branch_at (git_ref_name rule) r))) = false ->
  submoduleChanged options child rule mark rev r = Ok r' ->
  let ref := git_ref_name rule in
  let t0 := demanded_txn ref "" rev r in
  sm_find ref (transactions r')
  = Some (if mark =? 0 then deleteFile (submodule_path child) t0 r
          else updateSubmodule child mark t0)
  /\ submodules (branch_at ref r')
     = (if mark =? 0
        then sm_remove (submodule_path child) (submodules (branch_at ref r))
        else sm_insert (submodule_path child) (name child)
                       (submodules (branch_at ref r)))
  /\ lastSubmoduleListChangeRev (branch_at ref r') = rev.
Proof.
  intros Hgo. unfold submoduleChanged. rewrite branch_at_touch, Hgo.
  intros H. inv_ok. rename a into r1.
  apply demandTransaction_txn in E. destruct E as (Ht & Hb & Hp).
  set (ref := git_ref_name rule) in *.
  assert (Ht0 : txn ref r1 = demanded_txn ref "" rev r).
  { rewrite Ht. unfold demanded_txn. destruct (mark =? 0); reflexivity. }
  assert (Hbr : branch_at ref r1
                = set_submodules
                    (if mark =? 0
                     then sm_remove (submodule_path child) (submodules (branch_at ref r))
                     else sm_insert (submodule_path child) (name child)
                            (submodules (branch_at ref r)))
                    (branch_at ref r)).
  { unfold branch_at at 1. rewrite Hb.
    destruct (mark =? 0);
      match goal with
      | |- sm_value _ _ (branches (update_branch ?k ?f ?x)) = _ =>
          change (branch_at k (update_branch k f x) = set_submodules
                    (if _ then _ else _) (branch_at ref r)) ||
          fold (branch_at k (update_branch k f x))
      end; rewrite branch_at_update, branch_at_touch; reflexivity. }
  cbv zeta. rewrite branch_at_update.
  assert (Hst : branch_at ref (store_txn ref
                  (if mark =? 0 then deleteFile (submodule_path child) (txn ref r1) r1
                   else updateSubmodule child mark (txn ref r1)) r1)
                = branch_at ref r1) by reflexivity.
  rewrite Hst, Hbr. simpl.
  rewrite (om_find_insert _ string_compare_eq), Ht0.
  split; [|split; [destruct (mark =? 0)|]; reflexivity].
  f_equal. destruct (mark =? 0); [|reflexivity].
  unfold deleteFile. now rewrite Hp.
Qed.

(** [submoduleChanged] for a deletion of a submodule the branch does not
    hold: the early return. *)
Lemma submoduleChanged_absent child rule rev (r : Repository) :
  sm_contains (submodule_path child)
              (submodules (branch_at (git_ref_name rule) r)) = false ->
  submoduleChanged options child rule 0 rev r
  = Ok (touch_branch (git_ref_name rule) r).
Proof.
  intros H. unfold submoduleChanged. rewrite branch_at_touch, H. reflexivity.
Qed.

Lemma touch_branch_present (k : string) (r : Repository) :
  sm_contains k (branches r) = true -> touch_branch k r = r.
Proof.
  unfold touch_branch, om_touch, om_contains. intros H.
  destruct (sm_find k (branches r)); [|discriminate]. now destruct r.
Qed.

End WithOptions.

(** ** [Repository]: the claims *)

(** A small import, to run the operations on: revision 1 commits [a.txt] to
    master, revision 2 copies master to the branch [b], revision 3 deletes
    [b] and creates it again from master. *)
Module Examples.
Definition opts : Options := mkOptions false false false 10000.
Definition master : string := "refs/heads/master".
Definition b_rule : BranchRule :=
  mkBranchRule 0 0 "branches/b" "b" 2 "refs/heads/".
Definition start : Repository := create "repo" "" [] false.

Definition or_start (c : result Repository) : Repository :=
  match c with Ok r => r | Abort _ => start end.

Definition revision1 : result Repository :=
  let* r := demandTransaction opts master "trunk" 1 start in
  let* tr := addFile opts "a.txt" 33188 3 (txn master r) r in
  let r := store_txn master (fst tr) (snd tr) in
  let* r := prepare_commit opts 1 r in
  commit opts "author" 100 "first" r.

Definition revision2 : result Repository :=
  let* r := revision1 in
  let* w := createBranch opts b_rule 2 master 1 (None, r) in
  let* r := prepare_commit opts 2 (snd w) in
  commit opts "author" 200 "second" r.

Definition after_revision2 : Repository :=
  Eval vm_compute in or_start revision2.

Definition revision3 : result Repository :=
  let* w := deleteBranch opts b_rule 3 (None, after_revision2) in
  let* w := createBranch opts b_rule 3 master 2 w in
  prepare_commit opts 3 (snd w).

(** Another continuation: revision 3 commits to master again, revision 4
    copies master to the branch [c], and in revision 5 cvs2svn fills [c]
    with files copied from master at revisions 1 and 3. *)
Definition c_rule : BranchRule :=
  mkBranchRule 0 0 "branches/c" "c" 3 "refs/heads/".

Definition revision4 : result Repository :=
  let* r := demandTransaction opts master "trunk" 3 after_revision2 in
  let* tr := addFile opts "b.txt" 33188 3 (txn master r) r in
  let r := store_txn master (fst tr) (snd tr) in
  let* r := prepare_commit opts 3 r in
  let* r := commit opts "author" 300 "third" r in
  let* w := createBranch opts c_rule 4 master 3 (None, r) in
  let* r := prepare_commit opts 4 (snd w) in
  commit opts "author" 400 "fourth" r.

Definition after_revision4 : Repository :=
  Eval vm_compute in or_start revision4.

Definition cvs2svn_log : string :=
  "This commit was manufactured by cvs2svn to create branch 'c'.".

Definition revision5_open : result (Transaction * Repository) :=
  let* r := demandTransaction opts "refs/heads/c" "branches/c" 5
                              after_revision4 in
  let* tr := noteCopyFromBranch master 1 (txn "refs/heads/c" r) r in
  let* tr := noteCopyFromBranch master 3 (fst tr) (snd tr) in
  Ok (setLog cvs2svn_log (setDateTime 500 (setAuthor "author" (fst tr))),
      snd tr).

Definition revision5_txn : Transaction :=
  Eval vm_compute in
    match revision5_open with
    | Ok tr => fst tr
    | Abort _ => Transaction_default
    end.

Definition before_revision5_commit : Repository :=
  Eval vm_compute in
    match revision5_open with
    | Ok tr => snd tr
    | Abort _ => start
    end.

(** A repository mounted as the submodule [libs/child] of [repo]: its
    master reaches mark 7 in revision 6 and is deleted in revision 7. *)
Definition child : Repository := create "child" "libs/child" [] false.
Definition master_rule : BranchRule :=
  mkBranchRule 0 0 "trunk" "master" 1 "refs/heads/".

Definition revision6 : result Repository :=
  let* r := submoduleChanged opts child master_rule 7 6 after_revision4 in
  let* r := prepare_commit opts 6 r in
  commit opts "author" 600 "sixth" r.

Definition after_revision6 : Repository :=
  Eval vm_compute in or_start revision6.

(** The repository resumed from a log that holds the commits of revisions
    1 and 2 to master, with the marks 1 and 2, both in the marks file. *)
Definition resumed : Repository :=
  Eval vm_compute in
    snd (setupIncremental (Some [(1, master, 1); (2, master, 2)]) 2 100 start).

Definition revision3_txn : Transaction :=
  mkTransaction master "trunk" "author" 300 "third" 3 [] [] "".

(** A rule for a ref the repository has not seen. *)
Definition z_rule : BranchRule :=
  mkBranchRule 0 0 "branches/z" "z" 4 "refs/heads/".

(** Revision 3 creates the branch [c] from master twice, the second time
    from revision 0, before the first commit of master. *)
Definition created_c : option Repository * Repository :=
  Eval vm_compute in
    match createBranch opts c_rule 3 master 2 (None, after_revision2) with
    | Ok w => w
    | Abort _ => (None, start)
    end.

Definition created_c_again : option Repository * Repository :=
  Eval vm_compute in
    match createBranch opts c_rule 3 master 0 created_c with
    | Ok w => w
    | Abort _ => (None, start)
    end.

(** Revision 7 deletes the submodule [libs/child] on the ref of [z_rule],
    which holds no submodule. *)
Definition after_absent_deletion : Repository :=
  Eval vm_compute in
    or_start (submoduleChanged opts child z_rule 0 7 after_revision4).
End Examples.

(** C4, as the code has it. Commit marks come from [++last_commit_mark],
    which starts at 0 in a new repository and at the highest mark that
    [setupIncremental] took from the log in a resumed one; so the marks
    that the commits of a run recorded are exactly those above the value
    the run started with, up to [last_commit_mark], each once: 1, 2, ...,
    [last_commit_mark] when it started at 0.  File marks come from
    [next_file_mark--], starting at [maxMark] = 2^20 - 2.  Each allocation
    is guarded by [last_commit_mark + 1 < next_file_mark], read with the
    mark being taken (the file mark before its decrement, the commit mark
    after its increment), and aborts on an assertion otherwise; the two
    counters, apart at the start, never meet; [Repository::commit] ends
    with [next_file_mark] back at [maxMark]. *)
Theorem mark_allocation (options : Options) (r0 : Repository) (ms : list Z)
    (r : Repository) :
  run options r0 ms r ->
  (forall n p bs i,
      last_commit_mark (create n p bs i) = 0
      /\ next_file_mark (create n p bs i) = maxMark /\ maxMark = 2 ^ 20 - 2)
  /\ (forall lines lvm cutoff r1,
        last_commit_mark (snd (setupIncremental (Some lines) lvm cutoff r1))
        = fold_left Z.max (map snd (taken_lines lvm lines cutoff))
                    (last_commit_mark r1)
        /\ next_file_mark (snd (setupIncremental (Some lines) lvm cutoff r1))
           = next_file_mark r1
        /\ snd (setupIncremental None lvm cutoff r1) = r1)
  /\ (ms = marks_between (last_commit_mark r0) (last_commit_mark r)
      /\ NoDup ms
      /\ last_commit_mark r0 <= last_commit_mark r
      /\ (forall m, In m ms <-> last_commit_mark r0 < m <= last_commit_mark r)
      /\ (last_commit_mark r0 = 0 -> ms = marks_upto (last_commit_mark r)))
  /\ (last_commit_mark r0 < next_file_mark r0 -> next_file_mark r0 <= maxMark ->
      last_commit_mark r < next_file_mark r /\ next_file_mark r <= maxMark)
  /\ (forall t t' r',
        Transaction_commit options t r = Ok (t', r') ->
        last_commit_mark r' = last_commit_mark r + 1
        /\ last (marks (branch_at (branch t) r')) 0 = last_commit_mark r'
        /\ next_file_mark r' = next_file_mark r
        /\ last_commit_mark r' + 1 < next_file_mark r')
  /\ (forall t r1,
        startFastImport options r = Ok r1 ->
        ~ (last_commit_mark r + 1 + 1 < next_file_mark r) ->
        Transaction_commit options t r
        = Abort (AssertionFailed "mark < repository->next_file_mark - 1"))
  /\ (forall path mode len t t' r',
        addFile options path mode len t r = Ok (t', r') ->
        modifiedFiles t' =
          (modifiedFiles t ++ "M " ++ to_oct mode ++ " :"
           ++ to_string (next_file_mark r) ++ " " ++ (prefix r ++ path) ++ LF)%string
        /\ next_file_mark r' = next_file_mark r - 1
        /\ last_commit_mark r' = last_commit_mark r
        /\ last_commit_mark r + 1 < next_file_mark r)
  /\ (forall path mode len t,
        ~ (last_commit_mark r + 1 < next_file_mark r) ->
        addFile options path mode len t r
        = Abort (AssertionFailed "mark > repository->last_commit_mark + 1"))
  /\ (forall author_ epoch log_ r',
        commit options author_ epoch log_ r = Ok r' ->
        next_file_mark r' = maxMark
        /\ exists ms', run options r0 (ms ++ ms') r'
                       /\ List.length ms' = List.length (transactions r)).
Proof.
  intros Hrun.
  pose proof (counters_ok_run options _ _ _ Hrun) as (A & B & C).
  split; [intros n p bs i; destruct (create_counters n p bs i); auto|].
  split.
  { intros lines lvm cutoff r1.
    destruct (setupIncremental_appends lvm lines cutoff r1) as (L & N & _).
    auto. }
  split.
  { split; [exact A|]. split; [rewrite A; apply marks_between_NoDup|].
    split; [exact B|]. split; [intros m; rewrite A; apply marks_between_In|].
    intros H0. rewrite A, H0. apply marks_between_zero. }
  split; [exact C|]. split; [|split; [|split; [|split]]].
  - intros t t' r' H. apply Transaction_commit_marks in H.
    destruct H as (L & N & G & M & _). rewrite M, last_last. auto.
  - intros. eapply Transaction_commit_exhausted; eauto.
  - intros path mode len t t' r' H. apply addFile_marks in H. intuition.
  - intros. now apply addFile_exhausted.
  - intros author_ epoch log_ r' H. split.
    + unfold commit in H. inv_ok. reflexivity.
    + apply commit_is_run in H. destruct H as (ms' & Hr & Hlen).
      exists ms'. split; auto. eapply run_trans; eauto.
Qed.

Lemma mark_allocation_witness :
  exists ms r,
    run Examples.opts Examples.resumed ms r
    /\ last_commit_mark Examples.resumed = 2
    /\ ms = [3]
    /\ ms = marks_between 2 (last_commit_mark r)
    /\ last_commit_mark r < next_file_mark r.
Proof.
  destruct (Transaction_commit Examples.opts Examples.revision3_txn
              Examples.resumed)
    as [[t' r]|] eqn:E; [|vm_compute in E; discriminate].
  assert (Hrun : run Examples.opts Examples.resumed
                   ([] ++ [last (marks (branch_at
                                   (branch Examples.revision3_txn) r)) 0])%list r).
  { eapply run_step; [apply run_nil|].
    eapply step_Transaction_commit. exact E. }
  exists ([] ++ [last (marks (branch_at (branch Examples.revision3_txn) r)) 0])%list,
         r.
  pose proof (mark_allocation Examples.opts _ _ _ Hrun)
    as (_ & _ & (Hseq & _) & Hlt & _).
  split; [exact Hrun|]. split; [reflexivity|].
  split; [vm_compute in E; inversion E; subst; reflexivity|].
  split; [exact Hseq|].
  apply Hlt; vm_compute; [reflexivity | discriminate].
Defined.

(** C4, as the claim has it, fails on a resumed repository: the log holds
    the marks 1 and 2, [setupIncremental] leaves [last_commit_mark] at 2,
    and the one commit of the run takes the mark 3; the marks of the run
    are 3 alone, not 1, 2, 3. *)
Lemma resumed_run_starts_above_log :
  exists ms r,
    run Examples.opts Examples.resumed ms r
    /\ Examples.resumed
       = snd (setupIncremental
                (Some [(1, Examples.master, 1); (2, Examples.master, 2)])
                2 100 Examples.start)
    /\ last_commit_mark Examples.start = 0
    /\ ms = [3]
    /\ last_commit_mark r = 3
    /\ marks_upto (last_commit_mark r) = [1; 2; 3].
Proof.
  destruct (Transaction_commit Examples.opts Examples.revision3_txn
              Examples.resumed)
    as [[t' r]|] eqn:E; [|vm_compute in E; discriminate].
  exists ([] ++ [last (marks (branch_at (branch Examples.revision3_txn) r)) 0])%list,
         r.
  split.
  { eapply run_step; [apply run_nil|].
    eapply step_Transaction_commit. exact E. }
  vm_compute in E. inversion E; subst.
  repeat split; vm_compute; reflexivity.
Qed.

(** C9. In every branch the commits vector and the marks vector have the
    same length: it holds after construction and after resuming from a log,
    and every operation keeps it.  [resetBranch], [Transaction::commit] and
    [setupIncremental] append one revision to [commits] and one mark to
    [marks] of the same branch together, [setupIncremental] for each line
    of the log it takes in.  Under it the positional reads of [marks] in
    [markFrom] are within bounds: [markFrom] returns. *)
Theorem commits_marks_lockstep (options : Options) (r : Repository) :
  lockstep r ->
  (forall n p bs i, lockstep (create n p bs i))
  /\ (forall logfile lvm cutoff,
        lockstep (snd (setupIncremental logfile lvm cutoff r)))
  /\ (forall lines lvm cutoff k,
        commits (branch_at k (snd (setupIncremental (Some lines) lvm cutoff r)))
        = (commits (branch_at k r)
           ++ map (fun l => fst (fst l))
                  (lines_of k (taken_lines lvm lines cutoff)))%list
        /\ marks (branch_at k (snd (setupIncremental (Some lines) lvm cutoff r)))
           = (marks (branch_at k r)
              ++ map snd (lines_of k (taken_lines lvm lines cutoff)))%list)
  /\ (forall ms r', step options r ms r' -> lockstep r')
  /\ (forall ms r', run options r ms r' -> lockstep r')
  /\ (forall rule gitRefName rev mark resetTo comment super w',
        resetBranch options rule gitRefName rev mark resetTo comment (super, r)
        = Ok w' ->
        commits (branch_at gitRefName (snd w'))
        = (commits (branch_at gitRefName r) ++ [rev])%list
        /\ marks (branch_at gitRefName (snd w'))
           = (marks (branch_at gitRefName r) ++ [mark])%list)
  /\ (forall t t' r',
        Transaction_commit options t r = Ok (t', r') ->
        commits (branch_at (branch t) r')
        = (commits (branch_at (branch t) r) ++ [revnum t])%list
        /\ marks (branch_at (branch t) r')
           = (marks (branch_at (branch t) r) ++ [last_commit_mark r + 1])%list)
  /\ (forall k, List.length (commits (branch_at k r))
                = List.length (marks (branch_at k r)))
  /\ (forall branchFrom n desc,
        starts_with branchFrom "refs/" = true ->
        exists res, markFrom branchFrom n desc r = Ok res).
Proof.
  intros Hl.
  split; [intros; apply create_lockstep|].
  split; [intros; now apply setupIncremental_lockstep|].
  split; [intros lines lvm cutoff k;
          apply (setupIncremental_appends lvm lines cutoff r)|].
  split; [intros ms r' Hs; eapply step_lockstep; eauto|].
  split; [|split; [|split; [|split]]].
  - intros ms r' Hr. induction Hr; auto. eapply step_lockstep; eauto.
  - intros. eapply resetBranch_vectors in H. intuition eauto.
  - intros t t' r' H. apply Transaction_commit_marks in H. intuition.
  - intros k. apply (lockstep_branch_at k r Hl).
  - intros. now apply markFrom_in_bounds.
Qed.

Lemma commits_marks_lockstep_witness :
  lockstep Examples.after_revision4
  /\ commits (branch_at "refs/heads/master" Examples.after_revision4) = [1; 3]
  /\ marks (branch_at "refs/heads/master" Examples.after_revision4) = [1; 2]
  /\ (exists res,
        markFrom "refs/heads/master" 2 "" Examples.after_revision4 = Ok res
        /\ fst (fst res) = 1)
  /\ commits (branch_at "refs/heads/master"
                (snd (setupIncremental
                        (Some [(4, "refs/heads/master", 3);
                               (5, "refs/heads/c", 4)])
                        4 100 Examples.after_revision4)))
     = [1; 3; 4]
  /\ marks (branch_at "refs/heads/master"
              (snd (setupIncremental
                      (Some [(4, "refs/heads/master", 3);
                             (5, "refs/heads/c", 4)])
                      4 100 Examples.after_revision4)))
     = [1; 2; 3].
Proof.
  assert (H : lockstep Examples.after_revision4)
    by (unfold Examples.after_revision4; repeat constructor).
  destruct (commits_marks_lockstep Examples.opts Examples.after_revision4 H)
    as (_ & _ & Happ & _ & _ & _ & _ & _ & Hm).
  split; [exact H|]. split; [reflexivity|]. split; [reflexivity|].
  split.
  - destruct (Hm "refs/heads/master" 2 "") as (res & Hres); [reflexivity|].
    exists res. split; [exact Hres|].
    vm_compute in Hres. inversion Hres. reflexivity.
  - destruct (Happ [(4, "refs/heads/master", 3); (5, "refs/heads/c", 4)]
                   4 100 "refs/heads/master") as [Hc Hk].
    split; [rewrite Hc | rewrite Hk]; reflexivity.
Defined.

(** C1, as the code has it. Within one revision, a delete of [R] that
    arrives after a reset (creation) of [R] drops both: nothing is queued
    for [R].  A reset of [R] that arrives after a delete of [R] drops
    nothing: the delete stays queued, with the backup reset it was queued
    with ([backupCmd]), the reset is queued without a backup, and the next
    [prepare_commit] writes the queued deletions and then the queued
    resets. *)
Theorem reset_delete_same_revision (options : Options) (rule : BranchRule)
    (R : string) (rev m : Z) (resetTo comment resetTo0 comment0 : string)
    (super : option Repository) (r : Repository) :
  m <> 0 ->
  (forall w1 w2,
      resetBranch options rule R rev m resetTo comment (super, r) = Ok w1 ->
      resetBranch options rule R rev 0 resetTo0 comment0 w1 = Ok w2 ->
      sm_find R (resetBranches (snd w2)) = None
      /\ deletedBranches (snd w2) = deletedBranches r)
  /\ (forall w1 w2,
        sm_contains R (resetBranches r) = false ->
        resetBranch options rule R rev 0 resetTo0 comment0 (super, r) = Ok w1 ->
        resetBranch options rule R rev m resetTo comment w1 = Ok w2 ->
        sm_find R (deletedBranches (snd w2))
        = Some (sm_value "" R (deletedBranches r)
                ++ backupCmd (branch_at R r) true R rev
                ++ reset_cmd R rev 0 resetTo0 comment0)
        /\ sm_find R (resetBranches (snd w2))
           = Some (reset_cmd R rev m resetTo comment)
        /\ forall r3,
             prepare_commit options rev (snd w2) = Ok r3 ->
             deletedBranches r3 = [] /\ resetBranches r3 = []
             /\ exists pre,
                  fastImport r3
                  = (fastImport (snd w2) ++ pre
                     ++ om_values (deletedBranches (snd w2))
                     ++ om_values (resetBranches (snd w2)))%list).
Proof.
  intros Hm. apply Z.eqb_neq in Hm. split.
  - intros [s1 r1] w2 H1 H2.
    pose proof (resetBranch_queues _ _ _ _ _ _ _ _ _ _ H1) as Q1.
    pose proof (resetBranch_queues _ _ _ _ _ _ _ _ _ _ H2) as Q2.
    cbv zeta in Q1, Q2. rewrite Hm in Q1. simpl in Q1, Q2.
    destruct Q1 as [D1 R1].
    rewrite R1, (om_contains_insert _ string_compare_eq) in Q2.
    destruct Q2 as [R2 D2]. rewrite R2, D2, D1.
    split; [apply om_find_remove | reflexivity].
  - intros [s1 r1] w2 Hc H1 H2.
    pose proof (resetBranch_queues _ _ _ _ _ _ _ _ _ _ H1) as Q1.
    pose proof (resetBranch_queues _ _ _ _ _ _ _ _ _ _ H2) as Q2.
    pose proof (resetBranch_vectors _ _ _ _ _ _ _ _ _ _ H1) as (_ & _ & L1).
    cbv zeta in Q1, Q2. rewrite Hm in Q2. simpl in Q1, Q2, L1.
    rewrite Hc in Q1. destruct Q1 as [R1 D1]. destruct Q2 as [D2 R2].
    assert (Hb : backupCmd (branch_at R r1) false R rev = "").
    { unfold backupCmd. rewrite L1, Z.eqb_refl, andb_false_r. reflexivity. }
    assert (Hv : sm_value "" R (resetBranches r) = "").
    { unfold om_contains in Hc. unfold om_value.
      destruct (sm_find R (resetBranches r)); [discriminate | reflexivity]. }
    rewrite Hb, R1, Hv in R2. simpl in R2.
    rewrite D2, D1, R2.
    split; [apply om_find_insert, string_compare_eq|].
    split; [apply om_find_insert, string_compare_eq|].
    intros r3 H3. apply prepare_commit_stream in H3.
    + rewrite D2, D1, R2 in H3. exact H3.
    + right. rewrite R2. apply om_insert_not_nil.
Qed.

Lemma reset_delete_same_revision_witness :
  1 <> 0
  /\ exists w1 w2,
       resetBranch Examples.opts Examples.b_rule "refs/heads/b" 3 0 null_sha
                   "delete" (None, Examples.after_revision2) = Ok w1
       /\ resetBranch Examples.opts Examples.b_rule "refs/heads/b" 3 1 ":1"
                      "from branch refs/heads/master" w1 = Ok w2
       /\ sm_find "refs/heads/b" (deletedBranches (snd w2))
          = Some ("reset refs/tags/backups/b@3" ++ LF ++ "from refs/heads/b"
                  ++ LF ++ LF
                  ++ reset_cmd "refs/heads/b" 3 0 null_sha "delete")
       /\ sm_find "refs/heads/b" (resetBranches (snd w2))
          = Some (reset_cmd "refs/heads/b" 3 1 ":1"
                            "from branch refs/heads/master").
Proof.
  split; [lia|].
  destruct (resetBranch Examples.opts Examples.b_rule "refs/heads/b" 3 0
              null_sha "delete" (None, Examples.after_revision2))
    as [w1|] eqn:E1; [|vm_compute in E1; discriminate].
  destruct (resetBranch Examples.opts Examples.b_rule "refs/heads/b" 3 1 ":1"
              "from branch refs/heads/master" w1)
    as [w2|] eqn:E2;
    [|vm_compute in E1; inversion E1; subst; vm_compute in E2; discriminate].
  exists w1, w2. split; [reflexivity|]. split; [exact E2|].
  destruct (reset_delete_same_revision Examples.opts Examples.b_rule
              "refs/heads/b" 3 1 ":1" "from branch refs/heads/master"
              null_sha "delete" None Examples.after_revision2) as [_ HB];
    [lia|].
  destruct (HB w1 w2) as (HD & HR & _); [reflexivity | exact E1 | exact E2 |].
  split; [exact HD | exact HR].
Defined.

(** C1, as the claim has it, fails: revision 3 deletes the branch [b] and
    creates it again, and [prepare_commit] writes the backup reset and the
    delete command before the final reset. *)
Lemma delete_then_create_keeps_delete :
  exists r3,
    Examples.revision3 = Ok r3
    /\ skipn (List.length (fastImport Examples.after_revision2)) (fastImport r3)
       = [ "reset refs/tags/backups/b@3" ++ LF ++ "from refs/heads/b" ++ LF ++ LF
           ++ reset_cmd "refs/heads/b" 3 0 null_sha "delete";
           reset_cmd "refs/heads/b" 3 1 ":1"
                     "from branch refs/heads/master at r2 => r1" ].
Proof.
  eexists. split; vm_compute; reflexivity.
Qed.

(** C5, as the code has it. [createBranch] looks up, on [branchFrom], the
    mark of the closest commit at or before [branchRevNum].  When
    [branchFrom] never had a commit it throws.  Otherwise it records the
    revision and the mark for the new branch and hands the reset to
    [resetBranch].  When the mark is not zero, the reset to [:<mark>] is
    queued with the resets.  When the mark is zero (a deleted branch, or no
    commit that early), the reset to the ref name [branchFrom] itself, its
    comment ending in "deleted/unknown", is treated as a delete: it is
    queued with the deletions, unless a reset of the new branch is queued
    already, in which case that reset is dropped and nothing is queued.
    The next [prepare_commit] writes what is queued, deletions first. *)
Theorem createBranch_spec (options : Options) (rule : BranchRule) (rev : Z)
    (branchFrom : string) (branchRevNum : Z) (super : option Repository)
    (r : Repository) :
  starts_with (git_ref_name rule) "refs/" = true ->
  starts_with branchFrom "refs/" = true ->
  lockstep r ->
  StronglySorted Z.le (commits (branch_at branchFrom r)) ->
  Forall (Z.le 0) (marks (branch_at branchFrom r)) ->
  (commits (branch_at branchFrom r) = []
   \/ lastChangeRev (branch_at branchFrom r) = neverChanged ->
   exists msg,
     createBranch options rule rev branchFrom branchRevNum (super, r)
     = Abort (RuntimeError msg))
  /\ (commits (branch_at branchFrom r) <> [] ->
      lastChangeRev (branch_at branchFrom r) <> neverChanged ->
      exists m desc,
        (exists r1,
            markFrom branchFrom branchRevNum ("from branch " ++ branchFrom) r
            = Ok (m, desc, r1))
        /\ closest (commits (branch_at branchFrom r))
                   (marks (branch_at branchFrom r)) branchRevNum m
        /\ (exists suffix, desc = "from branch " ++ branchFrom ++ suffix)
        /\ (exists w',
               createBranch options rule rev branchFrom branchRevNum (None, r)
               = Ok w')
        /\ forall w',
             createBranch options rule rev branchFrom branchRevNum (super, r)
             = Ok w' ->
             commits (branch_at (git_ref_name rule) (snd w'))
             = (commits (branch_at (git_ref_name rule) r) ++ [rev])%list
             /\ marks (branch_at (git_ref_name rule) (snd w'))
                = (marks (branch_at (git_ref_name rule) r) ++ [m])%list
             /\ (m <> 0 ->
                 deletedBranches (snd w') = deletedBranches r
                 /\ resetBranches (snd w')
                    = sm_insert (git_ref_name rule)
                        (sm_value "" (git_ref_name rule) (resetBranches r)
                         ++ backupCmd (branch_at (git_ref_name rule) r) false
                                      (git_ref_name rule) rev
                         ++ reset_cmd (git_ref_name rule) rev m
                                      (":" ++ to_string m) desc)
                        (resetBranches r))
             /\ (m = 0 ->
                 sm_contains (git_ref_name rule) (resetBranches r) = false ->
                 resetBranches (snd w') = resetBranches r
                 /\ deletedBranches (snd w')
                    = sm_insert (git_ref_name rule)
                        (sm_value "" (git_ref_name rule) (deletedBranches r)
                         ++ backupCmd (branch_at (git_ref_name rule) r) true
                                      (git_ref_name rule) rev
                         ++ reset_cmd (git_ref_name rule) rev 0 branchFrom
                                      (desc ++ ", deleted/unknown"))
                        (deletedBranches r))
             /\ (m = 0 ->
                 sm_contains (git_ref_name rule) (resetBranches r) = true ->
                 resetBranches (snd w')
                 = sm_remove (git_ref_name rule) (resetBranches r)
                 /\ deletedBranches (snd w') = deletedBranches r)
             /\ (forall r3,
                   prepare_commit options rev (snd w') = Ok r3 ->
                   deletedBranches (snd w') <> []
                   \/ resetBranches (snd w') <> [] ->
                   deletedBranches r3 = [] /\ resetBranches r3 = []
                   /\ exists pre,
                        fastImport r3
                        = (fastImport (snd w') ++ pre
                           ++ om_values (deletedBranches (snd w'))
                           ++ om_values (resetBranches (snd w')))%list)).
Proof.
  intros H1 H2 Hl Hs Hpos. split.
  - intros Hnone.
    assert (Hm : markFrom branchFrom branchRevNum ("from branch " ++ branchFrom) r
                 = Ok (-1, "from branch " ++ branchFrom, touch_branch branchFrom r)).
    { destruct Hnone; [now apply markFrom_never | now apply markFrom_neverChanged]. }
    rewrite (createBranch_unfold options _ _ _ _ _ _ _ _ _ H1 H2 Hm). simpl. eauto.
  - intros Hne Hch.
    destruct (markFrom_in_bounds branchFrom branchRevNum
                ("from branch " ++ branchFrom) r Hl H2) as ([[m desc] r1] & Hm).
    exists m, desc. split; [exists r1; exact Hm|].
    pose proof (markFrom_closest _ _ _ _ _ _ _ Hl Hs Hne Hch Hm) as Hc.
    split; [exact Hc|].
    pose proof (closest_nonneg _ _ _ _ Hpos Hc) as Hge.
    destruct (markFrom_reads _ _ _ _ _ _ _ Hm)
      as (Hb & Hrq & Hdq & _ & (suffix & Hd)).
    split; [exists suffix; rewrite Hd; apply string_append_assoc|].
    assert (Hminus : (m =? -1) = false) by (apply Z.eqb_neq; lia).
    split.
    { rewrite (createBranch_unfold options _ _ _ _ None _ _ _ _ H1 H2 Hm).
      rewrite Hminus. unfold resetBranch. rewrite H1.
      destruct (m =? 0); cbn [bind assert]; eexists; reflexivity. }
    intros w' H.
    rewrite (createBranch_unfold options _ _ _ _ _ _ _ _ _ H1 H2 Hm), Hminus in H.
    set (B := git_ref_name rule) in *.
    set (nn := note (branch_at branchFrom r1)) in *.
    destruct (Z.eqb_spec m 0) as [Hz|Hz].
    + subst m.
      pose proof (resetBranch_vectors options _ _ _ _ _ _ _ _ _ H) as (V1 & V2 & _).
      pose proof (resetBranch_queues options _ _ _ _ _ _ _ _ _ H) as Q.
      cbv zeta in Q. cbn [Z.eqb] in Q.
      rewrite branch_at_update in V1, V2, Q.
      change (branch_at B (warn ?s r1)) with (branch_at B r1) in V1, V2, Q.
      rewrite Hb in V1, V2, Q. rewrite backupCmd_set_note in Q.
      change (resetBranches (update_branch B ?f (warn ?s r1)))
        with (resetBranches r1) in Q.
      change (deletedBranches (update_branch B ?f (warn ?s r1)))
        with (deletedBranches r1) in Q.
      rewrite Hrq, Hdq in Q.
      split; [exact V1|]. split; [exact V2|].
      split; [intros Hn; now contradiction Hn|].
      split; [intros _ Hc0; rewrite Hc0 in Q; exact Q|].
      split; [intros _ Hc1; rewrite Hc1 in Q; exact Q|].
      intros r3 H3 Hq. now apply (prepare_commit_stream options rev).
    + pose proof (resetBranch_vectors options _ _ _ _ _ _ _ _ _ H) as (V1 & V2 & _).
      pose proof (resetBranch_queues options _ _ _ _ _ _ _ _ _ H) as Q.
      cbv zeta in Q. apply Z.eqb_neq in Hz. rewrite Hz in Q.
      apply Z.eqb_neq in Hz.
      rewrite branch_at_update in V1, V2, Q.
      rewrite Hb in V1, V2, Q. rewrite backupCmd_set_note in Q.
      change (resetBranches (update_branch B ?f r1))
        with (resetBranches r1) in Q.
      change (deletedBranches (update_branch B ?f r1))
        with (deletedBranches r1) in Q.
      rewrite Hrq, Hdq in Q.
      split; [exact V1|]. split; [exact V2|].
      split; [intros _; exact Q|].
      split; [intros Hn; now contradiction Hz|].
      split; [intros Hn; now contradiction Hz|].
      intros r3 H3 Hq. now apply (prepare_commit_stream options rev).
Qed.

Lemma createBranch_spec_witness :
  exists w',
    createBranch Examples.opts Examples.b_rule 3 Examples.master 2
                 (None, Examples.after_revision2) = Ok w'
    /\ marks (branch_at "refs/heads/b" (snd w')) = [1; 1]
    /\ sm_find "refs/heads/b" (resetBranches (snd w'))
       = Some ("reset refs/backups/r3/heads/b" ++ LF ++ "from refs/heads/b"
               ++ LF ++ LF
               ++ reset_cmd "refs/heads/b" 3 1 ":1"
                    "from branch refs/heads/master at r2 => r1").
Proof.
  destruct (createBranch_spec Examples.opts Examples.b_rule 3 Examples.master 2
              None Examples.after_revision2) as [_ H].
  - reflexivity.
  - reflexivity.
  - repeat constructor.
  - repeat constructor.
  - repeat constructor. vm_compute. discriminate.
  - destruct H as (m & desc & (r1 & Hm) & _ & _ & (w' & Hw) & Hall).
    + vm_compute. discriminate.
    + vm_compute. discriminate.
    + assert (Hmd : m = 1 /\ desc = "from branch refs/heads/master at r2 => r1")
        by (vm_compute in Hm; inversion Hm; auto).
      destruct Hmd as [-> ->].
      destruct (Hall w' Hw) as (_ & Hk & Hq & _).
      exists w'. split; [exact Hw|].
      split; [etransitivity; [exact Hk | reflexivity]|].
      destruct Hq as [_ Hq]; [lia|].
      etransitivity; [apply (f_equal (sm_find "refs/heads/b")); exact Hq|].
      vm_compute. reflexivity.
Defined.

(** C5, as the claim has it, fails for a mark of zero when a reset of the
    new branch is queued already: revision 3 creates the branch [c] from
    master, then creates it again from master at revision 0, before the
    first commit of master; the mark is zero, the reset queued for [c] is
    dropped, nothing is queued in its place, and [prepare_commit] writes
    nothing: [c] is reset neither to the ref name of master nor at all. *)
Lemma createBranch_from_unknown_cancels_reset :
  createBranch Examples.opts Examples.c_rule 3 Examples.master 2
               (None, Examples.after_revision2) = Ok Examples.created_c
  /\ sm_find "refs/heads/c" (resetBranches (snd Examples.created_c))
     = Some (reset_cmd "refs/heads/c" 3 1 ":1"
               "from branch refs/heads/master at r2 => r1")
  /\ fst (fst (match markFrom Examples.master 0
                              ("from branch " ++ Examples.master)
                              (snd Examples.created_c) with
               | Ok res => res
               | Abort _ => (-1, "", Examples.start)
               end)) = 0
  /\ createBranch Examples.opts Examples.c_rule 3 Examples.master 0
                  Examples.created_c = Ok Examples.created_c_again
  /\ resetBranches (snd Examples.created_c_again) = []
  /\ deletedBranches (snd Examples.created_c_again) = []
  /\ prepare_commit Examples.opts 3 (snd Examples.created_c_again)
     = Ok (snd Examples.created_c_again)
  /\ fastImport (snd Examples.created_c_again)
     = fastImport Examples.after_revision2.
Proof.
  split; [vm_compute; reflexivity|].
  split; [vm_compute; reflexivity|].
  split; [vm_compute; reflexivity|].
  split; [vm_compute; reflexivity|].
  split; [vm_compute; reflexivity|].
  split; [vm_compute; reflexivity|].
  split; vm_compute; reflexivity.
Qed.




(** C7. When the log message contains "This commit was manufactured by
    cvs2svn" and more than one merge mark is recorded, the commit writes
    exactly one merge line, for the highest recorded mark; no other
    recorded mark reaches the stream. *)
Theorem cvs2svn_single_merge (options : Options) (t : Transaction)
    (r : Repository) (t' : Transaction) (r' : Repository) :
  contains_substring (log t) "This commit was manufactured by cvs2svn" = true ->
  (1 < List.length (merges t))%nat ->
  Transaction_commit options t r = Ok (t', r') ->
  exists r0 mx notes,
    startFastImport options r = Ok r0
    /\ fastImport r'
       = (fastImport r0
          ++ commit_header options t (last_commit_mark r + 1)
          :: merge_line mx
          :: commit_deletions t
          ++ modifiedFiles t
          :: commit_progress t (last_commit_mark r + 1) ""
          :: notes)%list
    /\ merge_line mx = "merge :" ++ to_string mx ++ LF
    /\ ((add_metadata_notes options = false /\ notes = [])
        \/ (add_metadata_notes options = true
            /\ exists s, notes = [s]
                         /\ starts_with s "commit refs/notes/commits" = true))
    /\ In mx (merges t)
    /\ Forall (fun m => m <= mx) (merges t)
    /\ merges t' = removelast (qSort (merges t)).
Proof.
  intros Hlog Hlen H.
  assert (Hcvs : is_cvs2svn_commit t = true).
  { unfold is_cvs2svn_commit, cvs2svn_marker. rewrite Hlog. simpl.
    apply Z.ltb_lt. lia. }
  apply Transaction_commit_stream in H.
  destruct H as (r0 & pm & desc & notes & Hs & Hp & Hf & Hn & Hc).
  unfold commit_parent_marks in Hf. rewrite Hcvs in Hf, Hc.
  destruct Hc as [Hm ->].
  assert (Hne : merges t <> []) by (destruct (merges t); simpl in *; [lia | discriminate]).
  destruct (qSort_last_max (merges t) Hne) as [Hin Hmax].
  exists r0, (last (qSort (merges t)) 0), notes.
  repeat split; auto.
Qed.

Lemma cvs2svn_single_merge_witness :
  exists t' r' r0,
    Transaction_commit Examples.opts Examples.revision5_txn
                       Examples.before_revision5_commit = Ok (t', r')
    /\ fastImport r'
       = (fastImport r0
          ++ [ commit_header Examples.opts Examples.revision5_txn 3;
               merge_line 2;
               "";
               commit_progress Examples.revision5_txn 3 "" ])%list.
Proof.
  destruct (Transaction_commit Examples.opts Examples.revision5_txn
              Examples.before_revision5_commit) as [[t' r']|] eqn:E;
    [|vm_compute in E; discriminate].
  destruct (cvs2svn_single_merge Examples.opts Examples.revision5_txn
              Examples.before_revision5_commit t' r')
    as (r0 & mx & notes & _ & Hf & _ & Hn & Hin & Hmax & _).
  - reflexivity.
  - simpl. lia.
  - exact E.
  - destruct Hn as [[_ ->] | (Hn & _)]; [|discriminate Hn].
    assert (mx = 2).
    { simpl in Hin, Hmax. inversion Hmax as [|? ? _ Hmax']; subst.
      inversion Hmax' as [|? ? H2 _]; subst.
      destruct Hin as [<- | [<- | []]]; lia. }
    subst mx. exists t', r', r0. split; [reflexivity | exact Hf].
Defined.

(** C8, as the code has it. For a mark that is not zero, [submoduleChanged]
    maps the submodule path to the child in the submodules of the branch,
    demands the transaction of the ref, and queues in it the gitlink line
    [M 160000 <sha> <path>], where [<sha>] is the mark in decimal behind
    zeros, 40 characters in all.  For the mark zero and a path the branch
    holds, it erases the entry, demands the transaction and queues the
    deletion of the path instead; no gitlink line is queued.  Both set the
    revision of the last change of the submodule list. *)
Theorem submoduleChanged_spec (options : Options) (child : Repository)
    (rule : BranchRule) (mark rev : Z) (r r' : Repository) :
  0 <= mark < 2 ^ 31 ->
  (mark = 0 ->
   sm_contains (submodule_path child)
               (submodules (branch_at (git_ref_name rule) r)) = true) ->
  submoduleChanged options child rule mark rev r = Ok r' ->
  let ref := git_ref_name rule in
  let path := submodule_path child in
  let t0 := demanded_txn ref "" rev r in
  lastSubmoduleListChangeRev (branch_at ref r') = rev
  /\ (mark <> 0 ->
      submodules (branch_at ref r')
      = sm_insert path (name child) (submodules (branch_at ref r))
      /\ sm_find path (submodules (branch_at ref r')) = Some (name child)
      /\ exists t' sha,
           sm_find ref (transactions r') = Some t'
           /\ modifiedFiles t'
              = modifiedFiles t0 ++ "M 160000 " ++ sha ++ " " ++ path ++ LF
           /\ deletedFiles t' = deletedFiles t0
           /\ sha = string_repeat (40 - String.length (to_string mark)) "0"%char
                    ++ to_string mark
           /\ String.length sha = 40%nat)
  /\ (mark = 0 ->
      submodules (branch_at ref r')
      = sm_remove path (submodules (branch_at ref r))
      /\ sm_find path (submodules (branch_at ref r')) = None
      /\ exists t',
           sm_find ref (transactions r') = Some t'
           /\ modifiedFiles t' = modifiedFiles t0
           /\ deletedFiles t' = deletedFiles (deleteFile path t0 r)).
Proof.
  intros Hm Hpresent H. cbv zeta.
  assert (Hgo : (mark =? 0)
                && negb (sm_contains (submodule_path child)
                           (submodules (branch_at (git_ref_name rule) r))) = false).
  { destruct (Z.eqb_spec mark 0) as [E|E]; [|reflexivity].
    now rewrite (Hpresent E). }
  destruct (submoduleChanged_effect options _ _ _ _ _ _ Hgo H) as (Ht & Hs & Hl).
  split; [exact Hl|]. split.
  - intros Hnz. apply Z.eqb_neq in Hnz. rewrite Hnz in Ht, Hs.
    split; [exact Hs|]. split; [rewrite Hs; apply om_find_insert, string_compare_eq|].
    destruct (fake_sha_length mark Hm) as (Hsha & _ & Hlen).
    eexists. exists (setw_fill 40 "0"%char (to_string mark)).
    split; [exact Ht|]. repeat split; auto.
  - intros ->. simpl in Ht, Hs.
    split; [exact Hs|]. split; [rewrite Hs; apply om_find_remove|].
    eexists. split; [exact Ht|]. split; reflexivity.
Qed.

Lemma submoduleChanged_spec_witness :
  exists r' t',
    submoduleChanged Examples.opts Examples.child Examples.master_rule 7 6
                     Examples.after_revision4 = Ok r'
    /\ sm_find "refs/heads/master" (transactions r') = Some t'
    /\ modifiedFiles t'
       = "M 160000 0000000000000000000000000000000000000007 libs/child" ++ LF.
Proof.
  destruct (submoduleChanged Examples.opts Examples.child Examples.master_rule
              7 6 Examples.after_revision4) as [r'|] eqn:E;
    [|vm_compute in E; discriminate].
  destruct (submoduleChanged_spec Examples.opts Examples.child
              Examples.master_rule 7 6 Examples.after_revision4 r')
    as (_ & Hset & _);
    [split; [lia | reflexivity] | discriminate | exact E |].
  destruct Hset as (_ & _ & t' & sha & Ht & Hm & _ & Hsha & _); [lia|].
  exists r', t'. split; [reflexivity|]. split; [exact Ht|].
  rewrite Hm, Hsha. reflexivity.
Defined.

(** C8, as the claim has it, fails for the mark zero: revision 7 deletes
    the master of the child, whose path the super-repository holds since
    revision 6, and the transaction of the super-repository gets the
    deletion of [libs/child] and no gitlink line. *)
Lemma submodule_deletion_queues_no_gitlink :
  exists r' t',
    submoduleChanged Examples.opts Examples.child Examples.master_rule 0 7
                     Examples.after_revision6 = Ok r'
    /\ sm_find "libs/child"
         (submodules (branch_at "refs/heads/master" Examples.after_revision6))
       = Some "child"
    /\ sm_find "refs/heads/master" (transactions r') = Some t'
    /\ modifiedFiles t' = ""
    /\ deletedFiles t' = ["libs/child"]
    /\ sm_find "libs/child" (submodules (branch_at "refs/heads/master" r'))
       = None.
Proof.
  eexists. eexists. repeat split; vm_compute; reflexivity.
Qed.

(** C10, as the code has it. A deletion ([mark] zero) of a submodule whose
    path the branch does not hold returns at once: no transaction is
    created, nothing is written or queued, every branch reads as before
    (its submodules and the revision of the last change of its submodule
    list in particular), and nothing else of the repository changes.  It
    is no-op only for a ref the repository holds: [branches[ref]] runs
    before the early return and makes a default entry for a ref the
    repository did not hold, so that [branchExists] answers yes for it
    from then on. *)
Theorem submoduleChanged_absent_noop (options : Options) (child : Repository)
    (rule : BranchRule) (rev : Z) (r : Repository) :
  sm_contains (submodule_path child)
              (submodules (branch_at (git_ref_name rule) r)) = false ->
  exists r',
    submoduleChanged options child rule 0 rev r = Ok r'
    /\ transactions r' = transactions r
    /\ fastImport r' = fastImport r
    /\ (forall k, branch_at k r' = branch_at k r)
    /\ r' = set_branches (branches r') r
    /\ (sm_contains (git_ref_name rule) (branches r) = true -> r' = r)
    /\ (sm_contains (git_ref_name rule) (branches r) = false ->
        branches r' = sm_insert (git_ref_name rule) Branch_default (branches r))
    /\ branchExists (git_ref_name rule) r' = true.
Proof.
  intros H. exists (touch_branch (git_ref_name rule) r).
  split; [now apply submoduleChanged_absent|].
  split; [reflexivity|]. split; [reflexivity|].
  split; [intros k; apply branch_at_touch|].
  split; [reflexivity|]. split; [apply touch_branch_present|].
  unfold branchExists, touch_branch, om_touch, om_contains.
  cbn [branches set_branches].
  destruct (sm_find (git_ref_name rule) (branches r)) as [b|] eqn:E.
  - split; [discriminate|]. now rewrite E.
  - split; [reflexivity|].
    now rewrite (om_find_insert _ string_compare_eq).
Qed.

Lemma submoduleChanged_absent_noop_witness :
  submoduleChanged Examples.opts Examples.child Examples.master_rule 0 5
                   Examples.after_revision4 = Ok Examples.after_revision4.
Proof.
  destruct (submoduleChanged_absent_noop Examples.opts Examples.child
              Examples.master_rule 5 Examples.after_revision4)
    as (r' & H & _ & _ & _ & _ & Hsame & _); [reflexivity|].
  rewrite H. f_equal. apply Hsame. reflexivity.
Defined.

(** C10, as the claim has it, fails for a ref the repository does not
    hold: the deletion of [libs/child] on [refs/heads/z] returns early,
    and yet the repository holds a branch more than before, the default
    entry of [refs/heads/z], and [branchExists] has turned to yes. *)
Lemma absent_submodule_deletion_adds_branch :
  submoduleChanged Examples.opts Examples.child Examples.z_rule 0 7
                   Examples.after_revision4
  = Ok Examples.after_absent_deletion
  /\ sm_contains "libs/child"
       (submodules (branch_at "refs/heads/z" Examples.after_revision4))
     = false
  /\ om_keys (branches Examples.after_revision4)
     = ["refs/heads/b"; "refs/heads/c"; "refs/heads/master"]
  /\ om_keys (branches Examples.after_absent_deletion)
     = ["refs/heads/b"; "refs/heads/c"; "refs/heads/master"; "refs/heads/z"]
  /\ branchExists "refs/heads/z" Examples.after_revision4 = false
  /\ branchExists "refs/heads/z" Examples.after_absent_deletion = true.
Proof.
  split; [vm_compute; reflexivity|].
  split; [vm_compute; reflexivity|].
  split; [vm_compute; reflexivity|].
  split; [vm_compute; reflexivity|].
  split; vm_compute; reflexivity.
Qed.

End RepositoryFacts.

(** ** [git_repository]: properties *)

Module GitRepositoryFacts.
Import GitRepository.

Lemma zm_cmp_eq (a b : Z) : Z.compare a b = Eq <-> a = b.
Proof. apply Z.compare_eq_iff. Qed.

Lemma ref_at_update (p : Z) (f : ref -> ref) (g : git_repository) :
  ref_at p (update_ref p f g) = f (ref_at p g).
Proof.
  unfold ref_at at 1. unfold update_ref, om_value. simpl.
  now rewrite (om_find_insert _ zm_cmp_eq).
Qed.

Lemma ref_at_update_ne (p q : Z) (f : ref -> ref) (g : git_repository) :
  q <> p -> ref_at q (update_ref p f g) = ref_at q g.
Proof.
  intros H. unfold ref_at, update_ref, om_value. simpl.
  now rewrite (om_find_insert_ne _ zm_cmp_eq).
Qed.

(** a field that [f] leaves alone reads the same at every ref *)
Lemma ref_at_update_proj {A : Type} (proj : ref -> A) (p q : Z)
    (f : ref -> ref) (g : git_repository) :
  (forall r, proj (f r) = proj r) ->
  proj (ref_at q (update_ref p f g)) = proj (ref_at q g).
Proof.
  intros H. destruct (Z.eq_dec q p) as [->|Hne].
  - now rewrite ref_at_update.
  - now rewrite ref_at_update_ne.
Qed.

(** *** Commit elision *)

Lemma close_commit_matching (discover : bool) (response : string)
    (super : option git_repository) (g : git_repository) (c : Z) :
  defer_close discover g = false ->
  current_ref g = Some c ->
  (41 <= String.length response)%nat ->
  back_is_tab response = true ->
  new_sha_of response = head_tree_sha (ref_at c g) ->
  close_commit discover response (super, g)
  = let* _ := assert (2 <=? List.length (marks (ref_at c g)))%nat
                     "current_ref->marks.size() >= 2" in
    let g1 := update_ref c (fun r => set_marks (removelast (marks r)) r) g in
    let g2 := write (fi_reset (name (ref_at c g1))
                              (snd (last (marks (ref_at c g1)) (0, 0)))) g1 in
    let g3 := update_ref c (set_head_tree_sha (new_sha_of response)) g2 in
    let g4 := set_current_ref None
                (set_modified_refs
                   (filter (fun p => negb (p =? c)) (modified_refs g3)) g3) in
    Ok (match modified_refs g4 with [] => true | _ => false end,
        (option_map (fun s => set_modified_submodule_refs
                                (modified_submodule_refs s - 1) s) super, g4)).
Proof.
  intros Hd Hc Hlen Htab Hsha. unfold close_commit. rewrite Hd, Hc.
  replace (String.length response <? 41)%nat with false
    by (symmetry; apply Nat.ltb_ge; lia).
  rewrite Htab. cbn [assert bind]. rewrite Hsha, String.eqb_refl.
  destruct (2 <=? List.length (marks (ref_at c g)))%nat; reflexivity.
Qed.

(** A small import, to run the operations on: revision 1 commits to master,
    revision 3 opens a commit on master that changes no file. *)
Module GitExamples.
Definition sha_a : string := "4b825dc642cb6eb9a060e54bf8d69288fbee4904".
Definition response_a : string := "040000 tree " ++ sha_a ++ TAB.
Definition master : Z := 1.
Definition rev1 : revision := mkRevision 1 "author" 100 "first".
Definition rev3 : revision := mkRevision 3 "author" 300 "third".

Definition start : git_repository :=
  mkGit "repo.git" [(master, ref_new "refs/heads/master")] false 0 0 None
        [master] [] [].

Definition or_start (c : result git_repository) : git_repository :=
  match c with Ok g => g | Abort _ => start end.

Definition revision1 : result git_repository :=
  let* g := open_commit rev1 start in
  let g := prepare_to_close_commit false g in
  let* res := close_commit false response_a (None, g) in
  Ok (snd (snd res)).

(** master is dirty again in revision 3 and its commit is opened *)
Definition revision3_open : result git_repository :=
  let* g := revision1 in
  let* g := open_commit rev3 (set_modified_refs [master] g) in
  Ok (prepare_to_close_commit false g).

Definition revision3_opened : git_repository :=
  Eval vm_compute in or_start revision3_open.
End GitExamples.

(** C3. When the tree SHA that [close_commit] reads back equals the
    [head_tree_sha] of the ref, the commit just opened is elided: the last
    entry of [marks] is erased, a reset of the ref to the mark of the entry
    now last is written, and [last_mark] stays as it is.  The elision
    asserts that [marks] holds at least two entries: with fewer,
    [close_commit] aborts. *)
Theorem close_commit_elides (discover : bool) (response : string)
    (super : option git_repository) (g : git_repository) (c : Z) :
  defer_close discover g = false ->
  current_ref g = Some c ->
  (41 <= String.length response)%nat ->
  back_is_tab response = true ->
  new_sha_of response = head_tree_sha (ref_at c g) ->
  ((2 <= List.length (marks (ref_at c g)))%nat ->
   exists b super' g',
     close_commit discover response (super, g) = Ok (b, (super', g'))
     /\ marks (ref_at c g') = removelast (marks (ref_at c g))
     /\ fast_import g'
        = (fast_import g
           ++ [fi_reset (name (ref_at c g))
                        (snd (last (removelast (marks (ref_at c g))) (0, 0)))])%list
     /\ last_mark g' = last_mark g
     /\ head_tree_sha (ref_at c g') = head_tree_sha (ref_at c g)
     /\ current_ref g' = None
     /\ ~ In c (modified_refs g'))
  /\ ((List.length (marks (ref_at c g)) < 2)%nat ->
      close_commit discover response (super, g)
      = Abort (AssertionFailed "current_ref->marks.size() >= 2")).
Proof.
  intros Hd Hc Hlen Htab Hsha.
  rewrite (close_commit_matching _ _ _ _ _ Hd Hc Hlen Htab Hsha).
  split; intros Hm.
  - replace (2 <=? List.length (marks (ref_at c g)))%nat with true
      by (symmetry; apply Nat.leb_le; lia).
    cbn [assert bind]. cbv zeta.
    eexists. eexists. eexists. split; [reflexivity|].
    cbn [current_ref last_mark fast_import modified_refs set_current_ref
         set_modified_refs].
    split; [|split; [|split; [|split; [|split]]]].
    + unfold ref_at at 1. cbn [refs set_current_ref set_modified_refs].
      fold (ref_at c (update_ref c (set_head_tree_sha (new_sha_of response))
              (write (fi_reset (name (ref_at c (update_ref c
                        (fun r => set_marks (removelast (marks r)) r) g)))
                        (snd (last (marks (ref_at c (update_ref c
                           (fun r => set_marks (removelast (marks r)) r) g)))
                           (0, 0))))
                 (update_ref c (fun r => set_marks (removelast (marks r)) r) g)))).
      rewrite ref_at_update. cbn [marks set_head_tree_sha].
      change (ref_at c (write ?s ?x)) with (ref_at c x).
      now rewrite ref_at_update.
    + rewrite !ref_at_update. reflexivity.
    + reflexivity.
    + unfold ref_at at 1. cbn [refs set_current_ref set_modified_refs].
      match goal with
      | |- head_tree_sha (zm_value _ c (refs (update_ref c ?f ?x))) = _ =>
          change (head_tree_sha (ref_at c (update_ref c f x))
                  = head_tree_sha (ref_at c g))
      end.
      rewrite ref_at_update. cbn [head_tree_sha set_head_tree_sha]. exact Hsha.
    + reflexivity.
    + intros Hin. apply filter_In in Hin. destruct Hin as [_ Hin].
      now rewrite Z.eqb_refl in Hin.
  - replace (2 <=? List.length (marks (ref_at c g)))%nat with false
      by (symmetry; apply Nat.leb_gt; lia).
    reflexivity.
Qed.

Lemma close_commit_elides_witness :
  exists g',
    close_commit false GitExamples.response_a (None, GitExamples.revision3_opened)
    = Ok (true, (None, g'))
    /\ marks (ref_at GitExamples.master GitExamples.revision3_opened)
       = [(1, 1); (3, 2)]
    /\ marks (ref_at GitExamples.master g') = [(1, 1)]
    /\ fast_import g'
       = List.app (fast_import GitExamples.revision3_opened)
                  ["reset refs/heads/master" ++ LF ++ "from :1" ++ LF ++ LF]
    /\ last_mark g' = 2.
Proof.
  destruct (close_commit_elides false GitExamples.response_a None
              GitExamples.revision3_opened GitExamples.master)
    as [H _]; try reflexivity.
  - vm_compute. lia.
  - destruct H as (b & super' & g' & Hclose & Hmarks & Hout & Hlast & _).
    + vm_compute. lia.
    + assert (Hb : b = true /\ super' = None).
      { vm_compute in Hclose. inversion Hclose. auto. }
      destruct Hb as [-> ->].
      exists g'. split; [exact Hclose|]. split; [reflexivity|].
      split; [rewrite Hmarks; reflexivity|].
      split; [rewrite Hout; reflexivity|].
      rewrite Hlast. reflexivity.
Defined.

(** *** Pending merges *)

(** The invariant of a [std::map]: keys in strictly ascending order. *)
Definition zm_sorted {V : Type} (m : list (Z * V)) : Prop :=
  StronglySorted (fun a b => fst a < fst b) m.

Lemma zm_floor_None {V : Type} (k : Z) (m : list (Z * V)) :
  zm_sorted m -> zm_floor k m = None -> forall e, In e m -> k < fst e.
Proof.
  induction 1 as [|[k' v'] m Hs IH Hk]; simpl; intros Hf e He; [contradiction|].
  destruct (Z.compare_spec k k') as [E|E|E].
  - destruct (zm_floor k m); discriminate.
  - destruct He as [<-|He]; [exact E|].
    rewrite Forall_forall in Hk. specialize (Hk _ He). simpl in Hk. lia.
  - destruct (zm_floor k m); discriminate.
Qed.

Lemma zm_floor_Some {V : Type} (k : Z) (m : list (Z * V)) (e : Z * V) :
  zm_sorted m -> zm_floor k m = Some e ->
  In e m /\ fst e <= k /\ forall e', In e' m -> fst e' <= k -> fst e' <= fst e.
Proof.
  induction 1 as [|[k' v'] m Hs IH Hk]; simpl; intros Hf; [discriminate|].
  assert (Hge : k' <= k -> 
                match zm_floor k m with Some e0 => Some e0 | None => Some (k', v') end
                = Some e ->
                ((k', v') = e \/ In e m) /\ fst e <= k
                /\ forall e', (k', v') = e' \/ In e' m -> fst e' <= k -> fst e' <= fst e).
  { intros Hle Hm. destruct (zm_floor k m) as [e0|] eqn:E0.
    - inversion Hm; subst e0. destruct (IH eq_refl) as (Hin & Hlek & Hmax).
      split; [now right|]. split; [exact Hlek|].
      intros e' [<-|He'] Hle'; [|now apply Hmax].
      rewrite Forall_forall in Hk. specialize (Hk _ Hin). simpl in *. lia.
    - inversion Hm; subst e. split; [now left|]. split; [exact Hle|].
      intros e' [<-|He'] Hle'; [simpl; lia|].
      pose proof (zm_floor_None k m Hs E0 e' He'). lia. }
  destruct (Z.compare_spec k k') as [E|E|E]; [|discriminate|];
    apply Hge; auto; lia.
Qed.

Lemma zm_insert_sorted {V : Type} (k : Z) (v : V) (m : list (Z * V)) :
  zm_sorted m -> zm_sorted (zm_insert k v m).
Proof.
  induction 1 as [|[k' v'] m Hs IH Hk]; simpl; [repeat constructor|].
  destruct (Z.compare_spec k k') as [E|E|E].
  - subst. constructor; auto.
  - constructor; [constructor; auto|].
    constructor; [simpl; lia|].
    rewrite Forall_forall in *. intros e He. specialize (Hk _ He). simpl in *. lia.
  - constructor; [exact IH|].
    rewrite Forall_forall in *. intros e He.
    apply om_insert_In in He. destruct He as [->|He]; [simpl; lia | auto].
Qed.

(** The mark [write_merges] merges for the pending pair ([src_ref],
    [src_rev]), read off the marks of [src_ref] and the revision of
    [src_ref] merged so far; [None] when it writes no merge line. *)
Definition merge_target (src_marks : list (Z * Z)) (merged_rev src_rev : Z)
  : option Z :=
  if src_rev >? merged_rev
  then option_map snd (zm_floor src_rev src_marks)
  else None.

Definition merge_chunk (g : git_repository) (c : Z) (kv : Z * Z) : list string :=
  match merge_target (marks (ref_at (fst kv) g))
                     (zm_value 0 (fst kv) (merged_revisions (ref_at c g)))
                     (snd kv) with
  | Some m => ["merge :" ++ to_string m ++ LF]
  | None => []
  end.

Definition no_commit_warning (g : git_repository) (kv : Z * Z) : string :=
  "No commit found at or preceding the source of merge r"
  ++ to_string (snd kv) ++ " in Git repo " ++ git_dir g ++ " ref "
  ++ name (ref_at (fst kv) g).

(** [same_history g g']: the marks and the names of all refs, and the
    pending merges, are the same in [g] and [g']. *)
Definition same_history (g g' : git_repository) : Prop :=
  git_dir g' = git_dir g
  /\ forall s, marks (ref_at s g') = marks (ref_at s g)
               /\ name (ref_at s g') = name (ref_at s g)
               /\ pending_merges (ref_at s g') = pending_merges (ref_at s g)
               /\ pending_deletions (ref_at s g') = pending_deletions (ref_at s g).

Lemma same_history_refl g : same_history g g.
Proof. unfold same_history. auto. Qed.

Lemma same_history_trans g1 g2 g3 :
  same_history g1 g2 -> same_history g2 g3 -> same_history g1 g3.
Proof.
  intros [A1 B1] [A2 B2]. split; [congruence|]. intros s.
  destruct (B1 s) as (? & ? & ? & ?), (B2 s) as (? & ? & ? & ?).
  repeat split; congruence.
Qed.

Lemma same_history_merged c f (g : git_repository) :
  same_history g (update_ref c (fun r => set_merged_revisions (f r) r) g).
Proof.
  split; [reflexivity|]. intros s.
  repeat split;
    match goal with
    | |- ?proj (ref_at _ _) = _ =>
        apply (ref_at_update_proj proj); reflexivity
    end.
Qed.

Lemma same_history_write (x : string) (g : git_repository) :
  same_history g (write x g).
Proof. split; [reflexivity|]. intros s. repeat split. Qed.

Lemma same_history_report (x : string) (g : git_repository) :
  same_history g (report x g).
Proof. split; [reflexivity|]. intros s. repeat split. Qed.

Lemma merged_at_update c f (g : git_repository) :
  merged_revisions (ref_at c (update_ref c (fun r => set_merged_revisions (f r) r) g))
  = f (ref_at c g).
Proof. now rewrite ref_at_update. Qed.

(** one turn of the loop of [write_merges] *)
Lemma write_merge_spec (c : Z) (g : git_repository) (kv : Z * Z) :
  let g' := write_merge c g kv in
  let merged := merged_revisions (ref_at c g) in
  let target := merge_target (marks (ref_at (fst kv) g))
                             (zm_value 0 (fst kv) merged) (snd kv) in
  same_history g g'
  /\ fast_import g' = (fast_import g ++ merge_chunk g c kv)%list
  /\ (forall s, s <> fst kv ->
        zm_value 0 s (merged_revisions (ref_at c g')) = zm_value 0 s merged)
  /\ zm_value 0 (fst kv) (merged_revisions (ref_at c g'))
     = (match target with
        | Some _ => snd kv
        | None => zm_value 0 (fst kv) merged
        end)
  /\ messages g'
     = (messages g
        ++ if (snd kv >? zm_value 0 (fst kv) merged)
              && match zm_floor (snd kv) (marks (ref_at (fst kv) g)) with
                 | None => true
                 | Some _ => false
                 end
           then [no_commit_warning g kv] else [])%list.
Proof.
  destruct kv as [s rev]. unfold write_merge, merge_chunk, merge_target.
  cbn [fst snd].
  set (g1 := update_ref c
               (fun r => set_merged_revisions (zm_touch 0 s (merged_revisions r)) r) g).
  assert (H1 : same_history g g1) by apply same_history_merged.
  assert (Hv1 : forall q, zm_value 0 q (merged_revisions (ref_at c g1))
                          = zm_value 0 q (merged_revisions (ref_at c g))).
  { intros q. unfold g1. rewrite ref_at_update. cbn [merged_revisions set_merged_revisions].
    apply om_value_touch, zm_cmp_eq. }
  destruct H1 as [Hd1 Hr1]. destruct (Hr1 s) as (Hm1 & Hn1 & _).
  rewrite Hv1, Hm1.
  destruct (rev >? zm_value 0 s (merged_revisions (ref_at c g))) eqn:Eq.
  - destruct (zm_floor rev (marks (ref_at s g))) as [[k m]|] eqn:Ef.
    + cbn [option_map snd andb].
      set (g2 := write ("merge :" ++ to_string m ++ LF) g1).
      split.
      { eapply same_history_trans; [split; [exact Hd1 | exact Hr1]|].
        eapply same_history_trans;
          [|apply (same_history_merged c (fun r => zm_insert s rev (merged_revisions r)))].
        apply same_history_write. }
      split; [reflexivity|]. rewrite ref_at_update.
      cbn [merged_revisions set_merged_revisions].
      change (ref_at c g2) with (ref_at c g1).
      split; [|split].
      * intros q Hq. unfold om_value.
        rewrite (om_find_insert_ne _ zm_cmp_eq) by exact Hq. apply Hv1.
      * unfold om_value. now rewrite (om_find_insert _ zm_cmp_eq).
      * cbn [messages update_ref set_refs g2 write]. unfold g1. cbn.
        now rewrite app_nil_r.
    + cbn [option_map andb].
      split; [eapply same_history_trans;
                [split; [exact Hd1 | exact Hr1] | apply same_history_report]|].
      split; [cbn; now rewrite app_nil_r|].
      split; [intros q _; apply Hv1|]. split; [apply Hv1|].
      unfold no_commit_warning. cbn [fst snd messages report].
      rewrite Hd1, Hn1. reflexivity.
  - cbn [andb]. split; [split; [exact Hd1 | exact Hr1]|].
    split; [cbn; now rewrite app_nil_r|].
    split; [intros q _; apply Hv1|]. split; [apply Hv1|].
    cbn. now rewrite app_nil_r.
Qed.

Lemma flat_map_ext_In {A B : Type} (f h : A -> list B) (l : list A) :
  (forall a, In a l -> f a = h a) -> flat_map f l = flat_map h l.
Proof.
  induction l as [|a l IH]; intros H; simpl; [reflexivity|].
  rewrite (H a) by now left. f_equal. apply IH. intros b Hb. apply H. now right.
Qed.

(** the loop of [write_merges] over the pending merges [l], all of
    different source refs *)
Lemma write_merges_loop (c : Z) (l : list (Z * Z)) (g : git_repository) :
  NoDup (map fst l) ->
  let g' := fold_left (write_merge c) l g in
  let merged s := zm_value 0 s (merged_revisions (ref_at c g)) in
  let merged' s := zm_value 0 s (merged_revisions (ref_at c g')) in
  same_history g g'
  /\ fast_import g' = (fast_import g ++ flat_map (merge_chunk g c) l)%list
  /\ (forall s, ~ In s (map fst l) -> merged' s = merged s)
  /\ (forall s n, In (s, n) l ->
        merged' s = match merge_target (marks (ref_at s g)) (merged s) n with
                    | Some _ => n
                    | None => merged s
                    end)
  /\ (forall s n, In (s, n) l -> (n >? merged s) = true ->
        zm_floor n (marks (ref_at s g)) = None ->
        In (no_commit_warning g (s, n)) (messages g'))
  /\ exists ws, messages g' = (messages g ++ ws)%list.
Proof.
  revert g. induction l as [|kv l IH]; intros g Hnd; cbn zeta.
  - simpl. rewrite app_nil_r. split; [apply same_history_refl|].
    repeat split; try contradiction; auto. exists []. now rewrite app_nil_r.
  - simpl in Hnd. inversion Hnd as [|? ? Hnotin Hnd']; subst.
    cbn [fold_left].
    destruct (write_merge_spec c g kv) as (SH1 & F1 & Vne1 & Veq1 & M1).
    set (g1 := write_merge c g kv) in *.
    destruct (IH g1 Hnd') as (SH & F & Vout & Vin & W & (ws & Msg)).
    set (g' := fold_left (write_merge c) l g1) in *.
    assert (Hkey : forall s n, In (s, n) l -> s <> fst kv).
    { intros s n Hin E. apply Hnotin. subst. apply (in_map fst) in Hin. exact Hin. }
    assert (Hsame : forall s n, In (s, n) l ->
              marks (ref_at s g1) = marks (ref_at s g)
              /\ zm_value 0 s (merged_revisions (ref_at c g1))
                 = zm_value 0 s (merged_revisions (ref_at c g))).
    { intros s n Hin. split; [apply SH1 | apply Vne1; eauto]. }
    split; [eapply same_history_trans; eauto|].
    split; [|split; [|split; [|split]]].
    + rewrite F, F1. cbn [flat_map]. rewrite <- app_assoc. f_equal. f_equal.
      apply flat_map_ext_In. intros [s n] Hin. unfold merge_chunk. cbn [fst snd].
      destruct (Hsame s n Hin) as [-> ->]. reflexivity.
    + intros s Hs. cbn [map] in Hs.
      rewrite Vout by (intros Hin; apply Hs; now right).
      apply Vne1. intros E. apply Hs. now left.
    + intros s n [->|Hin].
      * cbn [fst snd] in *. rewrite Vout by exact Hnotin. exact Veq1.
      * rewrite (Vin s n Hin). destruct (Hsame s n Hin) as [-> ->]. reflexivity.
    + intros s n [->|Hin] Hq Hf.
      * cbn [fst snd] in *. rewrite Msg, M1, Hq, Hf. cbn [andb].
        apply in_or_app. left. apply in_or_app. right. now left.
      * destruct (Hsame s n Hin) as [Hm Hv].
        assert (Hw : no_commit_warning g1 (s, n) = no_commit_warning g (s, n)).
        { unfold no_commit_warning. cbn [fst snd].
          destruct SH1 as [Hd Hr]. destruct (Hr s) as (_ & Hn & _).
          now rewrite Hd, Hn. }
        rewrite <- Hw. apply (W s n Hin); [now rewrite Hv | now rewrite Hm].
    + rewrite Msg, M1, <- app_assoc. eauto.
Qed.

(** the deletions loop of [open_commit] *)
Lemma open_deletions_spec (c : Z) (ps : list string) (g : git_repository) :
  let g' := fold_left (open_deletion c) ps g in
  fast_import g' = (fast_import g ++ map fi_filedelete ps)%list
  /\ messages g' = messages g
  /\ merged_revisions (ref_at c g') = merged_revisions (ref_at c g)
  /\ pending_merges (ref_at c g') = pending_merges (ref_at c g).
Proof.
  revert g. induction ps as [|p ps IH]; intros g; cbn zeta; simpl.
  - rewrite app_nil_r. auto.
  - destruct (IH (open_deletion c g p)) as (F & M & V & P).
    rewrite F, M, V, P. unfold open_deletion.
    destruct (has_submodules (write (fi_filedelete p) g) && String.eqb p "").
    + rewrite !ref_at_update. simpl. rewrite <- app_assoc. auto.
    + simpl. rewrite <- app_assoc. auto.
Qed.

(** [begin_commit] touches the marks of the ref it opens, and nothing else
    of the merge bookkeeping. *)
Lemma begin_commit_spec (rev : revision) (c : Z) (g : git_repository) :
  let g1 := begin_commit rev c g in
  merged_revisions (ref_at c g1) = merged_revisions (ref_at c g)
  /\ pending_merges (ref_at c g1) = pending_merges (ref_at c g)
  /\ pending_deletions (ref_at c g1) = pending_deletions (ref_at c g)
  /\ marks (ref_at c g1)
     = zm_insert (rev_revnum rev) (last_mark g + 1) (marks (ref_at c g))
  /\ (forall s, s <> c -> marks (ref_at s g1) = marks (ref_at s g))
  /\ last_mark g1 = last_mark g + 1.
Proof.
  cbn zeta. unfold begin_commit.
  set (g0 := set_last_mark (last_mark (set_current_ref (Some c) g) + 1)
               (set_current_ref (Some c) g)).
  assert (H0 : forall s, ref_at s g0 = ref_at s g) by reflexivity.
  set (f := fun r => set_marks (zm_insert (rev_revnum rev)
                        (last_mark (set_current_ref (Some c) g) + 1) (marks r)) r).
  assert (Hw : forall s x y, ref_at s (write x (write y (update_ref c f g0)))
                             = ref_at s (update_ref c f g0)) by reflexivity.
  rewrite !Hw, ref_at_update, H0.
  repeat split.
  intros s Hs. now rewrite Hw, ref_at_update_ne, H0.
Qed.

Lemma record_ancestor_max (d : Z) (src_ref_name : string) (n : Z)
    (g : git_repository) :
  let s := fst (demand_ref src_ref_name g) in
  let gs := snd (demand_ref src_ref_name g) in
  zm_value 0 s (pending_merges (ref_at d (record_ancestor d src_ref_name n g)))
  = Z.max n (zm_value 0 s (pending_merges (ref_at d gs))).
Proof.
  cbn zeta. unfold record_ancestor.
  destruct (demand_ref src_ref_name g) as [s gs]. cbn [fst snd].
  set (g1 := update_ref d
               (fun r => set_pending_merges (zm_touch 0 s (pending_merges r)) r) gs).
  assert (Hv : zm_value 0 s (pending_merges (ref_at d g1))
               = zm_value 0 s (pending_merges (ref_at d gs))).
  { unfold g1. rewrite ref_at_update. cbn [pending_merges set_pending_merges].
    apply om_value_touch, zm_cmp_eq. }
  destruct (zm_value 0 s (pending_merges (ref_at d g1)) <? n) eqn:E.
  - rewrite ref_at_update. cbn [pending_merges set_pending_merges].
    unfold om_value at 1. rewrite (om_find_insert _ zm_cmp_eq).
    apply Z.ltb_lt in E. lia.
  - apply Z.ltb_ge in E. rewrite Hv in *. lia.
Qed.

Lemma refs_marks_sorted (g : git_repository) :
  Forall (fun kv => zm_sorted (marks (snd kv))) (refs g) ->
  forall s, zm_sorted (marks (ref_at s g)).
Proof.
  intros H s. unfold ref_at, om_value.
  destruct (om_find Z.compare s (refs g)) as [r|] eqn:E.
  - apply (om_find_In _ zm_cmp_eq) in E.
    rewrite Forall_forall in H. apply (H _ E).
  - constructor.
Qed.

(** Two small imports, to run the merges on.  In the first, master has the
    commit of revision 1 and a new branch records it as an ancestor; in the
    second, the branch records revision 5 of a master that has no commit
    yet. *)
Module MergeExamples.
Definition branch : Z := 2.

Definition with_branch (g : git_repository) : git_repository :=
  set_modified_refs [branch] (snd (demand_ref "refs/heads/branch" g)).

Definition merge_start : git_repository :=
  Eval vm_compute in
    record_ancestor branch "refs/heads/master" 1
      (with_branch (GitExamples.or_start GitExamples.revision1)).

Definition merge_opened : git_repository :=
  Eval vm_compute in
    GitExamples.or_start (open_commit GitExamples.rev3 merge_start).

Definition early_start : git_repository :=
  Eval vm_compute in
    record_ancestor branch "refs/heads/master" 5
      (with_branch (set_modified_refs [] GitExamples.start)).
End MergeExamples.

(** C2, as the code has it. [record_ancestor] leaves the larger of the
    revision it is given and the revision already pending for the source
    ref.  The next [open_commit] of the ref writes, after the commit header
    and for each pending pair ([src_ref], [src_rev]) with [src_rev] above
    the revision merged so far, one [merge] line for the mark of the last
    entry of the marks of [src_ref] at or before [src_rev], and sets the
    merged revision to [src_rev]; when there is no such entry it logs a
    warning, writes no line and leaves the merged revision as it was.  The
    pending merges are empty afterwards. *)
Theorem pending_merges_written (rev : revision) (g : git_repository) (d : Z)
    (g' : git_repository) :
  current_ref g = None ->
  modified_refs g <> [] ->
  last (modified_refs g) 0 = d ->
  NoDup (om_keys (pending_merges (ref_at d g))) ->
  (forall s, zm_sorted (marks (ref_at s g))) ->
  open_commit rev g = Ok g' ->
  let g1 := begin_commit rev d g in
  let pending := pending_merges (ref_at d g) in
  let merged s := zm_value 0 s (merged_revisions (ref_at d g)) in
  let merged' s := zm_value 0 s (merged_revisions (ref_at d g')) in
  (forall src_ref_name n,
     zm_value 0 (fst (demand_ref src_ref_name g))
       (pending_merges (ref_at d (record_ancestor d src_ref_name n g)))
     = Z.max n (zm_value 0 (fst (demand_ref src_ref_name g))
                  (pending_merges (ref_at d (snd (demand_ref src_ref_name g))))))
  /\ fast_import g'
     = (fast_import g1 ++ flat_map (merge_chunk g1 d) pending
        ++ map fi_filedelete (pending_deletions (ref_at d g)))%list
  /\ pending_merges (ref_at d g') = []
  /\ (forall s n, In (s, n) pending ->
        (merged s < n ->
         match zm_floor n (marks (ref_at s g1)) with
         | Some (k, m) =>
             merge_chunk g1 d (s, n) = ["merge :" ++ to_string m ++ LF]
             /\ In (k, m) (marks (ref_at s g1)) /\ k <= n
             /\ (forall k' m', In (k', m') (marks (ref_at s g1)) ->
                               k' <= n -> k' <= k)
             /\ merged' s = n
         | None =>
             merge_chunk g1 d (s, n) = []
             /\ In (no_commit_warning g1 (s, n)) (messages g')
             /\ merged' s = merged s
         end)
        /\ (n <= merged s ->
            merge_chunk g1 d (s, n) = [] /\ merged' s = merged s))
  /\ (forall s, ~ In s (om_keys pending) -> merged' s = merged s).
Proof.
  intros Hcur Hne Hlast Hnd Hsorted Hopen. cbv zeta.
  split; [intros; apply record_ancestor_max|].
  unfold open_commit in Hopen. rewrite Hcur in Hopen.
  destruct (modified_refs g) as [|m0 ms] eqn:Em; [congruence|].
  cbn [List.length Nat.eqb negb assert bind] in Hopen. rewrite Hlast in Hopen.
  destruct (begin_commit_spec rev d g) as (B1 & B2 & B3 & B4 & B5 & _).
  set (g1 := begin_commit rev d g) in *.
  assert (Hs1 : forall s, zm_sorted (marks (ref_at s g1))).
  { intros s. destruct (Z.eq_dec s d) as [->|Hsd].
    - rewrite B4. apply zm_insert_sorted, Hsorted.
    - rewrite B5 by exact Hsd. apply Hsorted. }
  unfold write_merges in Hopen.
  assert (Hnd1 : NoDup (map fst (pending_merges (ref_at d g1)))) by (rewrite B2; exact Hnd).
  destruct (write_merges_loop d (pending_merges (ref_at d g1)) g1 Hnd1)
    as (SH & F & Vout & Vin & W & _).
  set (g2 := fold_left (write_merge d) (pending_merges (ref_at d g1)) g1) in *.
  set (g3 := update_ref d (set_pending_merges []) g2) in *.
  assert (H3 : merged_revisions (ref_at d g3) = merged_revisions (ref_at d g2)
               /\ pending_deletions (ref_at d g3) = pending_deletions (ref_at d g)
               /\ fast_import g3 = fast_import g2 /\ messages g3 = messages g2).
  { unfold g3. rewrite ref_at_update. destruct SH as [_ SH].
    destruct (SH d) as (_ & _ & _ & Hpd). cbn. rewrite Hpd, B3. auto. }
  destruct H3 as (M3 & D3 & F3 & Msg3).
  destruct (open_deletions_spec d (pending_deletions (ref_at d g3)) g3)
    as (F4 & Msg4 & M4 & P4).
  set (g4 := fold_left (open_deletion d) (pending_deletions (ref_at d g3)) g3) in *.
  inversion Hopen as [Hg']. clear Hopen.
  assert (Hm' : merged_revisions (ref_at d (update_ref d (set_pending_deletions []) g4))
                = merged_revisions (ref_at d g2)).
  { rewrite ref_at_update. cbn [merged_revisions set_pending_deletions].
    now rewrite M4, M3. }
  rewrite Hm'.
  assert (Hmsg : messages (update_ref d (set_pending_deletions []) g4) = messages g2).
  { cbn [messages update_ref set_refs]. now rewrite Msg4, Msg3. }
  split; [|split; [|split]].
  - cbn [fast_import update_ref set_refs]. rewrite F4, F3, F, D3, B2.
    now rewrite <- app_assoc.
  - rewrite ref_at_update. cbn [pending_merges set_pending_deletions].
    rewrite P4. unfold g3. now rewrite ref_at_update.
  - intros s n Hin. rewrite <- B2 in Hin.
    pose proof (Vin s n Hin) as Hv. rewrite B1 in Hv.
    unfold merge_chunk. cbn [fst snd]. rewrite B1.
    unfold merge_target in *. split.
    + intros Hlt.
      assert (Hq : (n >? zm_value 0 s (merged_revisions (ref_at d g))) = true)
        by (apply Z.gtb_lt; exact Hlt).
      rewrite Hq in *.
      destruct (zm_floor n (marks (ref_at s g1))) as [[k m]|] eqn:Ef.
      * cbn [option_map snd] in *.
        destruct (zm_floor_Some n _ _ (Hs1 s) Ef) as (Hi & Hk & Hmax).
        split; [reflexivity|]. split; [exact Hi|]. split; [exact Hk|].
        split; [|exact Hv].
        intros k' m' Hi' Hk'. apply (Hmax (k', m') Hi' Hk').
      * cbn [option_map] in *. split; [reflexivity|]. split; [|exact Hv].
        rewrite Hmsg. apply (W s n Hin); [rewrite B1; exact Hq | exact Ef].
    + intros Hle.
      assert (Hq : (n >? zm_value 0 s (merged_revisions (ref_at d g))) = false).
      { destruct (Z.gtb_spec n (zm_value 0 s (merged_revisions (ref_at d g)))); [lia | reflexivity]. }
      rewrite Hq in *. split; [reflexivity | exact Hv].
  - intros s Hs. rewrite Vout by (rewrite B2; exact Hs). now rewrite B1.
Qed.

Lemma pending_merges_written_witness :
  open_commit GitExamples.rev3 MergeExamples.merge_start
  = Ok MergeExamples.merge_opened
  /\ pending_merges (ref_at MergeExamples.branch MergeExamples.merge_start)
     = [(GitExamples.master, 1)]
  /\ fast_import MergeExamples.merge_opened
     = List.app (fast_import (begin_commit GitExamples.rev3 MergeExamples.branch
                                MergeExamples.merge_start))
                ["merge :1" ++ LF]
  /\ pending_merges (ref_at MergeExamples.branch MergeExamples.merge_opened) = []
  /\ zm_value 0 GitExamples.master
       (merged_revisions (ref_at MergeExamples.branch MergeExamples.merge_opened))
     = 1.
Proof.
  assert (Hopen : open_commit GitExamples.rev3 MergeExamples.merge_start
                  = Ok MergeExamples.merge_opened) by (vm_compute; reflexivity).
  destruct (pending_merges_written GitExamples.rev3 MergeExamples.merge_start
              MergeExamples.branch MergeExamples.merge_opened)
    as (_ & Hout & Hclear & Hpairs & _).
  - reflexivity.
  - discriminate.
  - reflexivity.
  - vm_compute. repeat constructor. intros [].
  - apply refs_marks_sorted. vm_compute. repeat constructor.
  - exact Hopen.
  - split; [exact Hopen|]. split; [reflexivity|].
    split; [rewrite Hout; reflexivity|]. split; [exact Hclear|].
    destruct (Hpairs GitExamples.master 1) as [Hnew _]; [now left|].
    apply Hnew. reflexivity.
Defined.

(** C2, as the claim has it, fails for a pair whose source ref has no
    commit at or before the revision: the branch has revision 5 of master
    pending, above the revision 0 merged so far, master has no mark, and
    after [open_commit] the warning is logged, no merge line is written and
    the merged revision of master is still 0, not 5. *)
Lemma skipped_merge_keeps_merged_revision :
  exists g',
    open_commit GitExamples.rev3 MergeExamples.early_start = Ok g'
    /\ pending_merges (ref_at MergeExamples.branch MergeExamples.early_start)
       = [(GitExamples.master, 5)]
    /\ zm_value 0 GitExamples.master
         (merged_revisions (ref_at MergeExamples.branch MergeExamples.early_start))
       = 0
    /\ marks (ref_at GitExamples.master MergeExamples.early_start) = []
    /\ fast_import g'
       = fast_import (begin_commit GitExamples.rev3 MergeExamples.branch
                        MergeExamples.early_start)
    /\ messages g'
       = ["No commit found at or preceding the source of merge r5"
          ++ " in Git repo repo.git ref refs/heads/master"]
    /\ pending_merges (ref_at MergeExamples.branch g') = []
    /\ zm_value 0 GitExamples.master
         (merged_revisions (ref_at MergeExamples.branch g'))
       = 0.
Proof.
  eexists. repeat split; vm_compute; reflexivity.
Qed.

End GitRepositoryFacts.

(** * The rest of the exporter

    ** The files and the process cache of a [Repository]
    (src/repository.cpp) *)

Module RepositoryFiles.
Import Repository.

(** [name.replace(before, after)] on the characters of a name.  A slash is
    one byte in UTF-8 and no part of a longer sequence, so replacing it in
    the [QString] and in the bytes of the [std::string] is the same. *)
Fixpoint replace_char (before after : ascii) (s : string) : string :=
  match s with
  | EmptyString => EmptyString
  | String c s' =>
      String (if Ascii.eqb c before then after else c)
             (replace_char before after s')
  end.

(** [marksFileName], [logFileName] *)
Definition marksFileName (name_ : string) : string :=
  "marks-" ++ replace_char "/" "_" name_.

Definition logFileName (name_ : string) : string :=
  "log-" ++ replace_char "/" "_" name_.

(** [QByteArray::indexOf(c)]; [None] is -1 *)
Fixpoint indexOf (c : ascii) (s : string) : option nat :=
  match s with
  | EmptyString => None
  | String c' s' =>
      if Ascii.eqb c' c then Some O
      else option_map S (indexOf c s')
  end.

(** What [lastValidMark] reports through [qCritical()], with the number of
    the line. *)
Inductive marks_complaint : Type :=
| MarksFileCorrupt (lineno : Z)
| MarksFileHasDuplicates (lineno : Z)
| MarksFileNotSorted (lineno : Z).

Section MarksFile.
(** [QByteArray::toInt()], of the Qt library *)
Variable toInt : string -> Z.

(** the [mark] that the loop of [lastValidMark] reads from a line *)
Definition mark_of_line (line : string) : Z :=
  match line with
  | String ":" _ =>
      match indexOf " " line with
      | Some sp => toInt (String.substring 1 (sp - 1) line)
      | None => 0
      end
  | _ => 0
  end.

Fixpoint lastValidMark_loop (lines : list string) (lineno prev_mark : Z)
  : Z * option marks_complaint :=
  match lines with
  | [] => (prev_mark, None)
  | line :: rest =>
      let lineno := lineno + 1 in
      if String.eqb line "" then lastValidMark_loop rest lineno prev_mark
      else
        let mark := mark_of_line line in
        if mark =? 0 then (0, Some (MarksFileCorrupt lineno))
        else if mark =? prev_mark then (0, Some (MarksFileHasDuplicates lineno))
        else if mark <? prev_mark then (0, Some (MarksFileNotSorted lineno))
        else if mark >? prev_mark + 1 then (prev_mark, None)
        else lastValidMark_loop rest lineno mark
  end.

(** [lastValidMark(name)]; the marks file is given as its lines, or [None]
    when it cannot be opened. *)
Definition lastValidMark (marksfile : option (list string))
  : Z * option marks_complaint :=
  match marksfile with
  | None => (0, None)
  | Some lines => lastValidMark_loop lines 0 0
  end.

End MarksFile.

(** [static const int maxSimultaneousProcesses = 100] *)
Definition maxSimultaneousProcesses : nat := 100.

(** [ProcessCache], a [QLinkedList<Repository *>]: the repositories with a
    running fast-import, least recently used first.  A repository is named
    by its address. *)
Fixpoint removeOne (repo : Z) (cache : list Z) : list Z :=
  match cache with
  | [] => []
  | p :: cache' => if p =? repo then cache' else p :: removeOne repo cache'
  end.

(** [while (size() >= maxSimultaneousProcesses) takeFirst()->closeFastImport()];
    [closeFastImport] removes the repository it closes from the cache once
    more.  The result lists the repositories closed, in order.  Every turn
    takes an element away, so [fuel] at the length of the cache is
    enough. *)
Fixpoint evict (fuel : nat) (cache : list Z) : list Z * list Z :=
  match fuel with
  | O => ([], cache)
  | S fuel' =>
      if (maxSimultaneousProcesses <=? List.length cache)%nat then
        match cache with
        | [] => ([], cache)
        | first :: cache' =>
            let (closed, cache'') := evict fuel' (removeOne first cache') in
            (first :: closed, cache'')
        end
      else ([], cache)
  end.

(** [ProcessCache::touch(repo)] *)
Definition touch (repo : Z) (cache : list Z) : list Z * list Z :=
  let cache := removeOne repo cache in
  let (closed, cache) := evict (List.length cache) cache in
  (closed, (cache ++ [repo])%list).

(** [Repository::closeFastImport].  [exited] tells whether the process is
    gone at the end, after [waitForFinished()] or after [terminate()] and
    the second wait; it is read only when the process was running. *)
Definition closeFastImport (exited : bool) (r : Repository) : Repository :=
  let r :=
    if fastImport_running r then
      let r := write ("checkpoint" ++ LF) r in
      if exited then r
      else warn ("git-fast-import for repository " ++ name r ++ " did not die") r
    else r in
  mkRepository (name r) (prefix r) (submodule_path r) (branches r)
    (transactions r) (deletedBranches r) (resetBranches r) (commitCount r)
    (last_commit_mark r) (next_file_mark r) false (incremental r)
    (fastImport_running r && negb exited) (fastImport r) (warnings r).

End RepositoryFiles.

Module RepositoryFilesFacts.
Import Repository RepositoryFiles.

Lemma indexOf_replace_char (before after : ascii) (s : string) :
  before <> after -> indexOf before (replace_char before after s) = None.
Proof.
  intros Hne. induction s as [|c s IH]; simpl; [reflexivity|].
  destruct (Ascii.eqb c before) eqn:E.
  - destruct (Ascii.eqb after before) eqn:E'.
    + apply Ascii.eqb_eq in E'. congruence.
    + now rewrite IH.
  - rewrite E. now rewrite IH.
Qed.

Lemma replace_char_length (before after : ascii) (s : string) :
  String.length (replace_char before after s) = String.length s.
Proof. induction s as [|c s IH]; simpl; congruence. Qed.

Lemma replace_char_unchanged (before after : ascii) (s : string) :
  indexOf before s = None -> replace_char before after s = s.
Proof.
  induction s as [|c s IH]; simpl; [reflexivity|].
  destruct (Ascii.eqb c before); [discriminate|].
  destruct (indexOf before s); [discriminate|].
  intros _. now rewrite IH.
Qed.

(** The names of the marks file and of the log file hold no slash, so
    both files lie in the directory they are opened in, whatever the name
    of the repository; a name without a slash is kept as it is behind the
    prefix. *)
Theorem file_names_flat (name_ : string) :
  indexOf "/" (marksFileName name_) = None
  /\ indexOf "/" (logFileName name_) = None
  /\ String.length (marksFileName name_) = (6 + String.length name_)%nat
  /\ String.length (logFileName name_) = (4 + String.length name_)%nat
  /\ (indexOf "/" name_ = None ->
      marksFileName name_ = "marks-" ++ name_
      /\ logFileName name_ = "log-" ++ name_).
Proof.
  unfold marksFileName, logFileName.
  assert (H : indexOf "/" (replace_char "/" "_" name_) = None)
    by (apply indexOf_replace_char; discriminate).
  repeat split.
  - cbn. now rewrite H.
  - cbn. now rewrite H.
  - cbn. now rewrite replace_char_length.
  - cbn. now rewrite replace_char_length.
  - now rewrite replace_char_unchanged.
  - now rewrite replace_char_unchanged.
Qed.

Lemma file_names_flat_witness :
  marksFileName "boost/config" = "marks-boost_config"
  /\ logFileName "config" = "log-config".
Proof.
  split; [reflexivity|].
  destruct (file_names_flat "config") as (_ & _ & _ & _ & H).
  apply H. reflexivity.
Defined.


(** *** The marks file *)

Section MarksFileFacts.
Variable toInt : string -> Z.

(** the marks of the lines of a marks file, empty lines left out *)
Definition file_marks (lines : list string) : list Z :=
  map (mark_of_line toInt)
      (filter (fun l => negb (String.eqb l "")) lines).

(** [p + 1, ..., p + n] *)
Definition marks_from (p : Z) (n : nat) : list Z :=
  map (fun i => p + Z.of_nat i) (seq 1 n).

Lemma marks_from_succ (p : Z) (n : nat) :
  marks_from p (S n) = (p + 1) :: marks_from (p + 1) n.
Proof.
  unfold marks_from. cbn [seq map]. f_equal.
  rewrite <- seq_shift, map_map. apply map_ext. intros i. lia.
Qed.

Lemma marks_from_zero (n : Z) : marks_from 0 (Z.to_nat n) = marks_upto n.
Proof. unfold marks_from, marks_upto. apply map_ext. intros i. lia. Qed.

Lemma file_marks_cons (line : string) (lines : list string) :
  file_marks (line :: lines)
  = if String.eqb line "" then file_marks lines
    else mark_of_line toInt line :: file_marks lines.
Proof. unfold file_marks. cbn [filter]. now destruct (String.eqb line ""). Qed.

Lemma lastValidMark_loop_prefix (lines : list string) :
  forall lineno p, 0 <= p ->
    let res := lastValidMark_loop toInt lines lineno p in
    (fst res = 0 \/ (snd res = None /\ p <= fst res))
    /\ (snd res <> None -> fst res = 0)
    /\ (p <= fst res ->
        firstn (Z.to_nat (fst res - p)) (file_marks lines)
        = marks_from p (Z.to_nat (fst res - p))).
Proof.
  induction lines as [|line lines IH]; intros lineno p Hp; cbn zeta.
  - cbn. split; [right; split; [reflexivity | lia]|].
    split; [intros H; now contradiction H|]. intros _.
    now rewrite Z.sub_diag.
  - cbn [lastValidMark_loop]. rewrite file_marks_cons.
    destruct (String.eqb line "") eqn:El; [apply IH; exact Hp|].
    set (m := mark_of_line toInt line).
    assert (Hstop : forall res : Z * option marks_complaint,
              fst res = 0 ->
              (fst res = 0 \/ (snd res = None /\ p <= fst res))
              /\ (snd res <> None -> fst res = 0)
              /\ (p <= fst res ->
                  firstn (Z.to_nat (fst res - p)) (m :: file_marks lines)
                  = marks_from p (Z.to_nat (fst res - p)))).
    { intros res Hres. rewrite Hres. split; [now left|]. split; [reflexivity|].
      intros H0. replace (0 - p) with 0 by lia. reflexivity. }
    destruct (m =? 0) eqn:E0; [now apply Hstop|].
    destruct (m =? p) eqn:E1; [now apply Hstop|].
    destruct (m <? p) eqn:E2; [now apply Hstop|].
    destruct (m >? p + 1) eqn:E3.
    + cbn [fst snd]. split; [right; split; [reflexivity | lia]|].
      split; [intros H; now contradiction H|]. intros _.
      now rewrite Z.sub_diag.
    + assert (Hm : m = p + 1).
      { apply Z.eqb_neq in E1. apply Z.ltb_ge in E2.
        destruct (Z.gtb_spec m (p + 1)); [discriminate | lia]. }
      rewrite Hm.
      destruct (IH (lineno + 1) (p + 1) ltac:(lia)) as (A & B & C).
      set (res := lastValidMark_loop toInt lines (lineno + 1) (p + 1)) in *.
      split; [destruct A as [A|[A1 A2]]; [now left | right; split; [exact A1 | lia]]|].
      split; [exact B|]. intros Hle.
      destruct A as [A|[_ A2]].
      * rewrite A. replace (0 - p) with 0 by lia. reflexivity.
      * replace (Z.to_nat (fst res - p)) with (S (Z.to_nat (fst res - (p + 1))))
          by lia.
        rewrite marks_from_succ. cbn [firstn]. f_equal. apply C. exact A2.
Qed.

Lemma lastValidMark_loop_contiguous (lines : list string) :
  forall lineno p k rest, 0 <= p ->
    file_marks lines = (marks_from p k ++ rest)%list ->
    let res := lastValidMark_loop toInt lines lineno p in
    match rest with
    | [] => res = (p + Z.of_nat k, None)
    | m :: _ =>
        (p + Z.of_nat k + 1 < m -> res = (p + Z.of_nat k, None))
        /\ (m <= p + Z.of_nat k -> fst res = 0 /\ snd res <> None)
    end.
Proof.
  induction lines as [|line lines IH]; intros lineno p k rest Hp Hm; cbn zeta.
  - cbn in Hm. symmetry in Hm. apply app_eq_nil in Hm. destruct Hm as [Hk ->].
    destruct k; [|discriminate]. cbn. f_equal. lia.
  - cbn [lastValidMark_loop]. rewrite file_marks_cons in Hm.
    destruct (String.eqb line "") eqn:El; [now apply IH|].
    set (m := mark_of_line toInt line) in *.
    destruct k as [|k].
    + cbn [marks_from seq map app] in Hm. subst rest.
      replace (p + Z.of_nat 0) with p by lia. split.
      * intros Hgap.
        replace (m =? 0) with false by (symmetry; apply Z.eqb_neq; lia).
        replace (m =? p) with false by (symmetry; apply Z.eqb_neq; lia).
        replace (m <? p) with false by (symmetry; apply Z.ltb_ge; lia).
        replace (m >? p + 1) with true by (symmetry; apply Z.gtb_lt; lia).
        reflexivity.
      * intros Hle.
        destruct (m =? 0) eqn:E0; [split; [reflexivity | discriminate]|].
        destruct (m =? p) eqn:E1; [split; [reflexivity | discriminate]|].
        replace (m <? p) with true; [split; [reflexivity | discriminate]|].
        symmetry. apply Z.ltb_lt. apply Z.eqb_neq in E1. lia.
    + rewrite marks_from_succ in Hm. cbn [app] in Hm.
      injection Hm as Hm1 Hm2. fold m. rewrite Hm1.
      replace (p + 1 =? 0) with false by (symmetry; apply Z.eqb_neq; lia).
      replace (p + 1 =? p) with false by (symmetry; apply Z.eqb_neq; lia).
      replace (p + 1 <? p) with false by (symmetry; apply Z.ltb_ge; lia).
      replace (p + 1 >? p + 1) with false
        by (symmetry; destruct (Z.gtb_spec (p + 1) (p + 1)); [lia | reflexivity]).
      specialize (IH (lineno + 1) (p + 1) k rest ltac:(lia) Hm2). cbn zeta in IH.
      replace (p + Z.of_nat (S k)) with (p + 1 + Z.of_nat k) by lia.
      exact IH.
Qed.

(** What [lastValidMark] returns is the length of a run 1, 2, ..., k that
    the marks of the file start with; it is zero whenever the file draws a
    complaint, and zero when the file cannot be opened. *)
Theorem lastValidMark_counts_prefix (lines : list string) :
  let res := lastValidMark toInt (Some lines) in
  0 <= fst res
  /\ firstn (Z.to_nat (fst res)) (file_marks lines) = marks_upto (fst res)
  /\ (snd res <> None -> fst res = 0)
  /\ lastValidMark toInt None = (0, None).
Proof.
  cbn zeta. unfold lastValidMark.
  destruct (lastValidMark_loop_prefix lines 0 0 ltac:(lia)) as (A & B & C).
  set (res := lastValidMark_loop toInt lines 0 0) in *.
  assert (H0 : 0 <= fst res) by (destruct A as [A|[_ A]]; lia).
  split; [exact H0|]. split; [|split; [exact B | reflexivity]].
  specialize (C H0). rewrite Z.sub_0_r in C. rewrite C.
  apply marks_from_zero.
Qed.

(** When the marks of the file are 1, 2, ..., n and then stop or jump
    ahead by more than one, [lastValidMark] returns n without a complaint;
    when they are followed by a mark that is not above n (zero, a
    duplicate, a step back) it returns 0 and complains, however many
    marks before were in order. *)
Theorem lastValidMark_stops_at_gap (lines : list string) (n : Z)
    (rest : list Z) :
  0 <= n ->
  file_marks lines = (marks_upto n ++ rest)%list ->
  match rest with
  | [] => lastValidMark toInt (Some lines) = (n, None)
  | m :: _ =>
      (n + 1 < m -> lastValidMark toInt (Some lines) = (n, None))
      /\ (m <= n -> fst (lastValidMark toInt (Some lines)) = 0
                    /\ snd (lastValidMark toInt (Some lines)) <> None)
  end.
Proof.
  intros Hn Hm. rewrite <- marks_from_zero in Hm.
  pose proof (lastValidMark_loop_contiguous lines 0 0 (Z.to_nat n) rest
                ltac:(lia) Hm) as H.
  cbn zeta in H. unfold lastValidMark.
  replace (0 + Z.of_nat (Z.to_nat n)) with n in H by lia.
  exact H.
Qed.

End MarksFileFacts.

(** Plain decimal numerals, as [toInt] reads them; anything else is 0. *)
Fixpoint decimal_from (acc : Z) (s : string) : Z :=
  match s with
  | EmptyString => acc
  | String c s' =>
      let d := Z.of_nat (nat_of_ascii c) - 48 in
      if (0 <=? d) && (d <=? 9) then decimal_from (10 * acc + d) s' else 0
  end.

Definition decimal (s : string) : Z :=
  match s with EmptyString => 0 | _ => decimal_from 0 s end.

Lemma lastValidMark_stops_at_gap_witness :
  lastValidMark decimal
    (Some [":1 4b825dc642cb6eb9a060e54bf8d69288fbee4904";
           ":2 9a060e54bf8d69288fbee49044b825dc642cb6eb";
           ":1048575 fbee49044b825dc642cb6eb9a060e54bf8d69288"])
  = (2, None).
Proof.
  pose proof (lastValidMark_stops_at_gap decimal
                [":1 4b825dc642cb6eb9a060e54bf8d69288fbee4904";
                 ":2 9a060e54bf8d69288fbee49044b825dc642cb6eb";
                 ":1048575 fbee49044b825dc642cb6eb9a060e54bf8d69288"]
                2 [1048575]) as H.
  cbv beta iota in H. apply H; [lia | reflexivity | lia].
Defined.

(** *** The process cache *)

Lemma removeOne_notin (repo : Z) (cache : list Z) :
  ~ In repo cache -> removeOne repo cache = cache.
Proof.
  induction cache as [|p cache IH]; simpl; intros H; [reflexivity|].
  destruct (Z.eqb_spec p repo) as [->|Hne]; [exfalso; auto|].
  f_equal. apply IH. auto.
Qed.

Lemma removeOne_In (repo p : Z) (cache : list Z) :
  In p (removeOne repo cache) -> In p cache.
Proof.
  induction cache as [|q cache IH]; simpl; [auto|].
  destruct (q =? repo); simpl; intuition.
Qed.

Lemma removeOne_NoDup (repo : Z) (cache : list Z) :
  NoDup cache -> NoDup (removeOne repo cache) /\ ~ In repo (removeOne repo cache).
Proof.
  induction 1 as [|q cache Hq Hnd IH]; simpl.
  - split; [constructor | auto].
  - destruct (Z.eqb_spec q repo) as [->|Hne]; [split; assumption|].
    destruct IH as [IH1 IH2]. split.
    + constructor; [|exact IH1]. intros Hin. apply Hq.
      eapply removeOne_In; eassumption.
    + simpl. intros [E|Hin]; [congruence | auto].
Qed.

Lemma evict_eq (fuel : nat) :
  forall cache, NoDup cache -> (List.length cache <= fuel)%nat ->
    evict fuel cache
    = (firstn (List.length cache - 99) cache,
       skipn (List.length cache - 99) cache).
Proof.
  induction fuel as [|fuel IH]; intros cache Hnd Hlen.
  - destruct cache; [reflexivity | simpl in Hlen; lia].
  - cbn [evict]. unfold maxSimultaneousProcesses.
    destruct (Nat.leb_spec 100 (List.length cache)) as [Hfull|Hroom].
    + destruct cache as [|first cache]; [simpl in Hfull; lia|].
      inversion Hnd as [|? ? Hfirst Hnd']; subst.
      rewrite (removeOne_notin _ _ Hfirst).
      rewrite (IH cache Hnd') by (simpl in Hlen; lia).
      simpl in Hfull.
      replace (List.length (first :: cache) - 99)%nat
        with (S (List.length cache - 99)) by (simpl; lia).
      reflexivity.
    + replace (List.length cache - 99)%nat with O by lia. reflexivity.
Qed.

(** [touch] moves the repository to the end of the cache, the place of the
    one used last, and closes the repositories used least recently, from
    the front, so that at most 99 others stay; the cache keeps holding
    every repository once, and never more than 100. *)
Theorem touch_keeps_most_recent (repo : Z) (cache : list Z) :
  NoDup cache ->
  let others := removeOne repo cache in
  let excess := (List.length others - 99)%nat in
  touch repo cache = (firstn excess others, (skipn excess others ++ [repo])%list)
  /\ NoDup (snd (touch repo cache))
  /\ (List.length (snd (touch repo cache)) <= 100)%nat
  /\ ~ In repo (fst (touch repo cache))
  /\ ((List.length cache <= 100)%nat ->
      (List.length (fst (touch repo cache)) <= 1)%nat).
Proof.
  intros Hnd. cbv zeta.
  destruct (removeOne_NoDup repo cache Hnd) as [Hnd' Hnot].
  set (others := removeOne repo cache) in *.
  assert (Ht : touch repo cache
               = (firstn (List.length others - 99) others,
                  (skipn (List.length others - 99) others ++ [repo])%list)).
  { unfold touch. fold others. now rewrite (evict_eq _ others Hnd' (le_n _)). }
  rewrite Ht. cbn [fst snd].
  assert (Hsplit := firstn_skipn (List.length others - 99) others).
  split; [reflexivity|]. split; [|split; [|split]].
  - rewrite <- Hsplit in Hnd'. apply NoDup_app_remove_l in Hnd'.
    apply NoDup_app; [exact Hnd' | repeat constructor; auto |].
    intros p Hp [<-|[]]. apply Hnot. rewrite <- Hsplit.
    apply in_or_app. now right.
  - rewrite length_app, length_skipn. simpl. lia.
  - intros Hin. apply Hnot. rewrite <- Hsplit. apply in_or_app. now left.
  - intros Hlen. rewrite length_firstn.
    assert (List.length others <= List.length cache)%nat.
    { unfold others. clear. induction cache as [|q c IH]; simpl; [lia|].
      destruct (q =? repo); simpl; lia. }
    lia.
Qed.

Lemma touch_keeps_most_recent_witness :
  touch 1 [3; 1; 2] = ([], [3; 2; 1]).
Proof.
  destruct (touch_keeps_most_recent 1 [3; 1; 2]) as [H _].
  - repeat constructor; simpl; intuition lia.
  - exact H.
Defined.

End RepositoryFilesFacts.

(** ** [Repository]: restarting the fast-import process *)

Module RepositoryRunFacts.
Import Repository RepositoryFacts RepositoryFiles.

(** A branch whose last mark is that of a commit: [reloadBranches] skips
    the others. *)
Definition live (br : Branch) : bool :=
  match marks br with
  | [] => false
  | _ => negb (last (marks br) 0 =? 0)
  end.

Definition reload_chunk (b : string) (br : Branch) : string :=
  "reset " ++ b ++ LF ++ "from :" ++ to_string (last (marks br) 0) ++ LF ++ LF
  ++ "progress Branch " ++ b ++ " reloaded" ++ LF.

Definition reload_chunks (keys : list string) (r : Repository) : list string :=
  map (fun b => reload_chunk b (branch_at b r))
      (filter (fun b => live (branch_at b r)) keys).

Definition reload_notes (options : Options) (keys : list string)
    (r : Repository) : list string :=
  if existsb (fun b => live (branch_at b r)) keys && add_metadata_notes options
  then ["reset refs/notes/commits" ++ LF ++ "from :"
        ++ to_string (maxMark + 1) ++ LF]
  else [].

Definition checkpoint : string := "checkpoint" ++ LF.

Definition refs_name (b : string) : Prop := starts_with b "refs/" = true.

Section WithOptions.
Variable options : Options.

Lemma reloadBranches_step_eq (flag : bool) (r : Repository) (b : string) :
  refs_name b ->
  reloadBranches_step (flag, r) b
  = Ok (flag || live (branch_at b r),
        write_all (reload_chunks [b] r) r).
Proof.
  intros Hb. unfold reloadBranches_step, reload_chunks, live. rewrite Hb.
  cbn [assert bind filter map].
  destruct (marks (branch_at b r)) as [|m ms] eqn:Em.
  - now rewrite orb_false_r.
  - destruct (last (m :: ms) 0 =? 0) eqn:E0; cbn [negb map write_all fold_left].
    + now rewrite orb_false_r.
    + rewrite orb_true_r. unfold reload_chunk. now rewrite Em.
Qed.

Lemma reloadBranches_loop (keys : list string) (r0 : Repository) :
  forall flag r, Forall refs_name keys ->
    (forall k, branch_at k r = branch_at k r0) ->
    foldM reloadBranches_step keys (flag, r)
    = Ok (flag || existsb (fun b => live (branch_at b r0)) keys,
          write_all (reload_chunks keys r0) r).
Proof.
  induction keys as [|b keys IH]; intros flag r Hk Hsame.
  - cbn. now rewrite orb_false_r.
  - inversion Hk as [|? ? Hb Hk']; subst. cbn [foldM].
    rewrite (reloadBranches_step_eq flag r b Hb). cbn [bind].
    rewrite (IH _ _ Hk')
      by (intros k; rewrite write_all_eq; apply Hsame).
    cbn [existsb]. rewrite orb_assoc, Hsame. f_equal. f_equal.
    unfold reload_chunks, write_all. cbn [filter]. rewrite Hsame.
    destruct (live (branch_at b r0)); cbn [map fold_left]; rewrite ?Hsame;
      reflexivity.
Qed.

Lemma reloadBranches_loop_abort (keys : list string) :
  forall flag r, Exists (fun b => ~ refs_name b) keys ->
    foldM reloadBranches_step keys (flag, r)
    = Abort (AssertionFailed "starts_with(branch, refs/)").
Proof.
  induction keys as [|b keys IH]; intros flag r Hk; [inversion Hk|].
  cbn [foldM]. destruct (starts_with b "refs/") eqn:Hb.
  - rewrite (reloadBranches_step_eq flag r b Hb). cbn [bind].
    apply IH. inversion Hk as [? ? Hx|]; subst; [|assumption].
    contradiction.
  - unfold reloadBranches_step. rewrite Hb. reflexivity.
Qed.

Lemma reloadBranches_eq (r : Repository) :
  Forall refs_name (om_keys (branches r)) ->
  reloadBranches options r
  = Ok (write_all (reload_chunks (om_keys (branches r)) r
                   ++ reload_notes options (om_keys (branches r)) r)%list r).
Proof.
  intros Hk. unfold reloadBranches.
  rewrite (reloadBranches_loop _ r false r Hk) by reflexivity. cbn [bind orb].
  unfold reload_notes, write_all. rewrite fold_left_app.
  destruct (existsb _ _ && add_metadata_notes options); reflexivity.
Qed.

End WithOptions.

(** [reloadBranches] writes one reset, with its progress line, for every
    branch whose last mark is that of a commit, in the order it visits the
    branches, and nothing for a branch without marks or with a last mark of
    zero; the reset of the notes ref follows when a branch was reset and
    notes are on.  Nothing but the stream changes.  A branch whose name
    does not start with refs/ fails the assertion. *)
Theorem reloadBranches_resets_live (options : Options) (r : Repository) :
  (Forall refs_name (om_keys (branches r)) ->
   exists r',
     reloadBranches options r = Ok r'
     /\ fastImport r'
        = (fastImport r ++ reload_chunks (om_keys (branches r)) r
           ++ reload_notes options (om_keys (branches r)) r)%list
     /\ same_core r r'
     /\ warnings r' = warnings r)
  /\ (Exists (fun b => ~ refs_name b) (om_keys (branches r)) ->
      reloadBranches options r
      = Abort (AssertionFailed "starts_with(branch, refs/)")).
Proof.
  split.
  - intros Hk. eexists. split; [apply reloadBranches_eq; exact Hk|].
    rewrite write_all_eq. cbn [fastImport warnings].
    split; [reflexivity|]. split; [|reflexivity].
    unfold same_core. cbn. repeat split.
  - intros Hk. unfold reloadBranches.
    now rewrite (reloadBranches_loop_abort (om_keys (branches r)) false r Hk).
Qed.

(** After [closeFastImport] has seen the process go, [startFastImport]
    starts it again instead of reporting a crash, and the stream then
    holds the checkpoint (when the process was running) and the resets of
    [reloadBranches]; a process that is gone without [closeFastImport] is
    fatal to [startFastImport]. *)
Theorem closeFastImport_allows_restart (options : Options) (r : Repository) :
  Forall refs_name (om_keys (branches r)) ->
  (exists r2,
     startFastImport options (closeFastImport true r) = Ok r2
     /\ fastImport r2
        = (fastImport r
           ++ (if fastImport_running r then [checkpoint] else [])
           ++ reload_chunks (om_keys (branches r)) r
           ++ reload_notes options (om_keys (branches r)) r)%list
     /\ fastImport_running r2 = true
     /\ processHasStarted r2 = true
     /\ warnings r2 = warnings r)
  /\ (fastImport_running r = false -> processHasStarted r = true ->
      startFastImport options r
      = Abort (FatalError "git-fast-import has been started once and crashed?")).
Proof.
  intros Hk. split.
  - unfold startFastImport.
    assert (Hrun : fastImport_running (closeFastImport true r) = false).
    { unfold closeFastImport. cbn [fastImport_running negb].
      apply andb_false_r. }
    assert (Hst : processHasStarted (closeFastImport true r) = false)
      by reflexivity.
    rewrite Hrun, Hst. cbn [negb].
    set (r1 := set_started true (closeFastImport true r)).
    assert (Hb : branches r1 = branches r).
    { unfold r1, closeFastImport. cbn [branches set_started].
      destruct (fastImport_running r); reflexivity. }
    assert (Hat : forall k, branch_at k r1 = branch_at k r)
      by (intros k; unfold branch_at; now rewrite Hb).
    eexists. split.
    + apply reloadBranches_eq. rewrite Hb. exact Hk.
    + rewrite write_all_eq. cbn [fastImport fastImport_running
                                 processHasStarted warnings].
      rewrite Hb.
      assert (Hc : reload_chunks (om_keys (branches r)) r1
                   = reload_chunks (om_keys (branches r)) r).
      { unfold reload_chunks.
        rewrite (filter_ext _ (fun b => live (branch_at b r)))
          by (intros k; now rewrite Hat).
        apply map_ext. intros k. now rewrite Hat. }
      assert (Hn : reload_notes options (om_keys (branches r)) r1
                   = reload_notes options (om_keys (branches r)) r).
      { unfold reload_notes.
        replace (existsb (fun b => live (branch_at b r1)) (om_keys (branches r)))
          with (existsb (fun b => live (branch_at b r)) (om_keys (branches r)));
          [reflexivity|].
        clear Hk Hc.
        induction (om_keys (branches r)) as [|k ks IH]; [reflexivity|].
        cbn [existsb]. now rewrite Hat, IH. }
      rewrite Hc, Hn. unfold r1, closeFastImport.
      destruct (fastImport_running r); cbn; repeat split;
        now rewrite <- ?app_assoc.
  - intros Hrun Hst. unfold startFastImport. now rewrite Hrun, Hst.
Qed.

Lemma closeFastImport_allows_restart_witness :
  exists r2,
    startFastImport Examples.opts (closeFastImport true Examples.after_revision2)
    = Ok r2
    /\ fastImport_running r2 = true.
Proof.
  destruct (closeFastImport_allows_restart Examples.opts
              Examples.after_revision2) as [(r2 & H1 & _ & H3 & _) _].
  - vm_compute. repeat constructor.
  - exists r2. split; assumption.
Defined.

(** ** [Repository]: commits, resets and the marks they leave *)

Section Commits.
Variable options : Options.

Lemma setBranchNote_lastChangeRev (b v k : string) (r : Repository) :
  lastChangeRev (branch_at k (setBranchNote b v r))
  = lastChangeRev (branch_at k r).
Proof.
  unfold setBranchNote. destruct (sm_contains b (branches r)); [|reflexivity].
  destruct (string_dec k b) as [->|Hne].
  - now rewrite branch_at_update.
  - now rewrite branch_at_update_ne.
Qed.

Lemma commitNote_lastChangeRev noteText append commit_ t (r r' : Repository) :
  commitNote noteText append commit_ t r = Ok r' ->
  forall k, lastChangeRev (branch_at k r') = lastChangeRev (branch_at k r).
Proof.
  unfold commitNote. intros H k. inv_ok.
  destruct (String.eqb commit_ ""); inv_ok; [|reflexivity].
  now rewrite setBranchNote_lastChangeRev.
Qed.

Lemma Transaction_commit_branch t (r : Repository) t' r' :
  Transaction_commit options t r = Ok (t', r') ->
  lastChangeRev (branch_at (branch t) r') = revnum t
  /\ starts_with (branch t) "refs/" = true.
Proof.
  unfold Transaction_commit. intros H. inv_ok.
  rename a into r0. rename E into Hstart.
  set (mark := last_commit_mark r0 + 1) in *.
  set (r1 := touch_branch (branch t) (set_last_commit_mark mark r0)) in *.
  set (r2 := if negb (Branch_exists (branch_at (branch t) r1)) && incremental r1
             then warn _ r1 else r1) in *.
  set (r3 := update_branch (branch t)
               (fun b => append_commit (revnum t) mark
                           (set_lastChangeRev (revnum t) b)) r2) in *.
  set (r4 := write (commit_header options t mark) r3) in *.
  pose proof (commit_parents_core t a1 r4) as Hc4.
  destruct (commit_parents t a1 r4) as [[t1 desc] r5]. simpl in Hc4.
  set (r6 := write (commit_progress t1 mark desc)
               (write (modifiedFiles t1) (write_all (commit_deletions t1) r5))) in *.
  assert (Hc6 : same_core r3 r6).
  { eapply same_core_trans; [apply (same_core_write (commit_header options t mark))|].
    eapply same_core_trans; [exact Hc4|]. subst r6.
    eapply same_core_trans; [apply same_core_write_all|].
    eapply same_core_trans; apply same_core_write. }
  assert (H6 : lastChangeRev (branch_at (branch t) r6) = revnum t).
  { rewrite (branch_at_same_core _ _ _ Hc6). subst r3.
    now rewrite branch_at_update. }
  split; [|assumption].
  destruct (add_metadata_notes options); inv_ok; [|exact H6].
  match goal with
  | Hn : commitNote _ _ _ _ _ = Ok _ |- _ =>
      rewrite (commitNote_lastChangeRev _ _ _ _ _ _ Hn)
  end.
  exact H6.
Qed.

End Commits.

Section MarksFound.
Variable options : Options.

(** what [markFrom] finds at the revision a branch was last changed in *)
Lemma markFrom_at_last (branchFrom : string) (n m : Z) (desc : string)
    (cs ms : list Z) (r : Repository) :
  starts_with branchFrom "refs/" = true ->
  lastChangeRev (branch_at branchFrom r) <> neverChanged ->
  commits (branch_at branchFrom r) = (cs ++ [n])%list ->
  marks (branch_at branchFrom r) = (ms ++ [m])%list ->
  markFrom branchFrom n desc r = Ok (m, desc, touch_branch branchFrom r).
Proof.
  intros Hs Hl Hc Hm. unfold markFrom. rewrite Hs. cbn [assert bind].
  rewrite branch_at_touch.
  apply Z.eqb_neq in Hl. rewrite Hl, Hc.
  destruct (cs ++ [n])%list as [|c0 cs0] eqn:E;
    [destruct cs; discriminate|].
  rewrite <- E, last_last, Z.eqb_refl, Hm.
  unfold vec_last. destruct (ms ++ [m])%list eqn:E';
    [destruct ms; discriminate|].
  rewrite <- E', last_last. reflexivity.
Qed.

Lemma resetBranch_refs rule gitRefName rev mark resetTo comment w w' :
  resetBranch options rule gitRefName rev mark resetTo comment w = Ok w' ->
  starts_with gitRefName "refs/" = true.
Proof.
  unfold resetBranch. destruct w as [super r]. intros H. inv_ok. assumption.
Qed.

(** The mark of a commit is what [markFrom] returns for the branch of the
    commit at its revision, whatever the commits before: the commit is
    found by the revision the branch was last changed in.  The lookup
    changes no branch and writes nothing. *)
Theorem commit_mark_found (t : Transaction) (r : Repository)
    (t' : Transaction) (r' : Repository) (desc : string) :
  Transaction_commit options t r = Ok (t', r') ->
  revnum t <> neverChanged ->
  exists r'',
    markFrom (branch t) (revnum t) desc r' = Ok (last_commit_mark r', desc, r'')
    /\ last_commit_mark r' = last_commit_mark r + 1
    /\ (forall k, branch_at k r'' = branch_at k r')
    /\ fastImport r'' = fastImport r'
    /\ warnings r'' = warnings r'.
Proof.
  intros H Hrev.
  destruct (Transaction_commit_marks options _ _ _ _ H)
    as (Hl & _ & _ & Hm & Hc & _).
  destruct (Transaction_commit_branch options _ _ _ _ H) as (Hlast & Hs).
  exists (touch_branch (branch t) r'). split.
  - rewrite Hl. eapply markFrom_at_last; eauto. now rewrite Hlast.
  - split; [exact Hl|]. split; [intros k; apply branch_at_touch|].
    split; reflexivity.
Qed.

(** A reset of a ref is found by [markFrom] at the revision of the reset:
    the mark the ref was reset to, which is zero for a delete. *)
Theorem reset_mark_found (rule : BranchRule) (gitRefName : string)
    (rev mark : Z) (resetTo comment : string) (super : option Repository)
    (r : Repository) (w' : option Repository * Repository) (desc : string) :
  resetBranch options rule gitRefName rev mark resetTo comment (super, r)
  = Ok w' ->
  rev <> neverChanged ->
  exists r'',
    markFrom gitRefName rev desc (snd w') = Ok (mark, desc, r'')
    /\ (forall k, branch_at k r'' = branch_at k (snd w'))
    /\ fastImport r'' = fastImport (snd w')
    /\ warnings r'' = warnings (snd w').
Proof.
  intros H Hrev.
  destruct (resetBranch_vectors options _ _ _ _ _ _ _ _ _ H) as (Hc & Hm & Hl).
  pose proof (resetBranch_refs _ _ _ _ _ _ _ _ H) as Hs.
  exists (touch_branch gitRefName (snd w')). split.
  - eapply markFrom_at_last; eauto. now rewrite Hl.
  - split; [intros k; apply branch_at_touch|]. split; reflexivity.
Qed.

(** [deleteBranch] leaves master alone.  Any other ref it resets to the
    mark zero: afterwards the branch does not exist, so the next commit to
    it takes no parent from it. *)
Theorem deleteBranch_ends_history (rule : BranchRule) (rev : Z)
    (super : option Repository) (r : Repository) :
  (git_ref_name rule = "refs/heads/master" ->
   deleteBranch options rule rev (super, r) = Ok (super, r))
  /\ (git_ref_name rule <> "refs/heads/master" ->
      forall w',
        deleteBranch options rule rev (super, r) = Ok w' ->
        marks (branch_at (git_ref_name rule) (snd w'))
        = (marks (branch_at (git_ref_name rule) r) ++ [0])%list
        /\ commits (branch_at (git_ref_name rule) (snd w'))
           = (commits (branch_at (git_ref_name rule) r) ++ [rev])%list
        /\ Branch_exists (branch_at (git_ref_name rule) (snd w')) = false
        /\ commit_parentmark (branch_at (git_ref_name rule) (snd w')) = Ok 0).
Proof.
  split.
  - intros Hm. unfold deleteBranch. rewrite Hm. reflexivity.
  - intros Hm w' H. unfold deleteBranch in H. inv_ok.
    apply String.eqb_neq in Hm. rewrite Hm in H.
    destruct (resetBranch_vectors options _ _ _ _ _ _ _ _ _ H) as (Hc & Hk & _).
    assert (Hex : Branch_exists (branch_at (git_ref_name rule) (snd w')) = false).
    { unfold Branch_exists. rewrite Hk, last_last. cbn.
      now rewrite !andb_false_r. }
    repeat split; try assumption.
    unfold commit_parentmark. now rewrite Hex.
Qed.

(** [Repository::commit] takes one commit mark for each open transaction,
    drops the transactions and gives every file mark back. *)
Theorem commit_closes_transactions (author_ : string) (epoch : Z)
    (log_ : string) (r r' : Repository) :
  commit options author_ epoch log_ r = Ok r' ->
  transactions r' = []
  /\ next_file_mark r' = maxMark
  /\ last_commit_mark r'
     = last_commit_mark r + Z.of_nat (List.length (transactions r))
  /\ (lockstep r -> lockstep r').
Proof.
  unfold commit. intros H. inv_ok. cbn [transactions next_file_mark
    last_commit_mark set_next_file_mark set_transactions].
  split; [reflexivity|]. split; [reflexivity|].
  assert (Hloop : forall txs r0 r1,
            foldM (commit_step options author_ epoch log_) txs r0 = Ok r1 ->
            last_commit_mark r1 = last_commit_mark r0 + Z.of_nat (List.length txs)
            /\ (lockstep r0 -> lockstep r1)).
  { induction txs as [|kt txs IH]; intros r0 r1 H; cbn [foldM] in H.
    - inv_ok. cbn. split; [lia | auto].
    - apply bind_Ok in H. destruct H as (r2 & Hstep & H).
      unfold commit_step in Hstep. apply bind_Ok in Hstep.
      destruct Hstep as ([t1 r3] & Hc & Hstep). inversion Hstep; subst r2.
      cbn [snd] in *.
      destruct (Transaction_commit_marks options _ _ _ _ Hc)
        as (Hl & _ & _ & _ & _ & Hk).
      destruct (IH _ _ H) as (IH1 & IH2).
      split; [rewrite IH1, Hl; cbn [List.length]; lia | auto]. }
  destruct (Hloop _ _ _ E) as (H1 & H2). split; [exact H1|].
  intros Hl. specialize (H2 Hl). exact H2.
Qed.

End MarksFound.

Lemma commit_mark_found_witness :
  exists t' r' r'',
    Transaction_commit Examples.opts Examples.revision5_txn
                       Examples.before_revision5_commit = Ok (t', r')
    /\ markFrom "refs/heads/c" 5 "" r' = Ok (3, "", r'').
Proof.
  destruct (Transaction_commit Examples.opts Examples.revision5_txn
              Examples.before_revision5_commit)
    as [[t' r']|] eqn:E; [|vm_compute in E; discriminate].
  destruct (commit_mark_found Examples.opts _ _ _ _ "" E)
    as (r'' & H & Hl & _).
  - discriminate.
  - exists t', r', r''. split; [reflexivity|]. rewrite Hl in H. exact H.
Defined.

Lemma reset_mark_found_witness :
  exists w' r'',
    resetBranch Examples.opts Examples.b_rule "refs/heads/b" 3 0 null_sha
                "delete" (None, Examples.after_revision2) = Ok w'
    /\ markFrom "refs/heads/b" 3 "" (snd w') = Ok (0, "", r'').
Proof.
  destruct (resetBranch Examples.opts Examples.b_rule "refs/heads/b" 3 0
              null_sha "delete" (None, Examples.after_revision2))
    as [w'|] eqn:E; [|vm_compute in E; discriminate].
  destruct (reset_mark_found Examples.opts _ _ _ _ _ _ _ _ _ "" E)
    as (r'' & H & _).
  - discriminate.
  - exists w', r''. split; [reflexivity | exact H].
Defined.

(** the first revision of the examples, before its commit *)
Definition revision1_open : Repository :=
  Eval vm_compute in
    Examples.or_start
      (let* r := demandTransaction Examples.opts Examples.master "trunk" 1
                                   Examples.start in
       let* tr := addFile Examples.opts "a.txt" 33188 3
                          (txn Examples.master r) r in
       Ok (store_txn Examples.master (fst tr) (snd tr))).

Lemma commit_closes_transactions_witness :
  exists r',
    commit Examples.opts "author" 100 "first" revision1_open = Ok r'
    /\ transactions r' = [] /\ last_commit_mark r' = 1.
Proof.
  destruct (commit Examples.opts "author" 100 "first" revision1_open)
    as [r'|] eqn:E; [|vm_compute in E; discriminate].
  destruct (commit_closes_transactions Examples.opts _ _ _ _ _ E)
    as (H1 & _ & H3 & _).
  exists r'. split; [reflexivity|]. split; [exact H1|].
  rewrite H3. reflexivity.
Defined.

(** ** [Repository]: transactions *)

Section Transactions.
Variable options : Options.

(** [noteCopyFromBranch] records at most one mark, a mark of a commit
    (neither 0 nor -1) that the transaction does not hold yet, at the end
    of [merges]; a copy from the branch of the transaction itself records
    nothing; nothing else of the transaction changes. *)
Theorem noteCopyFromBranch_records_once (branchFrom : string)
    (branchRevNum : Z) (t : Transaction) (r : Repository)
    (t' : Transaction) (r' : Repository) :
  noteCopyFromBranch branchFrom branchRevNum t r = Ok (t', r') ->
  (t' = t
   \/ exists m, t' = set_merges (merges t ++ [m])%list t
                /\ m <> 0 /\ m <> -1 /\ ~ In m (merges t))
  /\ (NoDup (merges t) -> NoDup (merges t'))
  /\ (branch t = branchFrom -> t' = t)
  /\ fastImport r' = fastImport r.
Proof.
  unfold noteCopyFromBranch. intros H.
  apply bind_Ok in H. destruct H as (u & _ & H).
  destruct (String.eqb_spec (branch t) branchFrom) as [Heq|Hne].
  - inversion H; subst. repeat split; auto.
  - apply bind_Ok in H. destruct H as ([[mark dummy] r1] & Hm & H).
    pose proof (markFrom_mild _ _ _ _ _ Hm) as _.
    assert (Hout : fastImport r1 = fastImport r).
    { unfold markFrom in Hm. apply bind_Ok in Hm. destruct Hm as (u' & _ & Hm).
      destruct (lastChangeRev _ =? neverChanged); [now inversion Hm|].
      destruct (commits _); [now inversion Hm|].
      destruct (_ =? last _ 0).
      - apply bind_Ok in Hm. destruct Hm as (m0 & _ & Hm). now inversion Hm.
      - destruct (qUpperBound _ _); [now inversion Hm|].
        apply bind_Ok in Hm. destruct Hm as (m0 & _ & Hm). now inversion Hm. }
    apply bind_Ok in H. destruct H as (u' & _ & H).
    destruct (Z.eqb_spec mark (-1)) as [E1|E1];
      [inversion H; subst; repeat split; auto; contradiction|].
    destruct (Z.eqb_spec mark 0) as [E0|E0];
      [inversion H; subst; repeat split; auto; contradiction|].
    destruct (existsb (Z.eqb mark) (merges t)) eqn:Ex;
      inversion H; subst; [repeat split; auto; contradiction|].
    assert (Hnot : ~ In mark (merges t)).
    { intros Hin. assert (existsb (Z.eqb mark) (merges t) = true)
        by (apply existsb_exists; exists mark; split; [exact Hin | apply Z.eqb_refl]).
      congruence. }
    split; [right; exists mark; auto|].
    split; [|split; [contradiction | exact Hout]].
    intros Hnd. cbn [merges set_merges]. apply NoDup_app; auto.
    + repeat constructor. auto.
    + intros x Hx [<-|[]]. auto.
Qed.

(** the recorded path of a deleted file *)
Definition deleted_path (r : Repository) (path : string) : string :=
  let p := prefix r ++ path in
  if ends_with p "/" then String.substring 0 (String.length p - 1) p else p.

Lemma deleteFile_all (r : Repository) (paths : list string) :
  forall t,
    deletedFiles (fold_left (fun t p => deleteFile p t r) paths t)
    = (deletedFiles t ++ map (deleted_path r) paths)%list.
Proof.
  induction paths as [|p paths IH]; intros t; cbn [fold_left map].
  - now rewrite app_nil_r.
  - rewrite IH. unfold deleteFile, deleted_path.
    cbn [deletedFiles set_deletedFiles]. now rewrite <- app_assoc.
Qed.

(** When one of the deletions of a transaction is that of the root (the
    empty path, or a single slash, under the prefix), its commit writes
    [deleteall] and no [D] line, whatever else was deleted before or
    after; otherwise it writes one [D] line for each deletion, in order. *)
Theorem root_deletion_deletes_all (path : string) (before after : list string)
    (t : Transaction) (r : Repository) :
  let t' := fold_left (fun t p => deleteFile p t r)
                      (before ++ path :: after)%list t in
  (prefix r ++ path = "" \/ prefix r ++ path = "/" ->
   commit_deletions t' = ["deleteall" ++ LF])
  /\ (~ In "" (deletedFiles t') ->
      commit_deletions t'
      = map (fun df => "D " ++ df ++ LF)
            (deletedFiles t
             ++ map (deleted_path r) (before ++ path :: after))%list).
Proof.
  cbv zeta. unfold commit_deletions. rewrite !deleteFile_all. split.
  - intros Hroot.
    assert (Hp : deleted_path r path = "").
    { unfold deleted_path. destruct Hroot as [-> | ->]; reflexivity. }
    replace (existsb _ _) with true; [reflexivity|].
    symmetry. apply existsb_exists. exists "". split; [|reflexivity].
    apply in_or_app. right. rewrite map_app. apply in_or_app. right.
    cbn [map]. left. exact Hp.
  - intros Hno.
    replace (existsb _ _) with false; [reflexivity|].
    symmetry. apply not_true_is_false. intros Hex.
    apply existsb_exists in Hex. destruct Hex as (x & Hin & Hx).
    apply String.eqb_eq in Hx. subst x. contradiction.
Qed.

(** [demandTransaction] hands out one transaction per ref: once a ref has
    one, later calls return it as it is and ignore the prefix and the
    revision they are given.  A new transaction counts as a commit, which
    needs a commit interval other than zero, and is followed by a
    checkpoint when the count reaches a multiple of the interval. *)
Theorem demandTransaction_once (branch_ svnprefix_ : string) (rev : Z)
    (r r1 : Repository) :
  demandTransaction options branch_ svnprefix_ rev r = Ok r1 ->
  (forall svnprefix' rev',
     demandTransaction options branch_ svnprefix' rev' r1 = Ok r1)
  /\ match sm_find branch_ (transactions r) with
     | Some _ => r1 = r
     | None =>
         commitCount r1 = commitCount r + 1
         /\ transactions r1
            = sm_insert branch_
                (mkTransaction branch_ svnprefix_ "" 0 "" rev [] [] "")
                (transactions r)
         /\ commit_interval options <> 0
         /\ (Z.rem (commitCount r + 1) (commit_interval options) = 0 ->
             last (fastImport r1) "" = checkpoint)
         /\ (Z.rem (commitCount r + 1) (commit_interval options) <> 0 ->
             fastImport r1 = fastImport r)
     end.
Proof.
  intros H. unfold demandTransaction in H.
  destruct (sm_find branch_ (transactions r)) as [t0|] eqn:Ef.
  - inversion H; subst r1. split; [|reflexivity].
    intros p' rev'. unfold demandTransaction. now rewrite Ef.
  - apply bind_Ok in H. destruct H as (u & _ & H).
    set (t0 := mkTransaction branch_ svnprefix_ "" 0 "" rev [] [] "") in *.
    set (r0 := set_commitCount (commitCount (store_txn branch_ t0 r) + 1)
                 (store_txn branch_ t0 r)) in *.
    destruct (Z.eqb_spec (commit_interval options) 0) as [Hz|Hz];
      [discriminate|].
    assert (Hfind : forall x, transactions x = transactions r0 ->
              forall p' rev', demandTransaction options branch_ p' rev' x = Ok x).
    { intros x Hx p' rev'. unfold demandTransaction. rewrite Hx.
      unfold r0. cbn [transactions set_commitCount store_txn set_transactions].
      now rewrite (om_find_insert _ string_compare_eq). }
    change (commitCount r0) with (commitCount r + 1) in H.
    destruct (Z.eqb_spec (Z.rem (commitCount r + 1) (commit_interval options)) 0)
      as [Hrem|Hrem].
    + apply bind_Ok in H. destruct H as (r2 & Hstart & H).
      inversion H; subst r1.
      pose proof (startFastImport_core options _ _ Hstart) as Hc.
      destruct Hc as (_ & _ & _ & _ & Ht & _ & _ & Hcc & _).
      split; [apply Hfind; exact Ht|].
      cbn [commitCount transactions write]. rewrite Hcc, Ht.
      repeat split; auto.
      * intros _. cbn [fastImport write]. apply last_last.
      * intros Hn. contradiction.
    + inversion H; subst r1. split; [now apply Hfind|].
      repeat split; auto. intros Hn. contradiction.
Qed.

(** [markFrom] for a revision before the first commit of a branch that has
    commits: the mark is zero, a warning is logged and the description is
    left as it was. *)
Theorem markFrom_before_first_commit (branchFrom : string) (n : Z)
    (desc : string) (r : Repository) (c : Z) (cs : list Z) :
  starts_with branchFrom "refs/" = true ->
  lastChangeRev (branch_at branchFrom r) <> neverChanged ->
  commits (branch_at branchFrom r) = c :: cs ->
  StronglySorted Z.le (c :: cs) ->
  n < c ->
  markFrom branchFrom n desc r
  = Ok (0, desc,
        warn ("No mark found for r" ++ to_string n ++ " of branch "
              ++ branchFrom ++ " in repository " ++ name r)
             (touch_branch branchFrom r)).
Proof.
  intros Hs Hl Hc Hsort Hn. unfold markFrom. rewrite Hs. cbn [assert bind].
  rewrite branch_at_touch. apply Z.eqb_neq in Hl. rewrite Hl, Hc.
  assert (Hlast : c <= last (c :: cs) 0).
  { inversion Hsort as [|? ? _ Hall]; subst.
    destruct cs as [|c1 cs1]; [cbn; lia|].
    rewrite Forall_forall in Hall. apply Hall.
    change (last (c :: c1 :: cs1) 0) with (last (c1 :: cs1) 0).
    apply (last_In (c1 :: cs1) 0). discriminate. }
  replace (n =? last (c :: cs) 0) with false
    by (symmetry; apply Z.eqb_neq; lia).
  destruct (qUpperBound (c :: cs) n) as [|it'] eqn:Eq; [reflexivity|].
  assert (c <= n); [|lia].
  apply (qUpperBound_below (c :: cs) n 0 c Hsort); [lia | reflexivity].
Qed.

(** When no element is above [x], the search runs to the end. *)
Lemma qUpperBound_from_end (v : list Z) (x : Z) :
  Forall (fun c => c <= x) v ->
  forall fuel begin k,
    (k <= fuel)%nat -> (begin + k <= List.length v)%nat ->
    qUpperBound_from fuel v x begin k = (begin + k)%nat.
Proof.
  intros Hall. induction fuel as [|fuel IH]; intros begin k Hf Hlen;
    cbn [qUpperBound_from]; [lia|].
  destruct k as [|k']; [lia|].
  set (k := S k') in *. set (half := Nat.div2 k).
  assert (Hhalf : (half < k)%nat) by (apply Nat.lt_div2; unfold k; lia).
  assert (Hmid : nth (begin + half) v 0 <= x).
  { rewrite Forall_forall in Hall. apply Hall. apply nth_In. lia. }
  replace (x <? nth (begin + half) v 0) with false
    by (symmetry; apply Z.ltb_ge; exact Hmid).
  rewrite IH by lia. lia.
Qed.

(** [markFrom] for a revision at or after the last commit of a branch
    returns the last mark of the branch, however the commits before are
    ordered; past the last commit, a description that is not empty gets
    the revision asked for and the revision found. *)
Theorem markFrom_after_last_commit (branchFrom : string) (n : Z)
    (desc : string) (r : Repository) :
  starts_with branchFrom "refs/" = true ->
  lastChangeRev (branch_at branchFrom r) <> neverChanged ->
  commits (branch_at branchFrom r) <> [] ->
  lockstep_branch (branch_at branchFrom r) ->
  Forall (fun c => c <= n) (commits (branch_at branchFrom r)) ->
  markFrom branchFrom n desc r
  = Ok (last (marks (branch_at branchFrom r)) 0,
        (if (n =? last (commits (branch_at branchFrom r)) 0)
            || String.eqb desc ""
         then desc
         else desc ++ " at r" ++ to_string n ++ " => r"
              ++ to_string (last (commits (branch_at branchFrom r)) 0)),
        touch_branch branchFrom r).
Proof.
  intros Hs Hl Hne Hlock Hall. unfold markFrom. rewrite Hs. cbn [assert bind].
  rewrite branch_at_touch. apply Z.eqb_neq in Hl. rewrite Hl.
  unfold lockstep_branch in Hlock.
  set (cs := commits (branch_at branchFrom r)) in *.
  set (ms := marks (branch_at branchFrom r)) in *.
  destruct cs as [|c0 cs0] eqn:Ecs; [congruence|]. rewrite <- Ecs in *.
  assert (Hms : ms <> []) by (intros E; rewrite E, Ecs in Hlock; discriminate).
  destruct (Z.eqb_spec n (last cs 0)) as [Hlast|Hlast].
  - cbn [orb]. unfold vec_last. destruct ms; [congruence | reflexivity].
  - assert (Hq : qUpperBound cs n = List.length cs).
    { unfold qUpperBound. now rewrite (qUpperBound_from_end cs n Hall). }
    rewrite Hq. destruct (List.length cs) as [|k] eqn:Ek;
      [rewrite Ecs in Ek; discriminate|].
    assert (Hk : k = (List.length cs - 1)%nat) by lia.
    assert (Hnth : nth k cs 0 = last cs 0).
    { apply nth_error_nth. rewrite Hk. apply last_nth_error. congruence. }
    assert (Hm : nth_error ms k = Some (last ms 0)).
    { replace k with (List.length ms - 1)%nat by lia.
      apply last_nth_error. exact Hms. }
    unfold vec_at. rewrite Hm, Hnth. cbn [bind orb].
    apply Z.eqb_neq in Hlast.
    replace (last cs 0 =? n) with false
      by (symmetry; rewrite Z.eqb_sym; exact Hlast).
    destruct (String.eqb desc ""); reflexivity.
Qed.

End Transactions.

Lemma noteCopyFromBranch_records_once_witness :
  exists t' r',
    noteCopyFromBranch Examples.master 3
      (mkTransaction "refs/heads/c" "branches/c" "" 0 "" 5 [1] [] "")
      Examples.after_revision4 = Ok (t', r')
    /\ merges t' = [1; 2].
Proof.
  destruct (noteCopyFromBranch Examples.master 3
              (mkTransaction "refs/heads/c" "branches/c" "" 0 "" 5 [1] [] "")
              Examples.after_revision4)
    as [[t' r']|] eqn:E; [|vm_compute in E; discriminate].
  destruct (noteCopyFromBranch_records_once _ _ _ _ _ _ E) as (_ & Hnd & _).
  exists t', r'. split; [reflexivity|].
  vm_compute in E. inversion E. reflexivity.
Defined.

Lemma root_deletion_deletes_all_witness :
  commit_deletions
    (fold_left (fun t p => deleteFile p t Examples.start)
               ["doc/"; "/"; "src/a.c"] Transaction_default)
  = ["deleteall" ++ LF].
Proof.
  destruct (root_deletion_deletes_all "/" ["doc/"] ["src/a.c"]
              Transaction_default Examples.start) as [H _].
  apply H. right. reflexivity.
Defined.

Lemma demandTransaction_once_witness :
  exists r1,
    demandTransaction Examples.opts "refs/heads/c" "branches/c" 5
                      Examples.after_revision4 = Ok r1
    /\ demandTransaction Examples.opts "refs/heads/c" "tags/c" 6 r1 = Ok r1.
Proof.
  destruct (demandTransaction Examples.opts "refs/heads/c" "branches/c" 5
              Examples.after_revision4)
    as [r1|] eqn:E; [|vm_compute in E; discriminate].
  destruct (demandTransaction_once Examples.opts _ _ _ _ _ E) as (H & _).
  exists r1. split; [reflexivity | apply H].
Defined.

Lemma markFrom_before_first_commit_witness :
  exists r',
    markFrom "refs/heads/master" 0 "from branch refs/heads/master"
             Examples.after_revision4
    = Ok (0, "from branch refs/heads/master", r')
    /\ last (warnings r') ""
       = "No mark found for r0 of branch refs/heads/master in repository repo".
Proof.
  eexists. split.
  - apply (markFrom_before_first_commit "refs/heads/master" 0
             "from branch refs/heads/master" Examples.after_revision4 1 [3]).
    + reflexivity.
    + vm_compute. discriminate.
    + reflexivity.
    + repeat constructor; lia.
    + lia.
  - reflexivity.
Defined.

Lemma markFrom_after_last_commit_witness :
  markFrom "refs/heads/master" 7 "from branch refs/heads/master"
           Examples.after_revision4
  = Ok (2, "from branch refs/heads/master at r7 => r3",
        touch_branch "refs/heads/master" Examples.after_revision4).
Proof.
  rewrite (markFrom_after_last_commit "refs/heads/master" 7
             "from branch refs/heads/master" Examples.after_revision4).
  - reflexivity.
  - reflexivity.
  - vm_compute. discriminate.
  - vm_compute. discriminate.
  - reflexivity.
  - vm_compute. repeat constructor; discriminate.
Defined.
End RepositoryRunFacts.

(** ** [git_repository]: a commit from [open_commit] to [close_commit] *)

Module GitCommitFacts.
Import GitRepository GitRepositoryFacts.

(** [kept g g']: what [close_commit] reads of a repository and its refs
    is the same in [g] and [g']. *)
Definition kept (g g' : git_repository) : Prop :=
  has_submodules g' = has_submodules g
  /\ modified_submodule_refs g' = modified_submodule_refs g
  /\ last_mark g' = last_mark g
  /\ current_ref g' = current_ref g
  /\ modified_refs g' = modified_refs g
  /\ forall s, marks (ref_at s g') = marks (ref_at s g)
               /\ name (ref_at s g') = name (ref_at s g)
               /\ head_tree_sha (ref_at s g') = head_tree_sha (ref_at s g).

Lemma kept_refl (g : git_repository) : kept g g.
Proof. unfold kept. repeat split. Qed.

Lemma kept_trans (g1 g2 g3 : git_repository) :
  kept g1 g2 -> kept g2 g3 -> kept g1 g3.
Proof.
  intros (A1 & A2 & A3 & A4 & A5 & A6) (B1 & B2 & B3 & B4 & B5 & B6).
  unfold kept. repeat split; try congruence;
    destruct (A6 s) as (X & Y & Z0); destruct (B6 s) as (X' & Y' & Z');
    congruence.
Qed.

Lemma kept_write (s : string) (g : git_repository) : kept g (write s g).
Proof. unfold kept. repeat split. Qed.

Lemma kept_report (s : string) (g : git_repository) : kept g (report s g).
Proof. unfold kept. repeat split. Qed.

Lemma kept_update (p : Z) (f : ref -> ref) (g : git_repository) :
  (forall r, marks (f r) = marks r) ->
  (forall r, name (f r) = name r) ->
  (forall r, head_tree_sha (f r) = head_tree_sha r) ->
  kept g (update_ref p f g).
Proof.
  intros Hm Hn Hh. unfold kept.
  split; [reflexivity|]. split; [reflexivity|]. split; [reflexivity|].
  split; [reflexivity|]. split; [reflexivity|].
  intros s. split; [|split].
  - now apply (ref_at_update_proj marks).
  - now apply (ref_at_update_proj name).
  - now apply (ref_at_update_proj head_tree_sha).
Qed.

Lemma kept_fold {X : Type} (f : git_repository -> X -> git_repository)
    (xs : list X) :
  (forall g x, kept g (f g x)) -> forall g, kept g (fold_left f xs g).
Proof.
  intros Hf. induction xs as [|x xs IH]; intros g; cbn [fold_left].
  - apply kept_refl.
  - eapply kept_trans; [apply Hf | apply IH].
Qed.

Lemma write_merge_kept (c : Z) (g : git_repository) (kv : Z * Z) :
  kept g (write_merge c g kv).
Proof.
  unfold write_merge. destruct kv as [src_ref src_rev].
  set (g1 := update_ref c _ g).
  assert (H1 : kept g g1) by (apply kept_update; reflexivity).
  destruct (src_rev >? _); [|exact H1].
  destruct (zm_floor src_rev _) as [[k m]|].
  - eapply kept_trans; [exact H1|].
    eapply kept_trans; [apply kept_write|]. apply kept_update; reflexivity.
  - eapply kept_trans; [exact H1 | apply kept_report].
Qed.

Lemma open_deletion_kept (c : Z) (g : git_repository) (p : string) :
  kept g (open_deletion c g p).
Proof.
  unfold open_deletion. destruct (_ && _).
  - eapply kept_trans; [apply kept_write|]. apply kept_update; reflexivity.
  - apply kept_write.
Qed.

(** What [open_commit] leaves behind for [close_commit]: the ref it
    picked, the highest modified one, is current and holds the new mark
    under the revision; nothing else that [close_commit] reads has
    changed. *)
Lemma open_commit_opened (rev : revision) (g g' : git_repository) :
  current_ref g = None ->
  open_commit rev g = Ok g' ->
  let c := last (modified_refs g) 0 in
  current_ref g' = Some c
  /\ last_mark g' = last_mark g + 1
  /\ modified_refs g' = modified_refs g
  /\ has_submodules g' = has_submodules g
  /\ modified_submodule_refs g' = modified_submodule_refs g
  /\ marks (ref_at c g')
     = zm_insert (rev_revnum rev) (last_mark g + 1) (marks (ref_at c g))
  /\ name (ref_at c g') = name (ref_at c g)
  /\ head_tree_sha (ref_at c g') = head_tree_sha (ref_at c g)
  /\ modified_refs g <> [].
Proof.
  intros Hcur H. unfold open_commit in H. rewrite Hcur in H.
  apply bind_Ok in H. destruct H as (u & Ha & H). apply assert_Ok in Ha.
  cbv zeta. set (c := last (modified_refs g) 0) in *.
  injection H as Hg'.
  set (g1 := begin_commit rev c g) in *.
  assert (K : kept g1 g').
  { rewrite <- Hg'.
    eapply kept_trans; [|apply kept_update; reflexivity].
    eapply kept_trans; [|apply kept_fold; intros; apply open_deletion_kept].
    unfold write_merges.
    eapply kept_trans; [|apply kept_update; reflexivity].
    apply kept_fold. intros. apply write_merge_kept. }
  destruct K as (K1 & K2 & K3 & K4 & K5 & K6).
  destruct (K6 c) as (Km & Kn & Kh).
  destruct (begin_commit_spec rev c g) as (_ & _ & _ & B4 & _ & B6).
  fold g1 in B4, B6.
  rewrite K4, K3, K5, K1, K2, Km, Kn, Kh.
  split; [reflexivity|]. split; [exact B6|]. split; [reflexivity|].
  split; [reflexivity|]. split; [reflexivity|]. split; [exact B4|].
  split; [|split].
  - unfold g1, begin_commit.
    change (name (ref_at c (write ?a (write ?b ?x)))) with (name (ref_at c x)).
    etransitivity; [apply (ref_at_update_proj name); reflexivity | reflexivity].
  - unfold g1, begin_commit.
    change (head_tree_sha (ref_at c (write ?a (write ?b ?x))))
      with (head_tree_sha (ref_at c x)).
    etransitivity;
      [apply (ref_at_update_proj head_tree_sha); reflexivity | reflexivity].
  - intros E. rewrite E in Ha. discriminate.
Qed.

Lemma zm_insert_last {V : Type} (k : Z) (v : V) (m : list (Z * V)) :
  Forall (fun e => fst e < k) m -> zm_insert k v m = (m ++ [(k, v)])%list.
Proof.
  induction 1 as [|[k' v'] m Hk _ IH]; [reflexivity|].
  cbn [om_insert app]. cbn [fst] in Hk.
  replace (k ?= k') with Gt by (symmetry; apply Z.compare_gt_iff; lia).
  now rewrite IH.
Qed.

Lemma elided_ref (c : Z) (sha : string) (g : git_repository) :
  let g1 := update_ref c (fun r => set_marks (removelast (marks r)) r) g in
  let g2 := write (fi_reset (name (ref_at c g1))
                            (snd (last (marks (ref_at c g1)) (0, 0)))) g1 in
  let g3 := update_ref c (set_head_tree_sha sha) g2 in
  marks (ref_at c g1) = removelast (marks (ref_at c g))
  /\ name (ref_at c g1) = name (ref_at c g)
  /\ marks (ref_at c g3) = removelast (marks (ref_at c g)).
Proof.
  cbv zeta. rewrite !ref_at_update. cbn [marks name set_marks set_head_tree_sha].
  split; [reflexivity|]. split; [reflexivity|].
  change (ref_at c (write ?s ?x)) with (ref_at c x).
  now rewrite ref_at_update.
Qed.

(** A commit that changes nothing leaves no trace in the marks of its
    ref: when the ref has commits, all of revisions before the one being
    imported, and the tree that [close_commit] reads back is the tree the
    ref had, the marks of the ref after [open_commit] and [close_commit]
    are the marks before, the ref is reset to its last mark, and the ref
    is no longer modified.  The mark that [open_commit] took is spent:
    [last_mark] stays one higher. *)
Theorem unchanged_commit_leaves_marks (rev : revision) (discover : bool)
    (response : string) (super : option git_repository)
    (g g1 : git_repository) :
  current_ref g = None ->
  open_commit rev g = Ok g1 ->
  defer_close discover g = false ->
  (41 <= String.length response)%nat ->
  back_is_tab response = true ->
  new_sha_of response = head_tree_sha (ref_at (last (modified_refs g) 0) g) ->
  marks (ref_at (last (modified_refs g) 0) g) <> [] ->
  Forall (fun e => fst e < rev_revnum rev)
         (marks (ref_at (last (modified_refs g) 0) g)) ->
  exists b super' g2,
    close_commit discover response (super, g1) = Ok (b, (super', g2))
    /\ marks (ref_at (last (modified_refs g) 0) g2)
       = marks (ref_at (last (modified_refs g) 0) g)
    /\ last_mark g2 = last_mark g + 1
    /\ current_ref g2 = None
    /\ ~ In (last (modified_refs g) 0) (modified_refs g2)
    /\ fast_import g2
       = (fast_import g1
          ++ [fi_reset (name (ref_at (last (modified_refs g) 0) g))
                (snd (last (marks (ref_at (last (modified_refs g) 0) g))
                           (0, 0)))])%list.
Proof.
  intros Hcur Hopen Hdefer Hlen Htab Hsha Hne Hbefore.
  destruct (open_commit_opened rev g g1 Hcur Hopen)
    as (O1 & O2 & O3 & O4 & O5 & O6 & O7 & O8 & _).
  set (c := last (modified_refs g) 0) in *.
  assert (Hd1 : defer_close discover g1 = false)
    by (unfold defer_close in *; now rewrite O4, O5).
  assert (Hs1 : new_sha_of response = head_tree_sha (ref_at c g1))
    by now rewrite O8.
  rewrite (close_commit_matching discover response super g1 c Hd1 O1 Hlen
             Htab Hs1).
  assert (Hmarks : marks (ref_at c g1)
                   = (marks (ref_at c g)
                      ++ [(rev_revnum rev, last_mark g + 1)])%list)
    by (rewrite O6; now apply zm_insert_last).
  assert (Htwo : (2 <=? List.length (marks (ref_at c g1)))%nat = true).
  { apply Nat.leb_le. rewrite Hmarks, length_app. cbn [List.length].
    destruct (marks (ref_at c g)); [congruence | cbn; lia]. }
  rewrite Htwo. cbn [assert bind]. cbv zeta.
  destruct (elided_ref c (new_sha_of response) g1) as (E1 & E2 & E3).
  eexists. eexists. eexists. split; [reflexivity|].
  cbn [current_ref last_mark fast_import modified_refs set_current_ref
       set_modified_refs].
  change (ref_at c (set_current_ref None (set_modified_refs ?l ?x)))
    with (ref_at c x).
  split; [rewrite E3, Hmarks; apply removelast_last|].
  split; [exact O2|]. split; [reflexivity|]. split.
  - intros Hin. apply filter_In in Hin. destruct Hin as [_ Hin].
    now rewrite Z.eqb_refl in Hin.
  - rewrite E1, E2, Hmarks, removelast_last, O7. reflexivity.
Qed.

Lemma unchanged_commit_leaves_marks_witness :
  exists g1 b super' g2,
    open_commit GitExamples.rev3
      (set_modified_refs [GitExamples.master]
         (GitExamples.or_start GitExamples.revision1)) = Ok g1
    /\ marks (ref_at GitExamples.master g1) = [(1, 1); (3, 2)]
    /\ close_commit false GitExamples.response_a (None, g1)
       = Ok (b, (super', g2))
    /\ marks (ref_at GitExamples.master g2) = [(1, 1)]
    /\ last_mark g2 = 2.
Proof.
  set (g := set_modified_refs [GitExamples.master]
              (GitExamples.or_start GitExamples.revision1)).
  destruct (open_commit GitExamples.rev3 g) as [g1|] eqn:E;
    [|vm_compute in E; discriminate].
  destruct (unchanged_commit_leaves_marks GitExamples.rev3 false
              GitExamples.response_a None g g1)
    as (b & super' & g2 & Hc & Hm & Hl & _); try reflexivity.
  - exact E.
  - vm_compute. lia.
  - vm_compute. discriminate.
  - vm_compute. repeat constructor.
  - exists g1, b, super', g2. split; [reflexivity|].
    split; [vm_compute in E; inversion E; reflexivity|].
    split; [exact Hc|].
    split; [etransitivity; [exact Hm | reflexivity]|].
    rewrite Hl. reflexivity.
Defined.

(** what [close_commit] logs for a response that holds no tree *)
Definition unrecognized_response (response : string) (g : git_repository)
    (c : Z) : string :=
  "Unrecognized response " ++ DQUOTE ++ response ++ DQUOTE
  ++ " from ls in ref " ++ name (ref_at c g).

(** [close_commit] on a tree that changed keeps the commit: the marks of
    the ref stay, nothing is written, and the new tree is remembered.  On
    a response too short to hold a tree it logs an error, keeps the commit
    all the same and forgets the tree of the ref, so that the next commit
    of the ref is not taken for unchanged; a response that is long enough
    and does not end in a tab fails the assertion.  Either way that
    returns, the ref is no longer current nor modified, the super-module
    has one modified submodule ref less, and the flag returned tells
    whether no modified ref is left. *)
Theorem close_commit_keeps_commit (discover : bool) (response : string)
    (super : option git_repository) (g : git_repository) (c : Z) :
  defer_close discover g = false ->
  current_ref g = Some c ->
  ((41 <= String.length response)%nat ->
   back_is_tab response = true ->
   new_sha_of response <> head_tree_sha (ref_at c g) ->
   exists g',
     close_commit discover response (super, g)
     = Ok (match modified_refs g' with [] => true | _ => false end,
           (option_map (fun s => set_modified_submodule_refs
                                   (modified_submodule_refs s - 1) s) super,
            g'))
     /\ marks (ref_at c g') = marks (ref_at c g)
     /\ head_tree_sha (ref_at c g') = new_sha_of response
     /\ fast_import g' = fast_import g
     /\ messages g' = messages g
     /\ last_mark g' = last_mark g
     /\ current_ref g' = None
     /\ modified_refs g' = filter (fun p => negb (p =? c)) (modified_refs g))
  /\ ((String.length response < 41)%nat ->
      exists g',
        close_commit discover response (super, g)
        = Ok (match modified_refs g' with [] => true | _ => false end,
              (option_map (fun s => set_modified_submodule_refs
                                      (modified_submodule_refs s - 1) s) super,
               g'))
        /\ marks (ref_at c g') = marks (ref_at c g)
        /\ head_tree_sha (ref_at c g') = ""
        /\ fast_import g' = fast_import g
        /\ messages g'
           = (messages g ++ [unrecognized_response response g c])%list
        /\ current_ref g' = None
        /\ modified_refs g' = filter (fun p => negb (p =? c)) (modified_refs g))
  /\ ((41 <= String.length response)%nat ->
      back_is_tab response = false ->
      close_commit discover response (super, g)
      = Abort (AssertionFailed "response.back() == '\t'")).
Proof.
  intros Hd Hc. unfold close_commit. rewrite Hd, Hc.
  split; [|split].
  - intros Hlen Htab Hsha.
    replace (String.length response <? 41)%nat with false
      by (symmetry; apply Nat.ltb_ge; lia).
    rewrite Htab. cbn [assert bind].
    apply String.eqb_neq in Hsha. rewrite Hsha. cbn [bind].
    eexists. split; [reflexivity|].
    cbn [fast_import messages last_mark current_ref modified_refs
         set_current_ref set_modified_refs update_ref set_refs].
    change (ref_at c (set_current_ref None (set_modified_refs ?l ?x)))
      with (ref_at c x).
    rewrite ref_at_update. cbn [marks head_tree_sha set_head_tree_sha].
    repeat split.
  - intros Hlen.
    replace (String.length response <? 41)%nat with true
      by (symmetry; apply Nat.ltb_lt; lia).
    cbn [bind].
    eexists. split; [reflexivity|].
    cbn [fast_import messages last_mark current_ref modified_refs
         set_current_ref set_modified_refs update_ref set_refs report].
    change (ref_at c (set_current_ref None (set_modified_refs ?l ?x)))
      with (ref_at c x).
    rewrite ref_at_update. cbn [marks head_tree_sha set_head_tree_sha].
    repeat split.
  - intros Hlen Htab.
    replace (String.length response <? 41)%nat with false
      by (symmetry; apply Nat.ltb_ge; lia).
    rewrite Htab. reflexivity.
Qed.

Lemma close_commit_keeps_commit_witness :
  exists g',
    close_commit false "missing" (None, GitExamples.revision3_opened)
    = Ok (true, (None, g'))
    /\ marks (ref_at GitExamples.master g') = [(1, 1); (3, 2)]
    /\ head_tree_sha (ref_at GitExamples.master g') = "".
Proof.
  destruct (close_commit_keeps_commit false "missing" None
              GitExamples.revision3_opened GitExamples.master)
    as (_ & H & _); try reflexivity.
  destruct H as (g' & Hc & Hm & Hs & _ & _ & _ & Hr); [vm_compute; lia|].
  exists g'. rewrite Hc, Hr. split; [reflexivity|].
  split; [rewrite Hm; reflexivity | exact Hs].
Defined.
End GitCommitFacts.

(** ** [git_repository]: super-modules and modified refs
    (src/git_repository.cpp) *)

Module GitModules.
Import GitRepository.

Definition set_has_submodules (v : bool) (g : git_repository) :=
  mkGit (git_dir g) (refs g) v (modified_submodule_refs g) (last_mark g)
        (current_ref g) (modified_refs g) (fast_import g) (messages g).

(** [this->super_module] and [this->submodule_path] of a repository; a
    super-module is named by its address, [None] is [nullptr]. *)
Record module_link : Type := mkLink {
  super_module : option Z;
  submodule_path : string
}.

(** [git_repository::set_super_module(super_module, submodule_path)], on
    the link of [this]; [super] is the address and the state of the
    repository the argument points to, [None] for [nullptr].  The result
    carries the link and the super-module as the call leaves them. *)
Definition set_super_module (super : option (Z * git_repository))
    (path : string) (this : module_link)
  : result (module_link * option git_repository) :=
  match super with
  | None => Ok (this, None)
  | Some (p, s) =>
      let* _ :=
        match super_module this with
        | Some q =>
            if negb (q =? p)
            then Abort (RuntimeError "Conflicting super-module specifications")
            else if negb (String.eqb (submodule_path this) path)
            then Abort (RuntimeError "Conflicting submodule path declarations")
            else Ok tt
        | None => Ok tt
        end in
      Ok (mkLink (Some p) path, Some (set_has_submodules true s))
  end.

(** [std::set<ref*>]: [count] and [insert] on the ascending list of its
    elements *)
Definition set_count (p : Z) (s : list Z) : bool := existsb (Z.eqb p) s.

Fixpoint set_insert (p : Z) (s : list Z) : list Z :=
  match s with
  | [] => [p]
  | q :: s' =>
      match p ?= q with
      | Lt => p :: s
      | Eq => s
      | Gt => q :: set_insert p s'
      end
  end.

(** [git_repository::modify_ref(name, allow_discovery)] on the repository
    [g]; [supers] is the chain of its super-modules, the nearest first
    ([g.super_module], then the super-module of that one, and so on), each
    a repository of its own.  The result carries the pointer returned
    ([None] for [nullptr]), the repository and the chain. *)
Fixpoint modify_ref (name_ : string) (allow_discovery : bool)
    (g : git_repository) (supers : list git_repository)
  : option Z * git_repository * list git_repository :=
  let (r, g) := demand_ref name_ g in
  if set_count r (modified_refs g) then (Some r, g, supers)
  else if negb allow_discovery then (None, g, supers)
  else
    let g := set_modified_refs (set_insert r (modified_refs g)) g in
    match supers with
    | [] => (Some r, g, [])
    | s :: rest =>
        let s := set_modified_submodule_refs (modified_submodule_refs s + 1) s in
        let '(super_ref, s, rest) := modify_ref name_ allow_discovery s rest in
        let s := match super_ref with
                 | Some p => update_ref p (set_rewrite_dot_gitmodules true) s
                 | None => s
                 end in
        (Some r, g, s :: rest)
    end.

End GitModules.

Module GitModulesFacts.
Import GitRepository GitRepositoryFacts GitModules.

Lemma set_count_insert (p : Z) (s : list Z) : set_count p (set_insert p s) = true.
Proof.
  unfold set_count. induction s as [|q s IH]; cbn [set_insert existsb].
  - now rewrite Z.eqb_refl.
  - destruct (Z.compare_spec p q) as [->|Hlt|Hgt]; cbn [existsb].
    + now rewrite Z.eqb_refl.
    + now rewrite Z.eqb_refl.
    + rewrite IH. apply orb_true_r.
Qed.

Lemma set_count_In (p : Z) (s : list Z) : set_count p s = true <-> In p s.
Proof.
  unfold set_count. rewrite existsb_exists. split.
  - intros (x & Hx & E). apply Z.eqb_eq in E. now subst.
  - intros H. exists p. split; [exact H | apply Z.eqb_refl].
Qed.

Lemma fresh_address_above (g : git_repository) (k : Z) :
  In k (om_keys (refs g)) -> k < fresh_address g.
Proof.
  unfold fresh_address. induction (om_keys (refs g)) as [|q l IH];
    cbn [In fold_right]; [contradiction|].
  intros [->|H]; [lia|]. specialize (IH H). lia.
Qed.

Lemma zm_insert_fresh {V : Type} (k : Z) (v : V) (m : list (Z * V)) :
  ~ In k (om_keys m) ->
  exists l1 l2, m = (l1 ++ l2)%list /\ zm_insert k v m = (l1 ++ (k, v) :: l2)%list.
Proof.
  induction m as [|[k' v'] m IH]; intros Hk.
  - exists [], []. split; reflexivity.
  - cbn [om_insert]. destruct (Z.compare_spec k k') as [->|Hlt|Hgt].
    + exfalso. apply Hk. now left.
    + exists [], ((k', v') :: m). split; reflexivity.
    + destruct IH as (l1 & l2 & E1 & E2); [intros H; apply Hk; now right|].
      exists ((k', v') :: l1), l2. cbn [app]. now rewrite <- E1, E2.
Qed.

(** [demand_ref] finds the ref it has made. *)
Lemma demand_ref_found (n : string) (g : git_repository) :
  find_ref n (snd (demand_ref n g)) = Some (fst (demand_ref n g)).
Proof.
  unfold demand_ref. destruct (find_ref n g) as [p|] eqn:E; [exact E|].
  cbn [fst snd]. unfold find_ref in *. cbn [refs set_refs].
  destruct (zm_insert_fresh (fresh_address g) (ref_new n) (refs g))
    as (l1 & l2 & E1 & E2).
  { intros H. apply fresh_address_above in H. lia. }
  rewrite E2. rewrite E1 in E.
  rewrite filter_app in E |- *. cbn [filter name ref_new snd].
  rewrite String.eqb_refl.
  destruct (filter _ l1) as [|[q rq] f1]; [|discriminate].
  reflexivity.
Qed.

Lemma demand_ref_again (n : string) (g : git_repository) (l : list Z) :
  demand_ref n (set_modified_refs l (snd (demand_ref n g)))
  = (fst (demand_ref n g), set_modified_refs l (snd (demand_ref n g))).
Proof.
  pose proof (demand_ref_found n g) as H.
  unfold demand_ref at 1.
  change (find_ref n (set_modified_refs l ?x)) with (find_ref n x).
  now rewrite H.
Qed.

Lemma demand_ref_modified (n : string) (g : git_repository) :
  modified_refs (snd (demand_ref n g)) = modified_refs g.
Proof. unfold demand_ref. destruct (find_ref n g); reflexivity. Qed.

Lemma set_modified_refs_same (g : git_repository) :
  set_modified_refs (modified_refs g) g = g.
Proof. now destruct g. Qed.

(** After [modify_ref] has returned a ref, the ref is modified, and
    further calls return it and change nothing, whatever they allow. *)
Lemma modify_ref_returned (n : string) (allow : bool) :
  forall supers g p g' supers',
    modify_ref n allow g supers = (Some p, g', supers') ->
    p = fst (demand_ref n g)
    /\ In p (modified_refs g')
    /\ find_ref n g' = Some p
    /\ forall allow', modify_ref n allow' g' supers' = (Some p, g', supers').
Proof.
  intros supers g p g' supers' H.
  assert (Hagain : forall l supers0 allow',
            set_count (fst (demand_ref n g)) l = true ->
            modify_ref n allow' (set_modified_refs l (snd (demand_ref n g)))
                       supers0
            = (Some (fst (demand_ref n g)),
               set_modified_refs l (snd (demand_ref n g)), supers0)).
  { intros l supers0 allow' Hl.
    destruct supers0; cbn [modify_ref]; rewrite demand_ref_again;
      cbn [modified_refs set_modified_refs]; now rewrite Hl. }
  destruct supers as [|s rest]; cbn [modify_ref] in H;
    destruct (demand_ref n g) as [r gd] eqn:Ed; cbn [fst snd] in *;
    destruct (set_count r (modified_refs gd)) eqn:Ec.
  - inversion H; subst. split; [reflexivity|].
    split; [now apply set_count_In|].
    split; [pose proof (demand_ref_found n g) as F; now rewrite Ed in F|].
    intros allow'. rewrite <- (set_modified_refs_same g').
    apply Hagain. exact Ec.
  - destruct (negb allow); [discriminate|]. inversion H; subst.
    split; [reflexivity|].
    split; [apply set_count_In; apply set_count_insert|].
    split; [pose proof (demand_ref_found n g) as F; now rewrite Ed in F|].
    intros allow'. apply Hagain. apply set_count_insert.
  - inversion H; subst. split; [reflexivity|].
    split; [now apply set_count_In|].
    split; [pose proof (demand_ref_found n g) as F; now rewrite Ed in F|].
    intros allow'. rewrite <- (set_modified_refs_same g').
    apply Hagain. exact Ec.
  - destruct (negb allow); [discriminate|].
    destruct (modify_ref n allow _ rest) as [[sr s1] rest1].
    inversion H; subst. split; [reflexivity|].
    split; [apply set_count_In; apply set_count_insert|].
    split; [pose proof (demand_ref_found n g) as F; now rewrite Ed in F|].
    intros allow'. apply Hagain. apply set_count_insert.
Qed.

Lemma modify_ref_discovers (n : string) (g : git_repository)
    (supers : list git_repository) :
  exists g' supers',
    modify_ref n true g supers = (Some (fst (demand_ref n g)), g', supers').
Proof.
  destruct supers as [|s rest]; cbn [modify_ref];
    destruct (demand_ref n g) as [r gd]; cbn [fst];
    destruct (set_count r (modified_refs gd)); cbn [negb]; eauto.
  destruct (modify_ref n true _ rest) as [[sr s1] rest1]. eauto.
Qed.

Lemma demand_ref_counters (n : string) (g : git_repository) :
  modified_submodule_refs (snd (demand_ref n g)) = modified_submodule_refs g.
Proof. unfold demand_ref. destruct (find_ref n g); reflexivity. Qed.

Lemma demand_ref_fst_counters (n : string) (v : Z) (g : git_repository) :
  fst (demand_ref n (set_modified_submodule_refs v g)) = fst (demand_ref n g).
Proof.
  unfold demand_ref.
  change (find_ref n (set_modified_submodule_refs v g)) with (find_ref n g).
  destruct (find_ref n g); reflexivity.
Qed.

Lemma modify_ref_counters (n : string) (allow : bool) (g : git_repository)
    (supers : list git_repository) :
  modified_submodule_refs (snd (fst (modify_ref n allow g supers)))
  = modified_submodule_refs g.
Proof.
  pose proof (demand_ref_counters n g) as Hd.
  destruct supers as [|s rest]; cbn [modify_ref];
    destruct (demand_ref n g) as [r gd]; cbn [snd] in Hd;
    destruct (set_count r (modified_refs gd)); cbn [fst snd]; try exact Hd;
    destruct (negb allow); cbn [fst snd]; try exact Hd.
  destruct (modify_ref n allow _ rest) as [[sr s1] rest1]. exact Hd.
Qed.

(** [modify_ref] marks a ref as modified once.  With discovery allowed it
    returns the ref of that name and the ref is modified afterwards;
    further calls return the same and change nothing.  When the ref was
    not modified before, the nearest super-module counts one modified
    submodule ref more, and its own ref of that name is modified and due
    to have its .gitmodules rewritten; a call that does not allow
    discovery returns null for such a ref and marks nothing.  When the
    ref was modified already, no counter moves. *)
Theorem modify_ref_marks_once (n : string) (g s : git_repository)
    (rest : list git_repository) :
  let r := fst (demand_ref n g) in
  let res := modify_ref n true g (s :: rest) in
  fst (fst res) = Some r
  /\ In r (modified_refs (snd (fst res)))
  /\ (forall allow, modify_ref n allow (snd (fst res)) (snd res) = res)
  /\ (In r (modified_refs g) ->
      forall allow,
        modify_ref n allow g (s :: rest)
        = (Some r, snd (demand_ref n g), s :: rest))
  /\ (~ In r (modified_refs g) ->
      modify_ref n false g (s :: rest) = (None, snd (demand_ref n g), s :: rest)
      /\ modified_refs (snd (fst res)) = set_insert r (modified_refs g)
      /\ exists s' rest',
           snd res = s' :: rest'
           /\ modified_submodule_refs s' = modified_submodule_refs s + 1
           /\ In (fst (demand_ref n s)) (modified_refs s')
           /\ rewrite_dot_gitmodules (ref_at (fst (demand_ref n s)) s') = true).
Proof.
  cbv zeta.
  destruct (modify_ref_discovers n g (s :: rest)) as (g' & supers' & E).
  rewrite E. cbn [fst snd].
  destruct (modify_ref_returned n true _ _ _ _ _ E) as (_ & Hin & _ & Hagain).
  split; [reflexivity|]. split; [exact Hin|]. split; [exact Hagain|].
  pose proof (demand_ref_modified n g) as Hmod.
  split.
  - intros Hr allow. cbn [modify_ref].
    destruct (demand_ref n g) as [r gd]. cbn [fst snd] in *.
    apply set_count_In in Hr. rewrite <- Hmod in Hr. now rewrite Hr.
  - intros Hr.
    assert (Hc : set_count (fst (demand_ref n g))
                           (modified_refs (snd (demand_ref n g))) = false).
    { rewrite Hmod. apply not_true_is_false. intros H.
      apply Hr. now apply set_count_In. }
    cbn [modify_ref] in E |- *.
    destruct (demand_ref n g) as [r gd]. cbn [fst snd] in *.
    rewrite Hc in E |- *. cbn [negb] in E |- *.
    split; [reflexivity|].
    set (s0 := set_modified_submodule_refs (modified_submodule_refs s + 1) s) in *.
    pose proof (modify_ref_counters n true s0 rest) as Hcount.
    destruct (modify_ref_discovers n s0 rest) as (s1 & rest1 & E1).
    rewrite E1 in E, Hcount. cbn [fst snd] in Hcount.
    destruct (modify_ref_returned n true _ _ _ _ _ E1) as (_ & Hin1 & _).
    inversion E; subst g' supers'.
    split; [cbn [modified_refs set_modified_refs]; now rewrite Hmod|].
    eexists. eexists. split; [reflexivity|].
    unfold s0 in Hin1 |- *. rewrite demand_ref_fst_counters in Hin1 |- *.
    split; [exact Hcount|]. split; [exact Hin1|].
    now rewrite ref_at_update.
Qed.

(** [set_super_module] binds a repository to one super-module and one
    path: the first call records both and tells the super-module that it
    has submodules, so that the super-module defers its close while
    changes are being discovered; a later call with the same two is
    accepted, one with another super-module or another path throws, and a
    call with no super-module does nothing. *)
Theorem set_super_module_binds_once (p : Z) (s : git_repository)
    (path : string) (this : module_link) :
  super_module this = None ->
  exists s',
    set_super_module (Some (p, s)) path this = Ok (mkLink (Some p) path, Some s')
    /\ has_submodules s' = true
    /\ defer_close true s' = true
    /\ (forall s2,
          set_super_module (Some (p, s2)) path (mkLink (Some p) path)
          = Ok (mkLink (Some p) path, Some (set_has_submodules true s2)))
    /\ (forall q s2 path2,
          q <> p ->
          set_super_module (Some (q, s2)) path2 (mkLink (Some p) path)
          = Abort (RuntimeError "Conflicting super-module specifications"))
    /\ (forall s2 path2,
          path2 <> path ->
          set_super_module (Some (p, s2)) path2 (mkLink (Some p) path)
          = Abort (RuntimeError "Conflicting submodule path declarations"))
    /\ (forall path2,
          set_super_module None path2 (mkLink (Some p) path)
          = Ok (mkLink (Some p) path, None)).
Proof.
  intros Hnone. exists (set_has_submodules true s).
  unfold set_super_module. rewrite Hnone. cbn [bind super_module submodule_path].
  split; [reflexivity|]. split; [reflexivity|]. split; [reflexivity|].
  split; [|split; [|split]].
  - intros s2. now rewrite Z.eqb_refl, String.eqb_refl.
  - intros q s2 path2 Hq. replace (p =? q) with false; [reflexivity|].
    symmetry. apply Z.eqb_neq. congruence.
  - intros s2 path2 Hp. rewrite Z.eqb_refl. cbn [negb].
    replace (String.eqb path path2) with false; [reflexivity|].
    symmetry. apply String.eqb_neq. congruence.
  - reflexivity.
Qed.

Lemma set_super_module_binds_once_witness :
  exists s',
    set_super_module (Some (1, GitExamples.start)) "libs/child"
                     (mkLink None "")
    = Ok (mkLink (Some 1) "libs/child", Some s')
    /\ defer_close true s' = true.
Proof.
  destruct (set_super_module_binds_once 1 GitExamples.start "libs/child"
              (mkLink None "")) as (s' & H & _ & Hd & _); [reflexivity|].
  exists s'. split; [exact H | exact Hd].
Defined.

(** The child repository of the examples gets a modified ref: the
    super-module counts it and has its own ref of that name modified. *)
Lemma modify_ref_marks_once_witness :
  exists g' s',
    modify_ref "refs/heads/master" true
      (set_modified_refs [] GitExamples.start)
      [set_has_submodules true (set_modified_refs [] GitExamples.start)]
    = (Some 1, g', [s'])
    /\ modified_refs g' = [1]
    /\ modified_submodule_refs s' = 1
    /\ modified_refs s' = [1]
    /\ rewrite_dot_gitmodules (ref_at 1 s') = true
    /\ defer_close false s' = true.
Proof.
  pose proof (modify_ref_marks_once "refs/heads/master"
                (set_modified_refs [] GitExamples.start)
                (set_has_submodules true (set_modified_refs [] GitExamples.start))
                []) as H.
  cbv zeta in H. destruct H as (H1 & _).
  eexists. eexists.
  split; [vm_compute; reflexivity|].
  split; [reflexivity|]. split; [reflexivity|]. split; [reflexivity|].
  split; reflexivity.
Defined.
End GitModulesFacts.

(** ** Annotated tags (src/repository.cpp) *)

Module AnnotatedTags.
Import Repository.

(** [Repository::AnnotatedTag] *)
Record AnnotatedTag : Type := mkAnnotatedTag {
  supportingRef : string;
  tag_svnprefix : string;
  tag_revnum : Z;
  tag_author : string;
  tag_log : string;
  tag_dt : Z
}.

(** [tagName] of [createAnnotatedTag]: the ref name, without a leading
    [refs/tags/] *)
Definition tagName_of (ref : string) : string :=
  if starts_with ref "refs/tags/" then substr_from 10 ref else ref.

(** [Repository::createAnnotatedTag], on the [annotatedTags] of the
    repository, a hash from tag names to tags *)
Definition createAnnotatedTag (branch_rule : BranchRule) (svnprefix_ : string)
    (rev : Z) (author_ : string) (dt : Z) (log_ : string)
    (annotatedTags : list (string * AnnotatedTag))
  : list (string * AnnotatedTag) :=
  let ref := git_ref_name branch_rule in
  sm_insert (tagName_of ref)
            (mkAnnotatedTag ref svnprefix_ rev author_ log_ dt)
            annotatedTags.

Section WithOptions.
Variable options : Options.

(** the message of a tag, as [finalizeTags] builds it *)
Definition tag_message (tagName : string) (tag : AnnotatedTag) : string :=
  let message := if ends_with (tag_log tag) LF then tag_log tag
                 else tag_log tag ++ LF in
  if add_metadata options
  then message ++ LF
       ++ formatMetadataMessage (tag_svnprefix tag) (tag_revnum tag) tagName
  else message.

Definition tag_header (tagName : string) (tag : AnnotatedTag) : string :=
  "progress Creating annotated tag " ++ tagName ++ " from ref "
  ++ supportingRef tag ++ LF
  ++ "tag " ++ tagName ++ LF
  ++ "from " ++ supportingRef tag ++ LF
  ++ "tagger " ++ tag_author tag ++ " " ++ to_string (tag_dt tag)
  ++ " +0000" ++ LF
  ++ "data " ++ to_string (Z.of_nat (String.length (tag_message tagName tag)))
  ++ LF.

(** One turn of the loop of [Repository::finalizeTags], for the entry
    ([tagName], [tag]) of [annotatedTags]. *)
Definition finalizeTags_step (r : Repository) (entry : string * AnnotatedTag)
  : result Repository :=
  let (tagName, tag) := entry in
  let* _ := assert (starts_with (supportingRef tag) "refs/")
                   "starts_with(tag.supportingRef, refs/)" in
  let r := write (tag_header tagName tag) r in
  let r := write (tag_message tagName tag) r in
  let r := write LF r in
  if add_metadata_notes options then
    let* r := demandTransaction options (supportingRef tag)
                                (tag_svnprefix tag) (tag_revnum tag) r in
    let t := setDateTime (tag_dt tag)
               (setAuthor (tag_author tag) (txn (supportingRef tag) r)) in
    let r := store_txn (supportingRef tag) t r in
    let* r := commitNote (formatMetadataMessage (tag_svnprefix tag)
                            (tag_revnum tag) tagName)
                         true "" t r in
    let r := set_transactions
               (sm_remove (supportingRef tag) (transactions r)) r in
    Ok (match transactions r with
        | [] => set_next_file_mark maxMark r
        | _ => r
        end)
  else Ok r.

(** [Repository::finalizeTags]; [annotatedTags] lists the entries of the
    hash in the order its iterator visits them. *)
Definition finalizeTags (annotatedTags : list (string * AnnotatedTag))
    (r : Repository) : result Repository :=
  match annotatedTags with
  | [] => Ok r
  | _ =>
      let* r := startFastImport options r in
      foldM finalizeTags_step annotatedTags r
  end.

End WithOptions.
End AnnotatedTags.

Module AnnotatedTagsFacts.
Import Repository RepositoryFacts AnnotatedTags.

Lemma sm_insert_twice {V : Type} (k : string) (v1 v2 : V)
    (m : list (string * V)) :
  sm_insert k v2 (sm_insert k v1 m) = sm_insert k v2 m.
Proof.
  assert (Hrefl : String.compare k k = Eq) by now apply string_compare_eq.
  induction m as [|[k' v'] m IH]; cbn [om_insert].
  - now rewrite Hrefl.
  - destruct (String.compare k k') eqn:E; cbn [om_insert].
    + now rewrite Hrefl.
    + now rewrite Hrefl.
    + now rewrite E, IH.
Qed.

Lemma substring_all (s : string) : String.substring 0 (String.length s) s = s.
Proof. induction s as [|c s IH]; cbn; [reflexivity | now rewrite IH]. Qed.

(** A tag is kept under the ref name without its leading [refs/tags/].
    Creating a tag again replaces the tag of that name: the tags hold the
    data of the last call, the same as if the earlier call had not been
    made, and the other tags stay. *)
Theorem createAnnotatedTag_last_wins (rule : BranchRule)
    (p1 : string) (rev1 : Z) (a1 : string) (dt1 : Z) (l1 : string)
    (p2 : string) (rev2 : Z) (a2 : string) (dt2 : Z) (l2 : string)
    (tags : list (string * AnnotatedTag)) :
  let tagName := tagName_of (git_ref_name rule) in
  let once := createAnnotatedTag rule p2 rev2 a2 dt2 l2 tags in
  let twice := createAnnotatedTag rule p2 rev2 a2 dt2 l2
                 (createAnnotatedTag rule p1 rev1 a1 dt1 l1 tags) in
  twice = once
  /\ sm_find tagName twice
     = Some (mkAnnotatedTag (git_ref_name rule) p2 rev2 a2 l2 dt2)
  /\ (forall k, k <> tagName -> sm_find k twice = sm_find k tags)
  /\ (forall x, git_ref_name rule = "refs/tags/" ++ x -> tagName = x)
  /\ (starts_with (git_ref_name rule) "refs/tags/" = false ->
      tagName = git_ref_name rule).
Proof.
  cbv zeta. unfold createAnnotatedTag.
  split; [apply sm_insert_twice|].
  split; [apply (om_find_insert _ string_compare_eq)|].
  split.
  - intros k Hk.
    rewrite !(om_find_insert_ne _ string_compare_eq) by exact Hk.
    reflexivity.
  - split.
    + intros x Hx. unfold tagName_of. rewrite Hx. cbn.
      replace (String.prefix "" x) with true by (now destruct x).
      rewrite Nat.sub_0_r. apply substring_all.
    + intros Hs. unfold tagName_of. now rewrite Hs.
Qed.

Section WithOptions.
Variable options : Options.

(** what [finalizeTags] writes for a tag *)
Definition tag_chunks (entry : string * AnnotatedTag) : list string :=
  [tag_header options (fst entry) (snd entry);
   tag_message options (fst entry) (snd entry); LF].

Definition supported (entry : string * AnnotatedTag) : Prop :=
  starts_with (supportingRef (snd entry)) "refs/" = true.

Lemma finalizeTags_loop_plain (tags : list (string * AnnotatedTag)) :
  add_metadata_notes options = false ->
  Forall supported tags ->
  forall r,
    foldM (finalizeTags_step options) tags r
    = Ok (write_all (flat_map tag_chunks tags) r).
Proof.
  intros Hn. induction 1 as [|[tagName tag] tags Hs _ IH]; intros r.
  - reflexivity.
  - cbn [foldM]. unfold finalizeTags_step at 1.
    unfold supported in Hs. cbn [snd] in Hs. rewrite Hs, Hn.
    cbn [assert bind]. rewrite IH. reflexivity.
Qed.

(** Without metadata notes, [finalizeTags] starts the fast-import and
    writes, for each tag in turn, the tag command that names the tag, its
    supporting ref and its tagger, the message, whose length the command
    states, and a line feed; nothing else.  Without tags it does nothing,
    and does not start the fast-import. *)
Theorem finalizeTags_writes_tags (tags : list (string * AnnotatedTag))
    (r r0 : Repository) :
  add_metadata_notes options = false ->
  Forall supported tags ->
  tags <> [] ->
  startFastImport options r = Ok r0 ->
  finalizeTags options tags r = Ok (write_all (flat_map tag_chunks tags) r0)
  /\ fastImport (write_all (flat_map tag_chunks tags) r0)
     = (fastImport r0 ++ flat_map tag_chunks tags)%list
  /\ finalizeTags options [] r = Ok r.
Proof.
  intros Hn Hs Hne Hstart. split; [|split; [|reflexivity]].
  - unfold finalizeTags. destruct tags as [|e tags]; [congruence|].
    rewrite Hstart. cbn [bind]. now apply finalizeTags_loop_plain.
  - now rewrite write_all_eq.
Qed.

(** [finalizeTags] takes no commit mark and leaves the commits and the
    marks of every branch as they are, with or without notes. *)
Theorem finalizeTags_takes_no_mark (tags : list (string * AnnotatedTag))
    (r r' : Repository) :
  finalizeTags options tags r = Ok r' ->
  last_commit_mark r' = last_commit_mark r
  /\ forall k, commits (branch_at k r') = commits (branch_at k r)
               /\ marks (branch_at k r') = marks (branch_at k r).
Proof.
  set (P := fun s : Repository =>
              last_commit_mark s = last_commit_mark r
              /\ forall k, commits (branch_at k s) = commits (branch_at k r)
                           /\ marks (branch_at k s) = marks (branch_at k r)).
  assert (Hstep : forall s x s',
            P s -> finalizeTags_step options s x = Ok s' -> P s').
  { intros s [tagName tag] s' (Hl & Hb) H. unfold finalizeTags_step in H.
    apply bind_Ok in H. destruct H as (u & _ & H).
    destruct (add_metadata_notes options).
    - apply bind_Ok in H. destruct H as (r1 & Hd & H).
      apply bind_Ok in H. destruct H as (r2 & Hc & H).
      injection H as <-.
      pose proof (demandTransaction_mild options _ _ _ _ _ Hd) as (D1 & _).
      destruct (demandTransaction_txn options _ _ _ _ _ Hd) as (_ & D2 & _).
      destruct (commitNote_vectors _ _ _ _ _ _ Hc) as (C1 & _ & C3 & _).
      assert (Q : P r2).
      { split.
        - rewrite C1. cbn [last_commit_mark store_txn set_transactions].
          rewrite D1. exact Hl.
        - intros k. destruct (C3 k) as [C4 C5]. rewrite C5, C4.
          unfold branch_at. cbn [branches store_txn set_transactions].
          rewrite D2. apply (Hb k). }
      match goal with
      | |- P (match ?t with [] => _ | _ => _ end) => destruct t; exact Q
      end.
    - injection H as <-. split; [exact Hl | exact Hb]. }
  intros H. unfold finalizeTags in H.
  destruct tags as [|e tags]; [injection H as <-; split; [reflexivity | auto]|].
  apply bind_Ok in H. destruct H as (r0 & Hstart & H).
  refine (foldM_invariant P _ Hstep _ _ _ _ H).
  pose proof (startFastImport_core options _ _ Hstart) as Hc.
  destruct Hc as (_ & _ & _ & Hb & _ & _ & _ & _ & Hl & _).
  split; [exact Hl|]. intros k. unfold branch_at. now rewrite Hb.
Qed.

End WithOptions.

(** A tag on the master of the examples *)
Definition release_tag : AnnotatedTag :=
  mkAnnotatedTag "refs/tags/release" "tags/release" 4 "author" "release" 400.

Definition release_written : list string :=
  ["progress Creating annotated tag release from ref refs/tags/release"
   ++ LF ++ "tag release" ++ LF ++ "from refs/tags/release" ++ LF
   ++ "tagger author 400 +0000" ++ LF ++ "data 8" ++ LF;
   "release" ++ LF; LF].

Lemma finalizeTags_writes_tags_witness :
  exists r',
    finalizeTags Examples.opts [("release", release_tag)]
                 Examples.after_revision4 = Ok r'
    /\ fastImport r'
       = (fastImport Examples.after_revision4 ++ release_written)%list.
Proof.
  destruct (finalizeTags_writes_tags Examples.opts [("release", release_tag)]
              Examples.after_revision4 Examples.after_revision4)
    as (H & Hout & _).
  - reflexivity.
  - repeat constructor.
  - discriminate.
  - reflexivity.
  - eexists. split; [exact H|]. rewrite Hout. reflexivity.
Defined.

Lemma finalizeTags_takes_no_mark_witness :
  exists r',
    finalizeTags (mkOptions false true true 10000) [("release", release_tag)]
                 Examples.after_revision4 = Ok r'
    /\ last_commit_mark r' = 2.
Proof.
  destruct (finalizeTags (mkOptions false true true 10000)
              [("release", release_tag)] Examples.after_revision4)
    as [r'|] eqn:E; [|vm_compute in E; discriminate].
  destruct (finalizeTags_takes_no_mark _ _ _ _ E) as (Hl & _).
  exists r'. split; [reflexivity | exact Hl].
Defined.

End AnnotatedTagsFacts.
